(** * Password-reset token lifecycle of the user-authentication service

    A shallow embedding of [users/redis_utils.py], of the password-reset
    serializers in [users/serializers.py] and of the two password-reset views
    in [users/views.py], followed by the properties of the token store
    adapter and of the reset flow.

    Python code runs in a state-and-exception monad over a [World] that holds
    the module globals of [redis_utils], the contents of the two store tiers
    (the Redis server and Django's cache), the user table, a clock, the
    record of store calls made so far and the log.  The stores and the user
    table are collaborators of the program: their calls are modelled as
    key-value operations with time-to-live, each of which may raise. *)

From Stdlib Require Import ZArith Lia Ascii.
From stdpp Require Import base strings gmap list pretty.

Local Open Scope Z_scope.
Local Open Scope string_scope.
Local Open Scope list_scope.

(** ** Python values and exceptions *)

Module Py.

(** Exceptions the modelled code can meet; all derive from [Exception].
    The string is what [str(e)] yields. *)
Inductive Exception :=
| RedisError (msg : string)
| CacheError (msg : string)
| DoesNotExist
| MultipleObjectsReturned
| ValueError (msg : string)
| KeyError (key : string).

Definition str_exc (e : Exception) : string :=
  match e with
  | RedisError msg => msg
  | CacheError msg => msg
  | DoesNotExist => "User matching query does not exist."
  | MultipleObjectsReturned => "get() returned more than one User"
  | ValueError msg => msg
  | KeyError key => key
  end.

Definition is_DoesNotExist (e : Exception) : bool :=
  match e with DoesNotExist => true | _ => false end.

(** [str(n)] of an integer: its decimal numeral. *)
Definition str (n : Z) : string := pretty n.

(** Truth value of a string or bytes object: non-empty. *)
Definition truthy (s : string) : bool :=
  match s with EmptyString => false | String _ _ => true end.

(** Truth value of an optional string ([None] is false). *)
Definition truthy_opt (o : option string) : bool :=
  match o with None => false | Some s => truthy s end.

(** [s[:n]]. *)
Definition slice_to (n : nat) (s : string) : string := String.substring 0 n s.

Definition digit_of (c : Ascii.ascii) : option Z :=
  let n := Z.of_N (Ascii.N_of_ascii c) in
  if bool_decide (48 <= n <= 57) then Some (n - 48) else None.

Fixpoint digits (s : string) (acc : Z) : option Z :=
  match s with
  | EmptyString => Some acc
  | String c s' =>
      match digit_of c with
      | Some d => digits s' (10 * acc + d)
      | None => None
      end
  end.

(** [int(s)] on an optional sign followed by decimal digits; anything else
    is a [ValueError].  (Python also accepts surrounding blanks and
    underscores between digits; [str] never produces those.) *)
Definition int (s : string) : Exception + Z :=
  let bad := ValueError ("invalid literal for int() with base 10: " +:+ s) in
  match s with
  | EmptyString => inl bad
  | String "-"%char (String c r) =>
      match digits (String c r) 0 with Some n => inr (- n) | None => inl bad end
  | String "+"%char (String c r) =>
      match digits (String c r) 0 with Some n => inr n | None => inl bad end
  | _ => match digits s 0 with Some n => inr n | None => inl bad end
  end.

End Py.

(** ** The world the program runs in *)

(** The two store tiers, Redis and Django's cache, are libraries the program
    calls; what is modelled of them is the contract the program relies on:
    set-with-ttl, get and delete on string keys, where a key set with a
    time-to-live reads as absent once that time has passed, and where any
    call may raise. *)

(** One stored key: its value and the instant at which it expires. *)
Record Entry := mkEntry { value : string; expires_at : Z }.

(** A store tier: keys to entries. *)
Abbreviation Tier := (gmap string Entry).

(** An entry is visible strictly before its expiry instant.  (At the instant
    itself the two libraries differ; the properties below only speak of less
    than and of more than 600 seconds.) *)
Definition live (t : Z) (e : Entry) : bool := bool_decide (t < expires_at e).

Definition tier_get (t : Z) (key : string) (m : Tier) : option string :=
  match m !! key with
  | Some e => if live t e then Some (value e) else None
  | None => None
  end.

Definition tier_set (t : Z) (key v : string) (ttl : Z) (m : Tier) : Tier :=
  <[key := mkEntry v (t + ttl)]> m.

(** Calls made on the two tiers. *)
Inductive StoreOp :=
| RedisSetex (key : string) (seconds : Z) (v : string)
| RedisGet (key : string)
| RedisDelete (key : string)
| CacheSet (key : string) (v : string) (timeout : Z)
| CacheGet (key : string)
| CacheDelete (key : string).

Definition is_redis_op (op : StoreOp) : bool :=
  match op with
  | RedisSetex _ _ _ | RedisGet _ | RedisDelete _ => true
  | _ => false
  end.

Definition is_cache_op (op : StoreOp) : bool := negb (is_redis_op op).

Inductive Level := INFO | WARNING | ERROR.

Inductive RedisClient := Redis (url : string).

(** Modelled from the spec: the user model ([users/models.py] is not among
    the sources).  A row of the user table: identifier, unique email,
    password credential and display name. *)
Record User := mkUser {
  id : Z;
  email : string;
  password : string;
  full_name : string
}.

Record World := mkWorld {
  (* module globals of redis_utils *)
  redis_client : option RedisClient;
  redis_available : bool;
  (* contents of the Redis server and of Django's cache *)
  redis_db : Tier;
  django_cache : Tier;
  (* the user table *)
  users : list User;
  (* seconds since some origin *)
  now : Z;
  (* store calls so far, oldest first, each with the time of the call *)
  trace : list (Z * StoreOp);
  (* log records so far, oldest first *)
  log : list (Level * string)
}.

Definition set_redis_db (m : Tier) (w : World) : World :=
  mkWorld (redis_client w) (redis_available w) m (django_cache w)
          (users w) (now w) (trace w) (log w).

Definition set_django_cache (m : Tier) (w : World) : World :=
  mkWorld (redis_client w) (redis_available w) (redis_db w) m
          (users w) (now w) (trace w) (log w).

Definition set_users (us : list User) (w : World) : World :=
  mkWorld (redis_client w) (redis_available w) (redis_db w) (django_cache w)
          us (now w) (trace w) (log w).

Definition set_now (t : Z) (w : World) : World :=
  mkWorld (redis_client w) (redis_available w) (redis_db w) (django_cache w)
          (users w) t (trace w) (log w).

Definition add_trace (op : StoreOp) (w : World) : World :=
  mkWorld (redis_client w) (redis_available w) (redis_db w) (django_cache w)
          (users w) (now w) (trace w ++ [(now w, op)]) (log w).

Definition add_log (l : Level) (msg : string) (w : World) : World :=
  mkWorld (redis_client w) (redis_available w) (redis_db w) (django_cache w)
          (users w) (now w) (trace w) (log w ++ [(l, msg)]).

(** Which store calls raise during one call into the program.  A tier is
    unavailable for a call when one of its operations raises. *)
Record Faults := mkFaults {
  setex_raises : bool;
  redis_get_raises : bool;
  redis_delete_raises : bool;
  cache_set_raises : bool;
  cache_get_raises : bool;
  cache_delete_raises : bool
}.

Definition no_faults : Faults := mkFaults false false false false false false.

(** ** The state-and-exception monad *)

Module PyM.
Import Py.

Inductive Result (A : Type) :=
| Return (a : A)
| Raise (e : Exception).
Arguments Return {A} a.
Arguments Raise {A} e.

Definition M (A : Type) : Type := World -> Result A * World.

Definition ret {A} (a : A) : M A := fun w => (Return a, w).

Definition bind {A B} (m : M A) (k : A -> M B) : M B :=
  fun w =>
    match m w with
    | (Return a, w') => k a w'
    | (Raise e, w') => (Raise e, w')
    end.

Definition raise {A} (e : Exception) : M A := fun w => (Raise e, w).

Definition get_world : M World := fun w => (Return w, w).

Definition modify (f : World -> World) : M unit := fun w => (Return tt, f w).

(** [try: body  except <caught> as e: handler e]; an exception outside
    [caught] goes on to the caller. *)
Definition try_except {A} (body : M A) (caught : Exception -> bool)
           (handler : Exception -> M A) : M A :=
  fun w =>
    match body w with
    | (Return a, w') => (Return a, w')
    | (Raise e, w') => if caught e then handler e w' else (Raise e, w')
    end.

(** [except Exception] *)
Definition any_Exception (_ : Exception) : bool := true.

(** What a block of statements did: left through a [return], or ran to its
    end. *)
Inductive Flow (A : Type) :=
| Returned (a : A)
| FellThrough.
Arguments Returned {A} a.
Arguments FellThrough {A}.

(** Sequencing of a block with the statements after it. *)
Definition and_then {A} (block : M (Flow A)) (rest : M A) : M A :=
  bind block (fun fl => match fl with Returned a => ret a | FellThrough => rest end).

End PyM.

Declare Scope py_scope.
Delimit Scope py_scope with py.
Notation "'do' x <- m ;; k" := (PyM.bind m (fun x => k))
  (at level 10, x name, m at level 99, k at level 200) : py_scope.
Notation "'do_' m ;; k" := (PyM.bind m (fun _ => k))
  (at level 10, m at level 99, k at level 200) : py_scope.

(** ** users/redis_utils.py *)

Module RedisUtils.
Import Py PyM.
Local Open Scope py_scope.

Definition set_globals (c : option RedisClient) (a : bool) (w : World) : World :=
  mkWorld c a (redis_db w) (django_cache w) (users w) (now w) (trace w) (log w).

(** Import of the module (lines 10-17): [redis.from_url(settings.REDIS_URL)]
    either yields a client or raises [ConnectionError]; the two globals are
    assigned here and nowhere else. *)
Definition import_module (REDIS_URL : string) (connection_error : bool)
           (w : World) : World :=
  if connection_error
  then add_log WARNING "Redis connection failed. Using Django cache as fallback."
         (set_globals None false w)
  else set_globals (Some (Redis REDIS_URL)) true w.


Definition logger (l : Level) (msg : string) : M unit := modify (add_log l msg).

(** *** The two tiers' calls *)

(** [redis_client.setex(key, seconds, v)] *)
Definition redis_setex (f : Faults) (key : string) (seconds : Z) (v : string)
  : M unit :=
  do_ modify (add_trace (RedisSetex key seconds v)) ;;
  if setex_raises f then raise (RedisError "Error connecting to Redis.")
  else modify (fun w => set_redis_db (tier_set (now w) key v seconds (redis_db w)) w).

(** [redis_client.get(key)]: the stored bytes, or [None]. *)
Definition redis_get (f : Faults) (key : string) : M (option string) :=
  do_ modify (add_trace (RedisGet key)) ;;
  if redis_get_raises f then raise (RedisError "Error connecting to Redis.")
  else do w <- get_world ;; ret (tier_get (now w) key (redis_db w)).

(** [redis_client.delete(key)] *)
Definition redis_delete (f : Faults) (key : string) : M unit :=
  do_ modify (add_trace (RedisDelete key)) ;;
  if redis_delete_raises f then raise (RedisError "Error connecting to Redis.")
  else modify (fun w => set_redis_db (delete key (redis_db w)) w).

(** [cache.set(key, v, timeout=timeout)] *)
Definition cache_set (f : Faults) (key v : string) (timeout : Z) : M unit :=
  do_ modify (add_trace (CacheSet key v timeout)) ;;
  if cache_set_raises f then raise (CacheError "cache backend unavailable")
  else modify (fun w => set_django_cache (tier_set (now w) key v timeout (django_cache w)) w).

(** [cache.get(key)] *)
Definition cache_get (f : Faults) (key : string) : M (option string) :=
  do_ modify (add_trace (CacheGet key)) ;;
  if cache_get_raises f then raise (CacheError "cache backend unavailable")
  else do w <- get_world ;; ret (tier_get (now w) key (django_cache w)).

(** [cache.delete(key)] *)
Definition cache_delete (f : Faults) (key : string) : M unit :=
  do_ modify (add_trace (CacheDelete key)) ;;
  if cache_delete_raises f then raise (CacheError "cache backend unavailable")
  else modify (fun w => set_django_cache (delete key (django_cache w)) w).

(** [bytes.decode('utf-8')]: the stored values are ASCII numerals, which
    decode to themselves. *)
Definition decode_utf8 (b : string) : string := b.

(** [f"password_reset:{token}"] *)
Definition key_of (token : string) : string := "password_reset:" +:+ token.

(** [redis_available and redis_client] as a condition. *)
Definition redis_enabled (w : World) : bool :=
  redis_available w &&
  match redis_client w with Some _ => true | None => false end.

(** *** generate_password_reset_token (lines 20-54)

    Besides the Python arguments, each function below takes what its
    surroundings decide during the call: [f], the store calls that raise, and
    for an issue [token], the string [secrets.token_urlsafe(32)] returned. *)
Definition generate_password_reset_token (f : Faults) (token : string)
           (user_id : Z) : M string :=
  let key := key_of token in
  do g <- get_world ;;
  do redis_success <-
    (if redis_enabled g then
       try_except
         (do_ redis_setex f key 600 (str user_id) ;;
          ret true)
         any_Exception
         (fun e =>
            do_ logger ERROR ("Redis error storing token: " +:+ str_exc e) ;;
            ret false)
     else ret false) ;;
  do_ (if negb redis_success then
     try_except
       (do_ cache_set f key (str user_id) 600 ;;
        logger INFO ("Token stored in Django cache: " +:+ slice_to 6 token +:+ "..."))
       any_Exception
       (fun e => logger ERROR ("Cache error storing token: " +:+ str_exc e))
   else ret tt) ;;
  ret token.

(** *** validate_password_reset_token (lines 57-94) *)
Definition validate_password_reset_token (f : Faults) (token : string)
  : M (option string) :=
  let key := key_of token in
  do g <- get_world ;;
  and_then
    (if redis_enabled g then
       try_except
         (do user_id_bytes <- redis_get f key ;;
          match user_id_bytes with
          | Some b =>
              if truthy b then
                let user_id := decode_utf8 b in
                do_ redis_delete f key ;;
                ret (Returned (Some user_id))
              else ret FellThrough
          | None => ret FellThrough
          end)
         any_Exception
         (fun e =>
            do_ logger ERROR ("Redis error validating token: " +:+ str_exc e) ;;
            ret FellThrough)
     else ret FellThrough)
    (and_then
       (try_except
          (do user_id <- cache_get f key ;;
           match user_id with
           | Some u =>
               if truthy u then
                 do_ cache_delete f key ;;
                 ret (Returned (Some u))
               else ret FellThrough
           | None => ret FellThrough
           end)
          any_Exception
          (fun e =>
             do_ logger ERROR ("Cache error validating token: " +:+ str_exc e) ;;
             ret FellThrough))
       (ret None)).

End RedisUtils.

(** ** Sequences of calls into the token store adapter *)

Module Lifecycle.
Import Py PyM RedisUtils.

(** The process starts with empty tiers and imports [redis_utils]. *)
Definition boot (REDIS_URL : string) (connection_error : bool)
           (us : list User) (t0 : Z) : World :=
  import_module REDIS_URL connection_error
    (mkWorld None false ∅ ∅ us t0 [] []).

Inductive Call :=
| Issue (f : Faults) (token : string) (user_id : Z)
| Redeem (f : Faults) (token : string)
| Elapse (seconds : N).

Definition exec (c : Call) (w : World) : World :=
  match c with
  | Issue f token user_id => snd (generate_password_reset_token f token user_id w)
  | Redeem f token => snd (validate_password_reset_token f token w)
  | Elapse seconds => set_now (now w + Z.of_N seconds) w
  end.

Fixpoint run (cs : list Call) (w : World) : World :=
  match cs with
  | [] => w
  | c :: cs' => run cs' (exec c w)
  end.

(** Worlds the process can be in. *)
Inductive reachable : World -> Prop :=
| reach_boot url ce us t0 : reachable (boot url ce us t0)
| reach_exec c w : reachable w -> reachable (exec c w).

(** The call issues [token]. *)
Definition issues (token : string) (c : Call) : bool :=
  match c with
  | Issue _ token' _ => bool_decide (token' = token)
  | _ => false
  end.

(** A store call that writes [key]. *)
Definition writes (key : string) (op : StoreOp) : bool :=
  match op with
  | RedisSetex k _ _ => bool_decide (k = key)
  | CacheSet k _ _ => bool_decide (k = key)
  | _ => false
  end.

(** The times at which [token] was issued, read off the record of store
    calls: every issue makes at least one write call for the token's key. *)
Definition issue_times (token : string) (w : World) : list Z :=
  fst <$> filter (fun e => writes (key_of token) (snd e) = true) (trace w).

(** The result of redeeming [token] in [w] ([redeem] and [issue] are the
    names the specification gives the two adapter operations). *)
Definition redeem (f : Faults) (token : string) (w : World)
  : Result (option string) :=
  fst (validate_password_reset_token f token w).

(** The result of issuing in [w]. *)
Definition issue (f : Faults) (token : string) (user_id : Z) (w : World)
  : Result string :=
  fst (generate_password_reset_token f token user_id w).

(** The part of the record of store calls added between [w] and [w']. *)
Definition new_ops (w w' : World) : list StoreOp :=
  snd <$> drop (length (trace w)) (trace w').

End Lifecycle.

(** ** Vocabulary of the statements

    Names for what a call found and did, in terms of the world before the
    call and of the faults during it.  The lemmas of the section
    "What one call into the adapter does to the world" prove that the code
    behaves as these say. *)

Module Outcome.
Import Py PyM RedisUtils Lifecycle.

(** The tier an issue with faults [f] leaves the token in, if any. *)
Inductive TierName := Primary | Secondary.

Definition written_to (f : Faults) (w : World) : option TierName :=
  if redis_enabled w && negb (setex_raises f) then Some Primary
  else if negb (cache_set_raises f) then Some Secondary
  else None.

(** No operation of the tier raises during the call. *)
Definition tier_up (f : Faults) (t : TierName) : bool :=
  match t with
  | Primary => negb (redis_get_raises f) && negb (redis_delete_raises f)
  | Secondary => negb (cache_get_raises f) && negb (cache_delete_raises f)
  end.

(** What the primary tier would serve for [token]: enabled, up for this
    call, and holding a live non-empty value. *)
Definition primary_hit (f : Faults) (token : string) (w : World) : option string :=
  if redis_enabled w && tier_up f Primary then
    match tier_get (now w) (key_of token) (redis_db w) with
    | Some b => if truthy b then Some b else None
    | None => None
    end
  else None.

Definition secondary_hit (f : Faults) (token : string) (w : World) : option string :=
  if tier_up f Secondary then
    match tier_get (now w) (key_of token) (django_cache w) with
    | Some u => if truthy u then Some u else None
    | None => None
    end
  else None.

(** The call issues or redeems [token]. *)
Definition mentions (token : string) (c : Call) : bool :=
  match c with
  | Issue _ token' _ => bool_decide (token' = token)
  | Redeem _ token' => bool_decide (token' = token)
  | Elapse _ => false
  end.

(** Neither tier has an entry under the token's key. *)
Definition absent (token : string) (w : World) : Prop :=
  redis_db w !! key_of token = None /\ django_cache w !! key_of token = None.

(** Every entry under a token's key was written by an issue of that token
    and expires 600 seconds after it. *)
Definition expiry_inv (w : World) : Prop :=
  forall token e,
    redis_db w !! key_of token = Some e \/
    django_cache w !! key_of token = Some e ->
    exists t, t ∈ issue_times token w /\ expires_at e = t + 600.

(** No token has an entry in both tiers. *)
Definition single_tier (w : World) : Prop :=
  forall token,
    redis_db w !! key_of token = None \/ django_cache w !! key_of token = None.

(** The tokens a sequence of calls issues, in order. *)
Fixpoint issued_tokens (cs : list Call) : list string :=
  match cs with
  | [] => []
  | Issue _ token _ :: cs' => token :: issued_tokens cs'
  | _ :: cs' => issued_tokens cs'
  end.

(** The store calls one issue makes, in order. *)
Definition issue_ops (f : Faults) (token : string) (user_id : Z) (w : World)
  : list StoreOp :=
  (if redis_enabled w then [RedisSetex (key_of token) 600 (str user_id)] else [])
  ++ (if redis_enabled w && negb (setex_raises f) then []
      else [CacheSet (key_of token) (str user_id) 600]).

(** The store calls one redeem makes on a tier: the read and, when the read
    gave a non-empty value, the delete. *)
Definition lookup_ops (get_raises : bool) (found : option string)
           (get_op delete_op : StoreOp) : list StoreOp :=
  get_op :: (if negb get_raises && truthy_opt found then [delete_op] else []).

(** The store calls one redeem makes, in order. *)
Definition redeem_ops (f : Faults) (token : string) (w : World) : list StoreOp :=
  (if redis_enabled w
   then lookup_ops (redis_get_raises f)
          (tier_get (now w) (key_of token) (redis_db w))
          (RedisGet (key_of token)) (RedisDelete (key_of token))
   else [])
  ++ (match primary_hit f token w with
      | Some _ => []
      | None => lookup_ops (cache_get_raises f)
                  (tier_get (now w) (key_of token) (django_cache w))
                  (CacheGet (key_of token)) (CacheDelete (key_of token))
      end).

(** The store calls of a call. *)
Definition call_ops (c : Call) (w : World) : list StoreOp :=
  match c with
  | Issue f token user_id => issue_ops f token user_id w
  | Redeem f token => redeem_ops f token w
  | Elapse _ => []
  end.

End Outcome.

(** ** users/serializers.py (the two password-reset serializers) *)

Module Serializers.

(** [request.data] and [validated_data]: field name to value. *)
Abbreviation Data := (gmap string string).

(** [serializer.errors]: field name to messages. *)
Abbreviation Errors := (gmap string (list string)).

(** A field class of the framework: from the value sent under the field's
    name, if any, to the validated value or to the field's error messages. *)
Definition Field : Type := option string -> list string + string.

(** The field-level pass of [is_valid]. *)
Fixpoint run_fields (fields : list (string * Field)) (data : Data)
  : Errors * Data :=
  match fields with
  | [] => (∅, ∅)
  | (name, field) :: rest =>
      let '(errs, out) := run_fields rest data in
      match field (data !! name) with
      | inl msgs => (<[name := msgs]> errs, out)
      | inr v => (errs, <[name := v]> out)
      end
  end.

(** [serializer.is_valid()]: the fields first and, when none of them failed,
    the serializer's own [validate].  [inr] carries [validated_data], [inl]
    carries [errors]. *)
Definition is_valid (fields : list (string * Field))
           (validate : Data -> Errors + Data) (data : Data) : Errors + Data :=
  let '(errs, out) := run_fields fields data in
  if decide (errs = ∅) then validate out else inl errs.

Section Declared.
Variables EmailField CharField : Field.

(** PasswordResetRequestSerializer (lines 44-46) *)
Definition PasswordResetRequestSerializer_fields : list (string * Field) :=
  [("email", EmailField)].

Definition PasswordResetRequestSerializer (data : Data) : Errors + Data :=
  is_valid PasswordResetRequestSerializer_fields inr data.

(** PasswordResetConfirmSerializer (lines 49-58) *)
Definition PasswordResetConfirmSerializer_fields : list (string * Field) :=
  [("token", CharField); ("new_password", CharField);
   ("new_password_confirm", CharField)].

Definition PasswordResetConfirmSerializer_validate (data : Data)
  : Errors + Data :=
  if decide (data !! "new_password" ≠ data !! "new_password_confirm")
  then inl {["new_password_confirm" := ["Passwords do not match"]]}
  else inr data.

Definition PasswordResetConfirmSerializer (data : Data) : Errors + Data :=
  is_valid PasswordResetConfirmSerializer_fields
           PasswordResetConfirmSerializer_validate data.

End Declared.

(** A field that only insists on being present, used to run examples. *)
Definition required_field : Field :=
  fun o => match o with
           | Some v => inr v
           | None => inl ["This field is required."]
           end.

(** Python's [str.isspace] on the characters below 128: the tab, the line
    feed, the vertical tab, the form feed, the carriage return, the four
    separators 28 to 31, and the space. *)
Definition is_space (c : Ascii.ascii) : bool :=
  let n := Ascii.nat_of_ascii c in
  ((9 <=? n)%nat && (n <=? 13)%nat) || ((28 <=? n)%nat && (n <=? 32)%nat).

Fixpoint lstrip (s : string) : string :=
  match s with
  | String c s' => if is_space c then lstrip s' else s
  | EmptyString => EmptyString
  end.

Fixpoint rstrip (s : string) : string :=
  match s with
  | EmptyString => EmptyString
  | String c s' =>
      match rstrip s' with
      | EmptyString => if is_space c then EmptyString else String c EmptyString
      | t => String c t
      end
  end.

(** [s.strip()] *)
Definition strip (s : string) : string := rstrip (lstrip s).

Fixpoint has_null (s : string) : bool :=
  match s with
  | EmptyString => false
  | String c s' => (Ascii.nat_of_ascii c =? 0)%nat || has_null s'
  end.

(** The framework's [CharField()] as the serializers declare it, with the
    defaults of its class: [required=True], [allow_blank=False],
    [trim_whitespace=True] and the validator that refuses null characters.
    The validated value is the value sent with the blanks at both ends
    stripped. *)
Definition CharField_default : Field :=
  fun o => match o with
           | None => inl ["This field is required."]
           | Some v =>
               if bool_decide (strip v = EmptyString)
               then inl ["This field may not be blank."]
               else if has_null (strip v)
                    then inl ["Null characters are not allowed."]
                    else inr (strip v)
           end.

End Serializers.

(** ** users/views.py (the two password-reset views) *)

Module Views.
Import Py PyM RedisUtils Serializers.
Local Open Scope py_scope.

Inductive JSON :=
| JStr (s : string)
| JList (l : list string).

Record Response := mkResponse {
  data : gmap string JSON;
  status_code : Z
}.

Definition HTTP_200_OK : Z := 200.
Definition HTTP_400_BAD_REQUEST : Z := 400.
Definition HTTP_500_INTERNAL_SERVER_ERROR : Z := 500.

(** [d[key]] *)
Definition subscript (d : Data) (key : string) : M string :=
  match d !! key with
  | Some v => ret v
  | None => raise (KeyError key)
  end.

(** [User.objects.get(...)] over the rows that match. *)
Definition objects_get (matching : list User) : M User :=
  match matching with
  | [] => raise DoesNotExist
  | [u] => ret u
  | _ => raise MultipleObjectsReturned
  end.

(** [User.objects.get(email=email)] *)
Definition User_objects_get_email (e : string) : M User :=
  do w <- get_world ;;
  objects_get (filter (fun u => email u = e) (users w)).

(** [User.objects.get(id=user_id)] with the string the token store returned:
    the lookup value is converted with [int]. *)
Definition User_objects_get_id (user_id : string) : M User :=
  match int user_id with
  | inl e => raise e
  | inr n =>
      do w <- get_world ;;
      objects_get (filter (fun u => id u = n) (users w))
  end.

(** [user.set_password(raw); user.save()]: the row with the user's id gets
    the new credential (the hash is opaque: the row keeps the password that
    [check_password] accepts). *)
Definition set_password_and_save (u : User) (raw : string) : M unit :=
  modify (fun w =>
    set_users
      ((fun r => if bool_decide (id r = id u)
                 then mkUser (id u) (email u) raw (full_name u)
                 else r) <$> users w) w).

Definition detail (msg : string) : gmap string JSON := {["detail" := JStr msg]}.

Definition reset_generated_msg : string :=
  "Password reset token generated successfully.".
Definition reset_generic_msg : string :=
  "If the email exists in our system, a password reset link will be sent.".
Definition reset_failed_msg : string :=
  "Could not generate password reset token. Please try again later.".
Definition confirm_ok_msg : string :=
  "Password reset successful. You can now log in with your new password.".
Definition confirm_invalid_msg : string :=
  "Invalid or expired token. Please request a new password reset.".
Definition confirm_error_msg : string :=
  "An error occurred during password reset. Please try again later.".

(** The response to a confirm whose token does not redeem (lines 358-360). *)
Definition confirm_rejection : Response :=
  mkResponse (detail confirm_invalid_msg) HTTP_400_BAD_REQUEST.

Section WithFields.
Variables EmailField CharField : Field.

(** PasswordResetRequestView.post (lines 281-314); [fresh_token] is what
    [secrets.token_urlsafe] yields if the token store is called. *)
Definition PasswordResetRequestView_post (f : Faults) (fresh_token : string)
           (request_data : Data) : M Response :=
  match PasswordResetRequestSerializer EmailField request_data with
  | inr validated_data =>
      do email <- subscript validated_data "email" ;;
      and_then
        (try_except
           (do user <- User_objects_get_email email ;;
            try_except
              (do token <- generate_password_reset_token f fresh_token (id user) ;;
               ret (Returned
                      (mkResponse
                         (<["token" := JStr token]> (detail reset_generated_msg))
                         HTTP_200_OK)))
              any_Exception
              (fun e =>
                 do_ logger ERROR ("Password reset token generation failed: " +:+ str_exc e) ;;
                 ret (Returned
                        (mkResponse (detail reset_failed_msg)
                                    HTTP_500_INTERNAL_SERVER_ERROR))))
           is_DoesNotExist
           (fun _ => ret FellThrough))
        (ret (mkResponse (detail reset_generic_msg) HTTP_200_OK))
  | inl errors =>
      ret (mkResponse (JList <$> errors) HTTP_400_BAD_REQUEST)
  end.

(** PasswordResetConfirmView.post (lines 336-369) *)
Definition PasswordResetConfirmView_post (f : Faults) (request_data : Data)
  : M Response :=
  match PasswordResetConfirmSerializer CharField request_data with
  | inr validated_data =>
      do token <- subscript validated_data "token" ;;
      do new_password <- subscript validated_data "new_password" ;;
      try_except
        (do user_id <- validate_password_reset_token f token ;;
         and_then
           (match user_id with
            | Some uid =>
                if truthy uid then
                  try_except
                    (do user <- User_objects_get_id uid ;;
                     do_ set_password_and_save user new_password ;;
                     ret (Returned
                            (mkResponse (detail confirm_ok_msg) HTTP_200_OK)))
                    is_DoesNotExist
                    (fun _ => ret FellThrough)
                else ret FellThrough
            | None => ret FellThrough
            end)
           (ret (mkResponse (detail confirm_invalid_msg) HTTP_400_BAD_REQUEST)))
        any_Exception
        (fun e =>
           do_ logger ERROR ("Password reset confirmation failed: " +:+ str_exc e) ;;
           ret (mkResponse (detail confirm_error_msg)
                           HTTP_500_INTERNAL_SERVER_ERROR))
  | inl errors =>
      ret (mkResponse (JList <$> errors) HTTP_400_BAD_REQUEST)
  end.

End WithFields.

End Views.

(** ** Two redeem calls on separate workers

    [validate_password_reset_token] makes its store calls one at a time; a
    worker is between two of them at one of the points below, and another
    worker's store call can run in between. *)

Module Interleaving.
Import Py PyM RedisUtils.
Local Open Scope py_scope.

(** Where a worker is inside [validate_password_reset_token]. *)
Inductive Point :=
| Start                          (* line 72, before [redis_client.get] *)
| RedisHit (user_id : string)    (* line 78, before [redis_client.delete] *)
| Fallback                       (* line 85, before [cache.get] *)
| CacheHit (user_id : string)    (* line 89, before [cache.delete] *)
| Finished (r : option string).  (* returned [r] *)

(** From one point to the next: at most one store call. *)
Definition step (f : Faults) (token : string) (p : Point) : M Point :=
  let key := key_of token in
  match p with
  | Start =>
      do g <- get_world ;;
      if redis_enabled g then
        try_except
          (do user_id_bytes <- redis_get f key ;;
           match user_id_bytes with
           | Some b => if truthy b then ret (RedisHit (decode_utf8 b)) else ret Fallback
           | None => ret Fallback
           end)
          any_Exception
          (fun e =>
             do_ logger ERROR ("Redis error validating token: " +:+ str_exc e) ;;
             ret Fallback)
      else ret Fallback
  | RedisHit user_id =>
      try_except
        (do_ redis_delete f key ;; ret (Finished (Some user_id)))
        any_Exception
        (fun e =>
           do_ logger ERROR ("Redis error validating token: " +:+ str_exc e) ;;
           ret Fallback)
  | Fallback =>
      try_except
        (do user_id <- cache_get f key ;;
         match user_id with
         | Some u => if truthy u then ret (CacheHit u) else ret (Finished None)
         | None => ret (Finished None)
         end)
        any_Exception
        (fun e =>
           do_ logger ERROR ("Cache error validating token: " +:+ str_exc e) ;;
           ret (Finished None))
  | CacheHit user_id =>
      try_except
        (do_ cache_delete f key ;; ret (Finished (Some user_id)))
        any_Exception
        (fun e =>
           do_ logger ERROR ("Cache error validating token: " +:+ str_exc e) ;;
           ret (Finished None))
  | Finished r => ret (Finished r)
  end.

(** A worker run alone for [n] steps. *)
Fixpoint steps (n : nat) (f : Faults) (token : string) (p : Point) : M Point :=
  match n with
  | O => ret p
  | S n' => do p' <- step f token p ;; steps n' f token p'
  end.

Inductive Worker := A | B.

(** Two workers redeeming, and the shared world. *)
Record Pair := mkPair { at_A : Point; at_B : Point; shared : World }.

Definition advance (fA fB : Faults) (tokA tokB : string) (who : Worker)
           (s : Pair) : Pair :=
  match who with
  | A => match step fA tokA (at_A s) (shared s) with
         | (Return p, w) => mkPair p (at_B s) w
         | (Raise _, w) => mkPair (at_A s) (at_B s) w
         end
  | B => match step fB tokB (at_B s) (shared s) with
         | (Return p, w) => mkPair (at_A s) p w
         | (Raise _, w) => mkPair (at_A s) (at_B s) w
         end
  end.

(** The workers' steps in the order of a schedule. *)
Fixpoint interleave (fA fB : Faults) (tokA tokB : string)
         (schedule : list Worker) (s : Pair) : Pair :=
  match schedule with
  | [] => s
  | who :: rest => interleave fA fB tokA tokB rest (advance fA fB tokA tokB who s)
  end.

End Interleaving.

(** ** Sample worlds and faults used in the examples *)

Module Demo.
Import Lifecycle Outcome.

Definition alice : User := mkUser 7 "alice@example.com" "oldpass123" "Alice".

(** [redis.from_url] returned a client at import; one user; the clock at
    1000. *)
Definition w_boot : World := boot "redis://localhost:6379/0" false [alice] 1000.

(** [redis.from_url] raised [ConnectionError] at import. *)
Definition w_boot_no_redis : World :=
  boot "redis://localhost:6379/0" true [alice] 1000.

(** Faults: the primary write raises. *)
Definition f_setex_down : Faults := mkFaults true false false false false false.

(** Faults: both writes raise. *)
Definition f_writes_down : Faults := mkFaults true false false true false false.

(** Faults: every Redis call raises. *)
Definition f_redis_down : Faults := mkFaults true true true false false false.

(** Faults: every cache call raises. *)
Definition f_cache_down : Faults := mkFaults false false false true true true.

(** A token for Alice, written to Redis. *)
Definition w_issued : World := exec (Issue no_faults "tok" 7) w_boot.

(** A token for Alice, written to the cache because the Redis write raised. *)
Definition w_issued_fallback : World := exec (Issue f_setex_down "tok" 7) w_boot.

(** A token issued for subject 9, which has no row in the user table. *)
Definition w_issued_ghost : World := exec (Issue no_faults "tok9" 9) w_boot.

(** Request bodies. *)
Definition confirm_ghost : gmap string string :=
  {["token" := "tok9"; "new_password" := "newpass123";
    "new_password_confirm" := "newpass123"]}.

Definition confirm_mismatch : gmap string string :=
  {["token" := "tok"; "new_password" := "newpass123";
    "new_password_confirm" := "different123"]}.

(** The two passwords differ by a blank at the end of the first. *)
Definition confirm_padded : gmap string string :=
  {["token" := "tok"; "new_password" := "newpass123 ";
    "new_password_confirm" := "newpass123"]}.

Definition request_alice : gmap string string :=
  {["email" := "alice@example.com"]}.

Definition request_nobody : gmap string string :=
  {["email" := "nobody@example.com"]}.

End Demo.

(** ** More vocabulary for the token store adapter *)

Module Footprint.
Import Py PyM RedisUtils Lifecycle Outcome.

(** Everything a tier holds was written by a recorded call of an issue: the
    key is a token's key, the value the numeral of the subject id, and the
    expiry 600 seconds after the write. *)
Definition store_inv (w : World) : Prop :=
  (forall key e,
     redis_db w !! key = Some e ->
     exists token user_id t,
       key = key_of token /\ e = mkEntry (str user_id) (t + 600) /\
       (t, RedisSetex key 600 (str user_id)) ∈ trace w) /\
  (forall key e,
     django_cache w !! key = Some e ->
     exists token user_id t,
       key = key_of token /\ e = mkEntry (str user_id) (t + 600) /\
       (t, CacheSet key (str user_id) 600) ∈ trace w).

(** No recorded store call is later than the clock. *)
Definition trace_past (w : World) : Prop :=
  forall t op, (t, op) ∈ trace w -> t <= now w.

(** The sequences of store calls one issue can make. *)
Definition issue_call_shapes (key v : string) : list (list StoreOp) :=
  [ [RedisSetex key 600 v];
    [RedisSetex key 600 v; CacheSet key v 600];
    [CacheSet key v 600] ].

(** The sequences of store calls one redeem can make. *)
Definition redeem_call_shapes (key : string) : list (list StoreOp) :=
  [ [CacheGet key];
    [CacheGet key; CacheDelete key];
    [RedisGet key; RedisDelete key];
    [RedisGet key; CacheGet key];
    [RedisGet key; CacheGet key; CacheDelete key];
    [RedisGet key; RedisDelete key; CacheGet key];
    [RedisGet key; RedisDelete key; CacheGet key; CacheDelete key] ].

(** A call during which no time passes. *)
Definition timeless (c : Call) : bool :=
  match c with Elapse _ => false | _ => true end.

End Footprint.

(** ** More vocabulary for the two password-reset views *)

Module ResetFlow.
Import Py PyM RedisUtils Lifecycle Outcome Serializers Views.

(** The user table after [user.set_password(raw); user.save()] for the
    loaded row [u]. *)
Definition with_password (u : User) (raw : string) (us : list User)
  : list User :=
  (fun r => if bool_decide (id r = id u)
            then mkUser (id u) (email u) raw (full_name u)
            else r) <$> us.

(** The three replies of the confirm view that carry a [detail]. *)
Definition confirm_ok : Response :=
  mkResponse (detail confirm_ok_msg) HTTP_200_OK.

Definition confirm_error : Response :=
  mkResponse (detail confirm_error_msg) HTTP_500_INTERNAL_SERVER_ERROR.

(** The replies of the request view. *)
Definition reset_generated (token : string) : Response :=
  mkResponse (<["token" := JStr token]> (detail reset_generated_msg)) HTTP_200_OK.

Definition reset_generic : Response :=
  mkResponse (detail reset_generic_msg) HTTP_200_OK.

(** What reaches the service: the two reset requests, and time passing. *)
Inductive Request :=
| ResetRequest (f : Faults) (fresh_token : string) (request_data : Data)
| ResetConfirm (f : Faults) (request_data : Data)
| Wait (seconds : N).

Section Service.
Variables EmailField CharField : Field.

(** The world after a request has been handled. *)
Definition serve (r : Request) (w : World) : World :=
  match r with
  | ResetRequest f fresh_token request_data =>
      snd (PasswordResetRequestView_post EmailField f fresh_token request_data w)
  | ResetConfirm f request_data =>
      snd (PasswordResetConfirmView_post CharField f request_data w)
  | Wait seconds => set_now (now w + Z.of_N seconds) w
  end.

(** The worlds the service can be in, started on a user table that respects
    its two constraints: [id] is the primary key and [email] is unique. *)
Inductive served : World -> Prop :=
| served_boot url ce us t0 :
    NoDup (id <$> us) -> NoDup (email <$> us) ->
    served (boot url ce us t0)
| served_step r w : served w -> served (serve r w).

End Service.

End ResetFlow.

(** ** users/serializers.py and users/views.py: registration, login, profile
    and the debug view; users/middleware.py *)

Module Accounts.
Import Py PyM Serializers.
Local Open Scope py_scope.

(** Reply bodies with nested objects. *)
#[warnings="-register-all"]
Inductive Json :=
| JString (s : string)
| JNumber (n : Z)
| JStrings (l : list string)
| JObject (fields : gmap string Json).

Record Reply := mkReply {
  body : gmap string Json;
  status : Z
}.

Definition HTTP_201_CREATED : Z := 201.
Definition HTTP_401_UNAUTHORIZED : Z := 401.

(** What the views read of a request besides its body: [request.headers],
    [request.META], [request.user] ([None] for the anonymous user, whose
    [is_authenticated] is false) and [request.query_params]. *)
Record HttpRequest := mkRequest {
  headers : gmap string string;
  META : gmap string string;
  user : option User;
  query_params : gmap string string
}.

Definition set_META (m : gmap string string) (r : HttpRequest) : HttpRequest :=
  mkRequest (headers r) m (user r) (query_params r).

(** *** users/middleware.py *)

(** AuthorizationHeaderMiddleware.__call__ (lines 10-13): the request is
    changed in place and handed to [get_response]. *)
Definition AuthorizationHeaderMiddleware_call {R : Type}
           (get_response : HttpRequest -> R) (request : HttpRequest) : R :=
  match headers request !! "Authorization" with
  | Some v =>
      if bool_decide (META request !! "HTTP_AUTHORIZATION" = None)
      then get_response
             (set_META (<["HTTP_AUTHORIZATION" := v]> (META request)) request)
      else get_response request
  | None => get_response request
  end.

(** *** users/serializers.py *)

(** UserSerializer (lines 36-41): [fields = ['id', 'email', 'full_name']]. *)
Definition UserSerializer_data (u : User) : gmap string Json :=
  {["id" := JNumber (id u); "email" := JString (email u);
    "full_name" := JString (full_name u)]}.

Section Declared.
Variables EmailField CharField : Field.

(** UserRegistrationSerializer (lines 7-27) *)
Definition UserRegistrationSerializer_fields : list (string * Field) :=
  [("email", EmailField); ("full_name", CharField); ("password", CharField);
   ("password_confirm", CharField)].

Definition UserRegistrationSerializer_validate (data : Data) : Errors + Data :=
  if decide (data !! "password" ≠ data !! "password_confirm")
  then inl {["password_confirm" := ["Passwords do not match"]]}
  else inr data.

Definition UserRegistrationSerializer (data : Data) : Errors + Data :=
  is_valid UserRegistrationSerializer_fields
           UserRegistrationSerializer_validate data.

(** [create]: [validated_data.pop('password_confirm')], a [KeyError] when the
    key is missing, then [User.objects.create_user] with the remaining
    validated data as keyword arguments. *)
Definition UserRegistrationSerializer_create (create_user : Data -> M User)
           (validated_data : Data) : M User :=
  match validated_data !! "password_confirm" with
  | Some _ => create_user (delete "password_confirm" validated_data)
  | None => raise (KeyError "password_confirm")
  end.

End Declared.

(** *** users/views.py *)

Section WithCollaborators.
Variables EmailField CharField : Field.

(** [User.objects.create_user], called with keyword arguments: the manager
    of the user model
    ([users/models.py], not among the sources). *)
Variable create_user : Data -> M User.

(** [RefreshToken.for_user(user)], as the pair [str(refresh)],
    [str(refresh.access_token)]. *)
Variable RefreshToken_for_user : User -> M (string * string).

(** [authenticate(request, email=email, password=password)]. *)
Variable authenticate : option string -> option string -> M (option User).

Definition token_reply (u : User) (refresh access : string) (st : Z) : Reply :=
  mkReply {["user" := JObject (UserSerializer_data u);
            "refresh" := JString refresh;
            "access" := JString access]} st.

(** UserRegistrationView.post (lines 62-92) *)
Definition UserRegistrationView_post (request_data : Data) : M Reply :=
  match UserRegistrationSerializer EmailField CharField request_data with
  | inr validated_data =>
      do user <- UserRegistrationSerializer_create create_user validated_data ;;
      do refresh <- RefreshToken_for_user user ;;
      ret (token_reply user (fst refresh) (snd refresh) HTTP_201_CREATED)
  | inl errors =>
      ret (mkReply (JStrings <$> errors) Views.HTTP_400_BAD_REQUEST)
  end.

Definition invalid_credentials : Reply :=
  mkReply {["detail" := JString "Invalid credentials"]} HTTP_401_UNAUTHORIZED.

(** UserLoginView.post (lines 122-140): the body is read with [.get], no
    serializer is run. *)
Definition UserLoginView_post (request_data : Data) : M Reply :=
  let email := request_data !! "email" in
  let password := request_data !! "password" in
  do user <- authenticate email password ;;
  match user with
  | Some u =>
      do refresh <- RefreshToken_for_user u ;;
      ret (token_reply u (fst refresh) (snd refresh) Views.HTTP_200_OK)
  | None => ret invalid_credentials
  end.

End WithCollaborators.

(** UserProfileView.get (lines 171-185): the handler alone.  The class puts
    [IsAuthenticated] before it, see [UserProfileView] below. *)
Definition UserProfileView_get (request : HttpRequest) : Reply :=
  let auth_header := default "" (META request !! "HTTP_AUTHORIZATION") in
  match user request with
  | None =>
      mkReply
        {["detail" := JString "Authentication credentials were not provided.";
          "received_header" := JString auth_header;
          "hint" := JString "Make sure you are providing the token with format: Bearer <token>"]}
        HTTP_401_UNAUTHORIZED
  | Some u => mkReply (UserSerializer_data u) Views.HTTP_200_OK
  end.

Definition set_user (u : option User) (r : HttpRequest) : HttpRequest :=
  mkRequest (headers r) (META r) u (query_params r).

(** [IsAuthenticated.has_permission]:
    [bool(request.user and request.user.is_authenticated)]. *)
Definition IsAuthenticated (request : HttpRequest) : bool :=
  match user request with
  | Some _ => true
  | None => false
  end.

Section Dispatch.

(** [request.user] as the framework's authentication classes resolve it,
    from the request that reaches the view: [None] when they leave the
    request anonymous. *)
Variable authenticators : HttpRequest -> option User.

(** The framework's reply to a request that a permission class refused. *)
Variable permission_denied : HttpRequest -> Reply.

(** [APIView.dispatch] as far as a view's [permission_classes] reach: the
    request is authenticated, every permission class is asked, and only then
    is the handler called; a refused request never reaches the handler. *)
Definition APIView_dispatch (permission_classes : list (HttpRequest -> bool))
           (handler : HttpRequest -> Reply) (request : HttpRequest) : Reply :=
  let request := set_user (authenticators request) request in
  if forallb (fun has_permission => has_permission request) permission_classes
  then handler request
  else permission_denied request.

(** UserProfileView (lines 143-185):
    [permission_classes = [IsAuthenticated]] (line 145) and [get]. *)
Definition UserProfileView : HttpRequest -> Reply :=
  APIView_dispatch [IsAuthenticated] UserProfileView_get.

End Dispatch.

(** AuthDebugView: the class body defines [get] twice. *)

(** The first [def get] (lines 214-229). *)
Definition AuthDebugView_get_1 (request : HttpRequest) : Reply :=
  let headers :=
    filter (fun kv => String.prefix "HTTP_" (fst kv) = true) (META request) in
  let auth_header := default "Not found" (META request !! "HTTP_AUTHORIZATION") in
  let user_info :=
    match user request with
    | Some u => "Authenticated as: " +:+ email u +:+ " (ID: " +:+ str (id u) +:+ ")"
    | None => "Not authenticated"
    end in
  mkReply {["headers" := JObject (JString <$> headers);
            "auth_header" := JString auth_header;
            "user" := JString user_info]} Views.HTTP_200_OK.

(** The character [U+0022]. *)
Definition double_quote : string := String (Ascii.ascii_of_nat 34) EmptyString.

(** The second [def get] (lines 246-258). *)
Definition AuthDebugView_get_2 (request : HttpRequest) : Reply :=
  let token := default "" (query_params request !! "token") in
  if negb (truthy token) then
    mkReply {["error" := JString "Please provide a token as a query parameter";
              "example" := JString "/api/v1/auth-debug/?token=your_jwt_token_here"]}
            Views.HTTP_400_BAD_REQUEST
  else
    mkReply {["proper_header_value" := JString ("Bearer " +:+ token);
              "instructions" := JString "Use the value above in the Authorization header";
              "swagger_instructions" :=
                JString ("In Swagger UI, click the " +:+ double_quote +:+
                         "Authorize" +:+ double_quote +:+
                         " button and enter the value above")]}
            Views.HTTP_200_OK.

(** A class body binds its names in order: a later [def] of a name replaces
    the earlier one. *)
Definition class_namespace {A : Type} (class_body : list (string * A))
  : gmap string A :=
  foldl (fun ns nm => <[fst nm := snd nm]> ns) ∅ class_body.

Definition AuthDebugView_body : list (string * (HttpRequest -> Reply)) :=
  [("get", AuthDebugView_get_1); ("get", AuthDebugView_get_2)].

(** The handler a request method is dispatched to, if the class has one. *)
Definition AuthDebugView_handler (method : string)
  : option (HttpRequest -> Reply) :=
  class_namespace AuthDebugView_body !! method.

End Accounts.

(** ** Stand-ins for the collaborators, used to run examples *)

Module Samples.
Import Py PyM Serializers Accounts.
Local Open Scope py_scope.

(** Modelled from the spec: the user store's create operation (the manager
    in [users/models.py] is not among the sources).  The new row gets the
    next free id and the given email, password and full name. *)
Definition sample_create_user (kwargs : Data) : M User :=
  do w <- get_world ;;
  let u := mkUser (1 + foldr Z.max 0 (id <$> users w))
                  (default "" (kwargs !! "email"))
                  (default "" (kwargs !! "password"))
                  (default "" (kwargs !! "full_name")) in
  do_ modify (set_users (users w ++ [u])) ;;
  ret u.

(** An issuer of opaque access and refresh tokens for a subject. *)
Definition sample_tokens (u : User) : M (string * string) :=
  ret ("refresh-for-" +:+ str (id u), "access-for-" +:+ str (id u)).

(** Modelled from the spec: the credential verifier (section 4.3): the
    subject with that email if the password is the stored credential's,
    nothing otherwise, and nothing when either is missing. *)
Definition sample_authenticate (email_ password_ : option string)
  : M (option User) :=
  do w <- get_world ;;
  match email_, password_ with
  | Some e, Some p =>
      match filter (fun u => email u = e) (users w) with
      | [u] => ret (if bool_decide (password u = p) then Some u else None)
      | _ => ret None
      end
  | _, _ => ret None
  end.

(** Request bodies and requests. *)
Definition register_new : Data :=
  {["email" := "new@example.com"; "full_name" := "New User";
    "password" := "securepass123"; "password_confirm" := "securepass123"]}.

Definition login_alice : Data :=
  {["email" := "alice@example.com"; "password" := "oldpass123"]}.

Definition login_wrong_password : Data :=
  {["email" := "alice@example.com"; "password" := "wrong"]}.

Definition login_unknown : Data :=
  {["email" := "nobody@example.com"; "password" := "oldpass123"]}.

(** An anonymous request that carries its bearer token in the headers only. *)
Definition anonymous_with_header : HttpRequest :=
  mkRequest {["Authorization" := "Bearer abc"]} {["PATH_INFO" := "/profile/"]}
            None ∅.

(** A request with Alice's access token in the headers only. *)
Definition alice_with_header : HttpRequest :=
  mkRequest {["Authorization" := "Bearer access-for-7"]}
            {["PATH_INFO" := "/profile/"]} None ∅.

(** An authentication that knows Alice's access token and reads it where the
    framework's JWT authentication does, in [META]. *)
Definition sample_authenticators (request : HttpRequest) : option User :=
  if bool_decide (META request !! "HTTP_AUTHORIZATION"
                  = Some "Bearer access-for-7")
  then Some Demo.alice
  else None.

(** A refusal in the framework's manner. *)
Definition sample_permission_denied (request : HttpRequest) : Reply :=
  mkReply {["detail" := JString "Authentication credentials were not provided."]}
          HTTP_401_UNAUTHORIZED.

End Samples.

(** ** The superuser scripts: users/management/commands/create_admin.py,
    create_superuser.py and reset_superuser.py *)

Module Admin.
Import Py.

(** Modelled from the spec: the user model ([users/models.py] is not among
    the sources) with the two flags of Django's permission mixin that the
    scripts read and set. *)
Record Account := mkAccount {
  account : User;
  is_staff : bool;
  is_superuser : bool
}.

(** A line written to standard output, plain or through [style.SUCCESS]. *)
Inductive Line :=
| Plain (text : string)
| Success (text : string).

(** The database table and what has been printed so far. *)
Record Db := mkDb {
  accounts : list Account;
  stdout : list Line
}.

Definition write (l : Line) (db : Db) : Db :=
  mkDb (accounts db) (stdout db ++ [l]).

Definition set_accounts (t : list Account) (db : Db) : Db :=
  mkDb t (stdout db).

(** How a script ended: normally, or with an exception. *)
Definition Ending : Type := option Exception * Db.

(** [x or d] on an optional string: [None] and the empty string are false. *)
Definition or_else (x : option string) (d : string) : string :=
  match x with
  | Some s => if truthy s then s else d
  | None => d
  end.

(** [user.set_password(raw); user.is_staff = True; user.is_superuser = True;
    user.save()]: the rows with the loaded row's primary key are written. *)
Definition promote (a : Account) (raw : string) (t : list Account)
  : list Account :=
  (fun r => if bool_decide (id (account r) = id (account a))
            then mkAccount (mkUser (id (account a)) (email (account a)) raw
                                   (full_name (account a))) true true
            else r) <$> t.

(** [user.delete()] for each row of [doomed]: rows go by primary key. *)
Definition delete_all (doomed t : list Account) : list Account :=
  filter (fun r => id (account r) ∉ (id ∘ account) <$> doomed) t.

Section WithManager.

(** [User.objects.create_superuser(email=..., password=...)]: the manager of
    the user model, not among the sources.  It yields the new table or
    raises. *)
Variable create_superuser : string -> string -> list Account
                            -> Exception + list Account.

(** Command.handle (create_admin.py, lines 13-32); [options] holds the
    command-line options that were given. *)
Definition handle (options : gmap string string) (db : Db) : Ending :=
  let email_ := or_else (options !! "email") "davididuate11@gmail.com" in
  let password_ := or_else (options !! "password") "admin123" in
  match filter (fun r => email (account r) = email_) (accounts db) with
  | [] =>
      match create_superuser email_ password_ (accounts db) with
      | inr t =>
          (None, write (Success ("Created superuser " +:+ email_))
                   (set_accounts t db))
      | inl exc => (Some exc, db)
      end
  | matching =>
      let db1 := write (Plain ("User with email " +:+ email_ +:+
                               " already exists")) db in
      match matching with
      | [a] =>
          (None, write (Success ("Updated superuser " +:+ email_))
                   (set_accounts (promote a password_ (accounts db1)) db1))
      | _ => (Some MultipleObjectsReturned, db1)
      end
  end.

(** create_superuser.py, the main block (lines 11-29); [environ] is
    [os.environ]. *)
Definition create_superuser_main (environ : gmap string string) (db : Db)
  : Ending :=
  match filter (fun r => is_superuser r = true) (accounts db) with
  | _ :: _ => (None, write (Plain "Superuser already exists!") db)
  | [] =>
      let email_ := default "admin@example.com" (environ !! "SUPERUSER_EMAIL") in
      let password_ := default "admin123" (environ !! "SUPERUSER_PASSWORD") in
      match create_superuser email_ password_ (accounts db) with
      | inr t =>
          (None, write (Plain ("Superuser '" +:+ email_ +:+
                               "' created successfully!"))
                   (set_accounts t db))
      | inl exc => (Some exc, db)
      end
  end.

(** reset_superuser.py, the main block (lines 9-33). *)
Definition reset_superuser_main (environ : gmap string string) (db : Db)
  : Ending :=
  let existing_superusers :=
    filter (fun r => is_superuser r = true) (accounts db) in
  let db1 :=
    match existing_superusers with
    | [] => db
    | _ :: _ =>
        write (Plain "All existing superusers deleted!")
          (set_accounts
             (delete_all existing_superusers (accounts db))
             (mkDb (accounts db)
                   (stdout db ++
                    ((fun r => Plain ("Deleting existing superuser: " +:+
                                      email (account r)))
                       <$> existing_superusers))))
    end in
  let email_ := default "admin@example.com" (environ !! "SUPERUSER_EMAIL") in
  let password_ := default "admin123" (environ !! "SUPERUSER_PASSWORD") in
  match create_superuser email_ password_ (accounts db1) with
  | inr t =>
      (None,
       write (Plain ("You can now login with: " +:+ email_))
         (write (Plain ("New superuser created: " +:+ email_))
            (set_accounts t db1)))
  | inl exc => (Some exc, db1)
  end.

End WithManager.

(** Modelled from the spec: a manager that adds a superuser row with the
    next free id, used to run examples. *)
Definition sample_create_superuser (email_ password_ : string)
           (t : list Account) : Exception + list Account :=
  inr (t ++ [mkAccount (mkUser (1 + foldr Z.max 0 ((id ∘ account) <$> t))
                               email_ password_ "")
                       true true]).

Definition sample_db : Db :=
  mkDb [mkAccount (mkUser 1 "root@example.com" "rootpass" "Root") true true;
        mkAccount (mkUser 2 "alice@example.com" "oldpass123" "Alice") false false;
        mkAccount (mkUser 3 "ops@example.com" "opspass" "Ops") true true]
       [].

End Admin.

(** ** export_readme_to_word.py: the code-block scanner *)

Module Exporter.

(** A paragraph of the document: its text, its style and the fill colour of
    its shading, if it has one. *)
Record Paragraph := mkParagraph {
  text : string;
  style : string;
  shading : option string
}.

(** The line feed, and the fence that opens and closes a code block. *)
Definition newline : string := String (Ascii.ascii_of_nat 10) EmptyString.
Definition fence : string := "```".

(** [sep.join(parts)] *)
Definition join (sep : string) (parts : list string) : string :=
  String.concat sep parts.

(** The [while] loop of [process_code_block] over [lines[i:]]: collect lines
    up to the next one that starts with the fence, or to the end. *)
Fixpoint collect_code (rest : list string) (i : nat) (code_lines : list string)
  : nat * list string :=
  match rest with
  | [] => (i, code_lines)
  | l :: rest' =>
      if String.prefix fence l then (i, code_lines)
      else collect_code rest' (S i) (code_lines ++ [l])
  end.

(** process_code_block (lines 186-202).  [shading_ok] tells whether
    [add_shading_to_paragraph] got through (it swallows its own failure).
    The result is the index returned and the document with what was
    added. *)
Definition process_code_block (shading_ok : bool) (lines : list string)
           (start_index : nat) (doc : list Paragraph)
  : nat * list Paragraph :=
  let '(i, code_lines) :=
    collect_code (drop (start_index + 1) lines) (start_index + 1) [] in
  (i,
   match code_lines with
   | [] => doc
   | _ :: _ =>
       doc ++ [mkParagraph (join newline code_lines) "CodeBlock"
                           (if shading_ok then Some "F5F5F5" else None)]
   end).

(** [lines[a:b]] *)
Definition slice (a b : nat) (lines : list string) : list string :=
  take (b - a) (drop a lines).

End Exporter.

(** * Properties *)

Import Py PyM RedisUtils Lifecycle Outcome Serializers Views Interleaving.

(** ** Python values *)

Lemma pretty_N_go_length (x : N) (s : string) :
  (String.length s <= String.length (pretty_N_go x s))%nat.
Proof.
  revert s. induction (N.lt_wf_0 x) as [x _ IH]; intros s.
  destruct (decide (0 < x)%N) as [Hpos|Hz].
  - rewrite pretty_N_go_step by done.
    etrans; [|apply IH; by apply N.div_lt]. simpl. lia.
  - assert (x = 0%N) as -> by lia. by rewrite pretty_N_go_0.
Qed.

Lemma pretty_positive_truthy (p : positive) : truthy (pretty p) = true.
Proof.
  unfold pretty, pretty_positive, pretty, pretty_N.
  destruct (decide (N.pos p = 0%N)) as [?|_]; [done|].
  rewrite pretty_N_go_step by lia.
  pose proof (pretty_N_go_length (N.pos p `div` 10)
                (String (pretty_N_char (N.pos p `mod` 10)) "")) as Hlen.
  destruct (pretty_N_go _ _); [simpl in Hlen; lia | done].
Qed.

(** The numeral of an integer is never the empty string, so a stored subject
    id always passes the [if user_id:] tests. *)
Lemma str_truthy (n : Z) : truthy (str n) = true.
Proof.
  destruct n as [|p|p]; unfold str, pretty, pretty_Z; [done| |done].
  apply pretty_positive_truthy.
Qed.

Lemma key_of_inj (t1 t2 : string) : key_of t1 = key_of t2 -> t1 = t2.
Proof. unfold key_of. intros H. cbn in H. by simplify_eq. Qed.

Lemma key_of_ne (t1 t2 : string) : t1 <> t2 -> key_of t1 <> key_of t2.
Proof. intros Hne Heq. by apply Hne, key_of_inj. Qed.

(** ** What one call into the adapter does to the world *)

Ltac py_unfold :=
  unfold generate_password_reset_token, validate_password_reset_token,
    redis_setex, redis_get, redis_delete, cache_set, cache_get, cache_delete,
    logger, and_then, try_except, bind, ret, raise, modify, get_world,
    any_Exception, decode_utf8.

Ltac py_step :=
  cbn;
  try match goal with
      | H : tier_get _ _ _ = _ |- _ => rewrite H
      end;
  try match goal with
      | H : truthy ?s = _ |- context [truthy ?s] => rewrite H
      end;
  try match goal with
      | |- context [truthy ?s] => destruct (truthy s) eqn:?
      end.

(** All runs of a redeem: what each tier holds, whether Redis is enabled, and
    which of the four store calls raise. *)
Ltac redeem_cases f w tok :=
  let Hr := fresh "Hr" in
  let Hc := fresh "Hc" in
  unfold redeem, exec, new_ops, redeem_ops, lookup_ops, primary_hit,
    secondary_hit, tier_up;
  destruct (tier_get (now w) (key_of tok) (redis_db w)) as [?|] eqn:Hr;
  destruct (tier_get (now w) (key_of tok) (django_cache w)) as [?|] eqn:Hc;
  py_unfold;
  destruct (redis_enabled w), f as [? [] [] ? [] []];
  repeat py_step.

(** All runs of an issue. *)
Ltac issue_cases f w :=
  unfold issue, exec, new_ops, issue_ops, written_to;
  py_unfold;
  destruct (redis_enabled w), f as [[] ? ? [] ? ?];
  cbn.

Lemma generate_result f tok uid w : issue f tok uid w = Return tok.
Proof. issue_cases f w; reflexivity. Qed.

Lemma generate_redis_db f tok uid w :
  redis_db (exec (Issue f tok uid) w) =
  match written_to f w with
  | Some Primary => tier_set (now w) (key_of tok) (str uid) 600 (redis_db w)
  | _ => redis_db w
  end.
Proof. issue_cases f w; reflexivity. Qed.

Lemma generate_django_cache f tok uid w :
  django_cache (exec (Issue f tok uid) w) =
  match written_to f w with
  | Some Secondary => tier_set (now w) (key_of tok) (str uid) 600 (django_cache w)
  | _ => django_cache w
  end.
Proof. issue_cases f w; reflexivity. Qed.

Lemma generate_trace f tok uid w :
  trace (exec (Issue f tok uid) w) =
  trace w ++ (pair (now w) <$> issue_ops f tok uid w).
Proof. issue_cases f w; rewrite <- ?app_assoc; reflexivity. Qed.

Lemma validate_result f tok w :
  redeem f tok w =
  Return (match primary_hit f tok w with
          | Some v => Some v
          | None => secondary_hit f tok w
          end).
Proof. redeem_cases f w tok; congruence. Qed.

Lemma validate_redis_db f tok w :
  redis_db (exec (Redeem f tok) w) =
  match primary_hit f tok w with
  | Some _ => delete (key_of tok) (redis_db w)
  | None => redis_db w
  end.
Proof. redeem_cases f w tok; congruence. Qed.

Lemma validate_django_cache f tok w :
  django_cache (exec (Redeem f tok) w) =
  match primary_hit f tok w, secondary_hit f tok w with
  | None, Some _ => delete (key_of tok) (django_cache w)
  | _, _ => django_cache w
  end.
Proof. redeem_cases f w tok; congruence. Qed.

Lemma validate_trace f tok w :
  trace (exec (Redeem f tok) w) =
  trace w ++ (pair (now w) <$> redeem_ops f tok w).
Proof. redeem_cases f w tok; rewrite <- ?app_assoc; reflexivity. Qed.

(** No call touches the module globals, the user table or the clock, except
    that [Elapse] moves the clock forward. *)
Lemma exec_frame c w :
  redis_client (exec c w) = redis_client w /\
  redis_available (exec c w) = redis_available w /\
  users (exec c w) = users w /\
  now (exec c w) = now w + match c with Elapse s => Z.of_N s | _ => 0 end.
Proof.
  destruct c as [f tok uid|f tok|s].
  - issue_cases f w; rewrite Z.add_0_r; done.
  - redeem_cases f w tok; rewrite Z.add_0_r; done.
  - done.
Qed.

Lemma exec_trace c w :
  trace (exec c w) = trace w ++ (pair (now w) <$> call_ops c w).
Proof.
  destruct c as [f tok uid|f tok|s]; simpl call_ops.
  - apply generate_trace.
  - apply validate_trace.
  - simpl. by rewrite app_nil_r.
Qed.

Lemma new_ops_exec c w : new_ops w (exec c w) = call_ops c w.
Proof.
  unfold new_ops. rewrite exec_trace, drop_app_length.
  rewrite <- list_fmap_compose. simpl. apply list_fmap_id.
Qed.

Lemma redis_enabled_exec c w : redis_enabled (exec c w) = redis_enabled w.
Proof.
  unfold redis_enabled.
  destruct (exec_frame c w) as (-> & -> & _). done.
Qed.

Lemma run_app cs1 cs2 w : run (cs1 ++ cs2) w = run cs2 (run cs1 w).
Proof. revert w. induction cs1 as [|c cs1 IH]; intros w; simpl; auto. Qed.

Lemma run_globals cs w :
  redis_client (run cs w) = redis_client w /\
  redis_available (run cs w) = redis_available w.
Proof.
  revert w. induction cs as [|c cs IH]; intros w; simpl; [done|].
  destruct (IH (exec c w)) as [-> ->].
  destruct (exec_frame c w) as (-> & -> & _). done.
Qed.

Lemma redis_enabled_run cs w : redis_enabled (run cs w) = redis_enabled w.
Proof. unfold redis_enabled. by destruct (run_globals cs w) as [-> ->]. Qed.

Lemma run_users cs w : users (run cs w) = users w.
Proof.
  revert w. induction cs as [|c cs IH]; intros w; simpl; [done|].
  rewrite IH. by destruct (exec_frame c w) as (_ & _ & -> & _).
Qed.

(** With Redis disabled in the module, a call only ever reaches the cache. *)
Lemma call_ops_disabled c w :
  redis_enabled w = false ->
  Forall (fun op => is_cache_op op = true) (call_ops c w).
Proof.
  intros Hoff. destruct c as [f tok uid|f tok|s]; simpl.
  - unfold issue_ops. rewrite Hoff. simpl. repeat constructor.
  - unfold redeem_ops, primary_hit, lookup_ops. rewrite Hoff. simpl.
    destruct (negb (cache_get_raises f) && _); repeat constructor.
  - constructor.
Qed.

Lemma run_trace_disabled cs w :
  redis_enabled w = false ->
  Forall (fun e => is_cache_op (snd e) = true) (trace w) ->
  Forall (fun e => is_cache_op (snd e) = true) (trace (run cs w)).
Proof.
  revert w. induction cs as [|c cs IH]; intros w Hoff Hw; simpl; [done|].
  apply IH.
  - by rewrite redis_enabled_exec.
  - rewrite exec_trace. apply Forall_app. split; [done|].
    apply Forall_fmap. eapply Forall_impl; [by apply call_ops_disabled|].
    by intros op Hop.
Qed.

(** ** The tier order of redeem *)

Lemma primary_hit_Some f tok w u :
  primary_hit f tok w = Some u <->
  redis_enabled w = true /\ redis_get_raises f = false /\
  redis_delete_raises f = false /\
  tier_get (now w) (key_of tok) (redis_db w) = Some u /\ truthy u = true.
Proof.
  unfold primary_hit, tier_up. split.
  - destruct (redis_enabled w), (redis_get_raises f), (redis_delete_raises f);
      simpl; try discriminate.
    destruct (tier_get _ _ _) as [b|]; [|discriminate].
    destruct (truthy b) eqn:Hb; [|discriminate]. by intros [= ->].
  - intros (-> & -> & -> & -> & ->). done.
Qed.

Lemma secondary_hit_Some f tok w u :
  secondary_hit f tok w = Some u <->
  cache_get_raises f = false /\ cache_delete_raises f = false /\
  tier_get (now w) (key_of tok) (django_cache w) = Some u /\ truthy u = true.
Proof.
  unfold secondary_hit, tier_up. split.
  - destruct (cache_get_raises f), (cache_delete_raises f);
      simpl; try discriminate.
    destruct (tier_get _ _ _) as [b|]; [|discriminate].
    destruct (truthy b) eqn:Hb; [|discriminate]. by intros [= ->].
  - intros (-> & -> & -> & ->). done.
Qed.

(** C3.  Redeem reads the primary tier first.  A token the primary tier
    serves (Redis enabled, its read and delete not raising, a live non-empty
    value under the token's key) is deleted there and returned, and the
    secondary tier is not called at all.  In every other case — a miss, or the
    primary tier unavailable — the secondary tier is read; a token it serves
    is deleted there and returned; if neither tier serves the token the result
    is [None]. *)
Theorem redeem_primary_then_secondary (f : Faults) (token : string) (w : World) :
  let w' := exec (Redeem f token) w in
  let key := key_of token in
  (redis_enabled w = true -> head (new_ops w w') = Some (RedisGet key)) /\
  (forall u, primary_hit f token w = Some u ->
     redeem f token w = Return (Some u) /\
     redis_db w' = delete key (redis_db w) /\
     django_cache w' = django_cache w /\
     new_ops w w' = [RedisGet key; RedisDelete key]) /\
  (primary_hit f token w = None ->
     In (CacheGet key) (new_ops w w') /\
     redis_db w' = redis_db w /\
     (forall u, secondary_hit f token w = Some u ->
        redeem f token w = Return (Some u) /\
        django_cache w' = delete key (django_cache w) /\
        last (new_ops w w') = Some (CacheDelete key)) /\
     (secondary_hit f token w = None ->
        redeem f token w = Return None /\
        django_cache w' = django_cache w)).
Proof.
  intros w' key. subst w' key.
  rewrite new_ops_exec, validate_result, validate_redis_db,
    validate_django_cache. simpl call_ops.
  split; [|split].
  - intros Hon. unfold redeem_ops, lookup_ops. by rewrite Hon.
  - intros u Hu. rewrite Hu. repeat split; try done.
    unfold redeem_ops. rewrite Hu.
    apply primary_hit_Some in Hu as (-> & -> & _ & -> & Ht).
    unfold lookup_ops. simpl. by rewrite Ht.
  - intros Hmiss. rewrite Hmiss. split; [|split; [done|split]].
    + unfold redeem_ops. rewrite Hmiss. apply in_or_app. right. by left.
    + intros u Hu. rewrite Hu. repeat split; try done.
      unfold redeem_ops. rewrite Hmiss.
      apply secondary_hit_Some in Hu as (-> & _ & -> & Ht).
      unfold lookup_ops at 2. simpl. rewrite Ht.
      by rewrite last_app.
    + intros Hnone. by rewrite Hnone.
Qed.

Lemma redeem_primary_then_secondary_witness :
  redeem no_faults "tok" Demo.w_issued = Return (Some "7") /\
  redeem Demo.f_redis_down "tok" Demo.w_issued_fallback = Return (Some "7").
Proof.
  split.
  - destruct (redeem_primary_then_secondary no_faults "tok" Demo.w_issued)
      as (_ & Hhit & _).
    apply (Hhit "7"). vm_compute. reflexivity.
  - destruct (redeem_primary_then_secondary Demo.f_redis_down "tok"
                Demo.w_issued_fallback) as (_ & _ & Hmiss).
    destruct Hmiss as (_ & _ & Hsec & _); [vm_compute; reflexivity|].
    apply (Hsec "7"). vm_compute. reflexivity.
Defined.

(** ** Issue *)

(** C4.  Issue hands the generated token back whatever the stores do: no
    fault makes it raise or return anything else.  When the primary write
    raises, the secondary write is attempted next with the same key, the same
    value and the same 600 seconds, and a secondary write that goes through
    leaves the entry there with that expiry. *)
Theorem issue_always_returns_token (f : Faults) (token : string) (user_id : Z)
        (w : World) :
  let w' := exec (Issue f token user_id) w in
  let key := key_of token in
  issue f token user_id w = Return token /\
  (redis_enabled w = true -> setex_raises f = true ->
     new_ops w w' = [RedisSetex key 600 (str user_id);
                     CacheSet key (str user_id) 600] /\
     redis_db w' = redis_db w /\
     (cache_set_raises f = false ->
        django_cache w' !! key = Some (mkEntry (str user_id) (now w + 600))) /\
     (cache_set_raises f = true -> django_cache w' = django_cache w)).
Proof.
  intros w' key. subst w' key. split; [apply generate_result|].
  intros Hon Hdown.
  rewrite new_ops_exec, generate_redis_db, generate_django_cache.
  unfold written_to. simpl call_ops. unfold issue_ops.
  rewrite Hon, Hdown. simpl. split; [done|]. split; [|split].
  - by destruct (negb (cache_set_raises f)).
  - intros ->. simpl. unfold tier_set. by rewrite lookup_insert_eq.
  - by intros ->.
Qed.

Lemma issue_always_returns_token_witness :
  issue Demo.f_writes_down "tok" 7 Demo.w_boot = Return "tok" /\
  new_ops Demo.w_boot (exec (Issue Demo.f_writes_down "tok" 7) Demo.w_boot) =
    [RedisSetex "password_reset:tok" 600 "7";
     CacheSet "password_reset:tok" "7" 600].
Proof.
  destruct (issue_always_returns_token Demo.f_writes_down "tok" 7 Demo.w_boot)
    as (Hret & Hfall).
  split; [exact Hret|].
  destruct Hfall as (Hops & _); [reflexivity|reflexivity|exact Hops].
Defined.

(** ** Store failures *)

(** C5.  No exception raised by a store call leaves the adapter: issue and
    redeem return normally under every combination of faults.  In redeem an
    unavailable primary tier counts as a miss there (the result is what the
    secondary tier serves), and an unavailable secondary tier counts as a miss
    too (the result is [None] unless the primary tier served the token).  In
    issue a tier whose write raises is skipped: it keeps its contents, and
    after a failed primary write the secondary write is still attempted. *)
Theorem store_errors_stay_inside_adapter (f : Faults) (token : string)
        (user_id : Z) (w : World) :
  let wi := exec (Issue f token user_id) w in
  issue f token user_id w = Return token /\
  (exists r, redeem f token w = Return r) /\
  (tier_up f Primary = false ->
     redeem f token w =
     Return (if tier_up f Secondary
             then match tier_get (now w) (key_of token) (django_cache w) with
                  | Some u => if truthy u then Some u else None
                  | None => None
                  end
             else None)) /\
  (tier_up f Secondary = false -> primary_hit f token w = None ->
     redeem f token w = Return None) /\
  (setex_raises f = true ->
     redis_db wi = redis_db w /\
     In (CacheSet (key_of token) (str user_id) 600) (new_ops w wi)) /\
  (cache_set_raises f = true -> django_cache wi = django_cache w).
Proof.
  intros wi. subst wi.
  rewrite new_ops_exec, generate_redis_db, generate_django_cache,
    validate_result. simpl call_ops.
  split; [apply generate_result|].
  split; [eauto|].
  split; [|split; [|split]].
  - intros Hdown. unfold primary_hit. rewrite Hdown, andb_false_r. done.
  - intros Hdown ->. unfold secondary_hit. by rewrite Hdown.
  - intros Hdown. unfold written_to, issue_ops. rewrite Hdown, andb_false_r.
    split.
    + by destruct (negb (cache_set_raises f)).
    + apply in_or_app. right. by left.
  - intros Hdown. unfold written_to. rewrite Hdown. simpl.
    by destruct (redis_enabled w && negb (setex_raises f)).
Qed.

Lemma store_errors_stay_inside_adapter_witness :
  redeem Demo.f_redis_down "tok" Demo.w_issued = Return None /\
  redeem Demo.f_cache_down "tok" Demo.w_issued_fallback = Return None /\
  redis_db (exec (Issue Demo.f_redis_down "tok" 7) Demo.w_boot) =
    redis_db Demo.w_boot /\
  django_cache (exec (Issue Demo.f_writes_down "tok" 7) Demo.w_boot) =
    django_cache Demo.w_boot.
Proof.
  split; [|split; [|split]].
  - destruct (store_errors_stay_inside_adapter Demo.f_redis_down "tok" 7
                Demo.w_issued) as (_ & _ & H & _).
    exact (H eq_refl).
  - destruct (store_errors_stay_inside_adapter Demo.f_cache_down "tok" 7
                Demo.w_issued_fallback) as (_ & _ & _ & H & _).
    apply H; reflexivity.
  - destruct (store_errors_stay_inside_adapter Demo.f_redis_down "tok" 7
                Demo.w_boot) as (_ & _ & _ & _ & H & _).
    apply H. reflexivity.
  - destruct (store_errors_stay_inside_adapter Demo.f_writes_down "tok" 7
                Demo.w_boot) as (_ & _ & _ & _ & _ & H).
    apply H. reflexivity.
Defined.

(** ** The availability flag *)


(** ** Expiry *)

Lemma validate_run f tok w :
  validate_password_reset_token f tok w =
  (Return (match primary_hit f tok w with
           | Some v => Some v
           | None => secondary_hit f tok w
           end),
   exec (Redeem f tok) w).
Proof.
  rewrite <- validate_result. unfold redeem, exec.
  by destruct (validate_password_reset_token f tok w).
Qed.

Lemma generate_run f tok uid w :
  generate_password_reset_token f tok uid w =
  (Return tok, exec (Issue f tok uid) w).
Proof.
  rewrite <- (generate_result f tok uid w). unfold issue, exec.
  by destruct (generate_password_reset_token f tok uid w).
Qed.

Lemma reachable_run cs w : reachable w -> reachable (run cs w).
Proof.
  revert w. induction cs as [|c cs IH]; intros w Hw; simpl; [done|].
  apply IH. by constructor.
Qed.

Lemma now_exec_le c w : now w <= now (exec c w).
Proof.
  destruct (exec_frame c w) as (_ & _ & _ & ->). destruct c; lia.
Qed.

Lemma now_run_le cs w : now w <= now (run cs w).
Proof.
  revert w. induction cs as [|c cs IH]; intros w; simpl; [lia|].
  etrans; [apply (now_exec_le c)|apply IH].
Qed.

Lemma lookup_ops_elem raises found get_op delete_op op :
  op ∈ lookup_ops raises found get_op delete_op ->
  op = get_op \/ op = delete_op.
Proof.
  unfold lookup_ops. rewrite elem_of_cons. intros [->|Hop]; [by left|].
  destruct (negb raises && truthy_opt found).
  - apply list_elem_of_singleton in Hop. by right.
  - by apply elem_of_nil in Hop.
Qed.

Lemma issue_ops_elem f tok uid w op :
  op ∈ issue_ops f tok uid w ->
  op = RedisSetex (key_of tok) 600 (str uid) \/
  op = CacheSet (key_of tok) (str uid) 600.
Proof.
  unfold issue_ops. rewrite elem_of_app. intros [Hop|Hop].
  - destruct (redis_enabled w).
    + apply list_elem_of_singleton in Hop. by left.
    + by apply elem_of_nil in Hop.
  - destruct (redis_enabled w && negb (setex_raises f)).
    + by apply elem_of_nil in Hop.
    + apply list_elem_of_singleton in Hop. by right.
Qed.

Lemma redeem_ops_elem f tok w op :
  op ∈ redeem_ops f tok w ->
  op = RedisGet (key_of tok) \/ op = RedisDelete (key_of tok) \/
  op = CacheGet (key_of tok) \/ op = CacheDelete (key_of tok).
Proof.
  unfold redeem_ops. rewrite elem_of_app. intros [Hop|Hop].
  - destruct (redis_enabled w); [|by apply elem_of_nil in Hop].
    apply lookup_ops_elem in Hop as [->| ->]; auto.
  - destruct (primary_hit f tok w); [by apply elem_of_nil in Hop|].
    apply lookup_ops_elem in Hop as [->| ->]; auto.
Qed.

(** The write calls of a call, for the key of [tok]: all of an issue of
    [tok], none of any other call. *)
Lemma call_ops_writes tok c w op :
  op ∈ call_ops c w -> writes (key_of tok) op = issues tok c.
Proof.
  destruct c as [f tok' uid|f tok'|s]; simpl; intros Hop.
  - apply issue_ops_elem in Hop as [-> | ->]; simpl;
      apply bool_decide_ext; split; (apply key_of_inj || by intros ->).
  - by apply redeem_ops_elem in Hop as [-> | [-> | [-> | ->]]].
  - by apply elem_of_nil in Hop.
Qed.

Lemma filter_stamped key t (ops : list StoreOp) (b : bool) :
  (forall op, op ∈ ops -> writes key op = b) ->
  fst <$> filter (fun e : Z * StoreOp => writes key (snd e) = true)
                 (pair t <$> ops)
  = if b then replicate (length ops) t else [].
Proof.
  induction ops as [|op ops IH]; intros Hall.
  - by destruct b.
  - assert (writes key op = b) as Hop by (apply Hall; by left).
    assert (forall op', op' ∈ ops -> writes key op' = b) as Hrest
      by (intros op' Hin; apply Hall; by right).
    specialize (IH Hrest). cbn [fmap list_fmap].
    destruct b.
    + rewrite filter_cons_True by done. simpl. f_equal. exact IH.
    + rewrite filter_cons_False by (simpl; congruence). exact IH.
Qed.

Lemma issue_times_exec tok c w :
  issue_times tok (exec c w) =
  issue_times tok w ++
  (if issues tok c then replicate (length (call_ops c w)) (now w) else []).
Proof.
  unfold issue_times. rewrite exec_trace, filter_app, fmap_app. f_equal.
  apply filter_stamped. apply call_ops_writes.
Qed.

Lemma issue_times_exec_other tok c w :
  issues tok c = false -> issue_times tok (exec c w) = issue_times tok w.
Proof. intros H. by rewrite issue_times_exec, H, app_nil_r. Qed.

Lemma issue_times_run_other tok cs w :
  Forall (fun c => issues tok c = false) cs ->
  issue_times tok (run cs w) = issue_times tok w.
Proof.
  revert w. induction cs as [|c cs IH]; intros w Hcs; simpl; [done|].
  inversion_clear Hcs. rewrite IH by done. by apply issue_times_exec_other.
Qed.

Lemma issue_times_exec_elem tok c w t :
  t ∈ issue_times tok (exec c w) -> t ∈ issue_times tok w \/ t = now w.
Proof.
  rewrite issue_times_exec, elem_of_app. intros [?|Hin]; [by left|right].
  destruct (issues tok c); [|by apply elem_of_nil in Hin].
  by apply elem_of_replicate in Hin as [? _].
Qed.

Lemma issue_times_exec_mono tok c w t :
  t ∈ issue_times tok w -> t ∈ issue_times tok (exec c w).
Proof. rewrite issue_times_exec, elem_of_app. by left. Qed.

Lemma issue_ops_length f tok uid w : (0 < length (issue_ops f tok uid w))%nat.
Proof.
  unfold issue_ops.
  destruct (redis_enabled w), (negb (setex_raises f)); simpl; lia.
Qed.

Lemma issue_times_issue f tok uid w :
  now w ∈ issue_times tok (exec (Issue f tok uid) w).
Proof.
  rewrite issue_times_exec, elem_of_app. right. simpl.
  rewrite bool_decide_eq_true_2 by done.
  pose proof (issue_ops_length f tok uid w).
  destruct (length _); [lia|]. simpl. by left.
Qed.

(** Issues lie in the past. *)
Lemma issue_times_past w :
  reachable w -> forall tok t, t ∈ issue_times tok w -> t <= now w.
Proof.
  induction 1 as [url ce us t0|c w Hw IH]; intros tok t Ht.
  - exfalso. unfold boot, import_module in Ht. destruct ce; simpl in Ht;
      by apply elem_of_nil in Ht.
  - pose proof (now_exec_le c w).
    apply issue_times_exec_elem in Ht as [Ht| ->]; [|done].
    specialize (IH tok t Ht). lia.
Qed.

Lemma expiry_inv_boot url ce us t0 : expiry_inv (boot url ce us t0).
Proof.
  intros tok e. unfold boot, import_module.
  destruct ce; simpl; rewrite !lookup_empty; intros [?|?]; discriminate.
Qed.

Lemma expiry_inv_exec c w : expiry_inv w -> expiry_inv (exec c w).
Proof.
  intros Hinv tok e He.
  assert (redis_db w !! key_of tok = Some e \/
          django_cache w !! key_of tok = Some e \/
          (issues tok c = true /\ expires_at e = now w + 600)) as Hcase.
  { destruct c as [f tok' uid|f tok'|s]; simpl issues.
    - rewrite generate_redis_db, generate_django_cache in He.
      destruct (decide (tok' = tok)) as [->|Hne].
      + rewrite bool_decide_eq_true_2 by done.
        destruct (written_to f w) as [[]|]; unfold tier_set in He;
          rewrite ?lookup_insert_eq in He; destruct He as [He|He];
          first [by auto | injection He as <-; right; right; by split].
      + assert (key_of tok' <> key_of tok) by by apply key_of_ne.
        destruct (written_to f w) as [[]|]; unfold tier_set in He;
          rewrite ?lookup_insert_ne in He by done; destruct He; auto.
    - rewrite validate_redis_db, validate_django_cache in He.
      destruct (primary_hit f tok' w), (secondary_hit f tok' w);
        destruct He as [He|He];
        try apply lookup_delete_Some in He as [_ He]; auto.
    - simpl in He. tauto. }
  destruct Hcase as [Hr|[Hc|[Hiss Hexp]]].
  - destruct (Hinv tok e (or_introl Hr)) as (t & Ht & Hexp).
    exists t. split; [by apply issue_times_exec_mono|done].
  - destruct (Hinv tok e (or_intror Hc)) as (t & Ht & Hexp).
    exists t. split; [by apply issue_times_exec_mono|done].
  - exists (now w). split; [|done].
    destruct c as [f tok' uid|f tok'|s]; simpl in Hiss; try done.
    apply bool_decide_eq_true in Hiss as ->. apply issue_times_issue.
Qed.

Lemma reachable_expiry_inv w : reachable w -> expiry_inv w.
Proof.
  induction 1; [apply expiry_inv_boot|by apply expiry_inv_exec].
Qed.

Lemma tier_get_absent t key (m : gmap string Entry) :
  m !! key = None -> tier_get t key m = None.
Proof. unfold tier_get. by intros ->. Qed.

Lemma redeem_no_entry f tok w :
  tier_get (now w) (key_of tok) (redis_db w) = None ->
  tier_get (now w) (key_of tok) (django_cache w) = None ->
  redeem f tok w = Return None.
Proof.
  intros Hr Hc. rewrite validate_result. unfold primary_hit, secondary_hit.
  rewrite Hr, Hc. by destruct (_ && _), (tier_up f Secondary).
Qed.

(** A token all of whose issues are more than 600 seconds old redeems to
    [None], whatever the faults. *)
Lemma redeem_expired f tok w :
  expiry_inv w ->
  Forall (fun t => t + 600 < now w) (issue_times tok w) ->
  redeem f tok w = Return None.
Proof.
  intros Hinv Hold.
  assert (forall m : gmap string Entry,
            (forall e, m !! key_of tok = Some e ->
               exists t, t ∈ issue_times tok w /\ expires_at e = t + 600) ->
            tier_get (now w) (key_of tok) m = None) as Hdead.
  { intros m Hm. unfold tier_get.
    destruct (m !! key_of tok) as [e|] eqn:He; [|done].
    destruct (Hm e eq_refl) as (t & Ht & Hexp).
    rewrite Forall_forall in Hold. specialize (Hold t Ht).
    unfold live. rewrite bool_decide_eq_false_2; [done|lia]. }
  apply redeem_no_entry; apply Hdead; intros e He; apply (Hinv tok e); auto.
Qed.

(** C6.  An issue only ever writes with 600 seconds: its store calls are the
    Redis [setex] with 600 and the cache [set] with timeout 600, and the entry
    it leaves in a tier expires 600 seconds after the call.  In a running
    process a token that no call has issued redeems to [None], and so does a
    token whose issue lies more than 600 seconds back and that has not been
    issued again — whatever the stores do during the redeem. *)
Theorem tokens_expire_after_600 :
  (forall f token user_id w,
     let w' := exec (Issue f token user_id) w in
     let entry := mkEntry (str user_id) (now w + 600) in
     Forall (fun op => op = RedisSetex (key_of token) 600 (str user_id) \/
                       op = CacheSet (key_of token) (str user_id) 600)
            (new_ops w w') /\
     (written_to f w = Some Primary ->
        redis_db w' !! key_of token = Some entry) /\
     (written_to f w = Some Secondary ->
        django_cache w' !! key_of token = Some entry)) /\
  (forall url ce us t0 cs f token,
     Forall (fun c => issues token c = false) cs ->
     redeem f token (run cs (boot url ce us t0)) = Return None) /\
  (forall w fi token user_id cs f,
     reachable w ->
     Forall (fun c => issues token c = false) cs ->
     let w' := run cs (exec (Issue fi token user_id) w) in
     now w + 600 < now w' ->
     redeem f token w' = Return None).
Proof.
  split; [|split].
  - intros f token user_id w w' entry. subst w' entry.
    rewrite new_ops_exec, generate_redis_db, generate_django_cache.
    split; [|split].
    + apply Forall_forall. intros op Hop. by apply issue_ops_elem in Hop.
    + intros ->. unfold tier_set. by rewrite lookup_insert_eq.
    + intros ->. unfold tier_set. by rewrite lookup_insert_eq.
  - intros url ce us t0 cs f token Hcs.
    apply redeem_expired.
    + apply reachable_expiry_inv, reachable_run. constructor.
    + rewrite issue_times_run_other by done.
      unfold issue_times, boot, import_module. destruct ce; constructor.
  - intros w fi token user_id cs f Hw Hcs w' Hlate. subst w'.
    apply redeem_expired.
    + apply reachable_expiry_inv, reachable_run. by constructor.
    + rewrite issue_times_run_other by done.
      apply Forall_forall. intros t Ht.
      apply issue_times_exec_elem in Ht as [Ht| ->]; [|done].
      pose proof (issue_times_past w Hw token t Ht). lia.
Qed.

Lemma tokens_expire_after_600_witness :
  redeem no_faults "never" (run [Issue no_faults "tok" 7] Demo.w_boot)
    = Return None /\
  redeem no_faults "tok" (run [Elapse 601] Demo.w_issued) = Return None.
Proof.
  destruct tokens_expire_after_600 as (_ & Hnever & Hold).
  split.
  - apply (Hnever "redis://localhost:6379/0" false [Demo.alice] 1000
             [Issue no_faults "tok" 7] no_faults "never").
    repeat constructor.
  - apply (Hold Demo.w_boot no_faults "tok" 7 [Elapse 601] no_faults).
    + constructor.
    + repeat constructor.
    + vm_compute. reflexivity.
Defined.

(** ** At-most-once redemption *)

(** A call that neither issues nor redeems a token leaves the token's
    entries alone. *)
Lemma lookup_exec_other tok c w :
  mentions tok c = false ->
  redis_db (exec c w) !! key_of tok = redis_db w !! key_of tok /\
  django_cache (exec c w) !! key_of tok = django_cache w !! key_of tok.
Proof.
  destruct c as [f tok' uid|f tok'|s]; cbn [mentions]; intros Hne; [| |done].
  - apply bool_decide_eq_false in Hne. apply key_of_ne in Hne.
    rewrite generate_redis_db, generate_django_cache.
    destruct (written_to f w) as [[]|]; unfold tier_set;
      rewrite ?lookup_insert_ne by done; done.
  - apply bool_decide_eq_false in Hne. apply key_of_ne in Hne.
    rewrite validate_redis_db, validate_django_cache.
    destruct (primary_hit f tok' w), (secondary_hit f tok' w);
      rewrite ?lookup_delete_ne by done; done.
Qed.

Lemma lookup_run_other tok cs w :
  Forall (fun c => mentions tok c = false) cs ->
  redis_db (run cs w) !! key_of tok = redis_db w !! key_of tok /\
  django_cache (run cs w) !! key_of tok = django_cache w !! key_of tok.
Proof.
  revert w. induction cs as [|c cs IH]; intros w Hcs; simpl; [done|].
  inversion_clear Hcs.
  destruct (IH (exec c w)) as [-> ->]; [done|].
  by apply lookup_exec_other.
Qed.

(** A token that is in neither tier stays out until it is issued. *)
Lemma absent_exec tok c w :
  issues tok c = false -> absent tok w -> absent tok (exec c w).
Proof.
  intros Hc [Hr Hd]. unfold absent.
  destruct c as [f tok' uid|f tok'|s]; cbn [issues mentions] in *; [| |done].
  - rewrite (proj1 (lookup_exec_other tok (Issue f tok' uid) w Hc)).
    by rewrite (proj2 (lookup_exec_other tok (Issue f tok' uid) w Hc)).
  - rewrite validate_redis_db, validate_django_cache.
    destruct (primary_hit f tok' w), (secondary_hit f tok' w);
      rewrite ?lookup_delete_None; auto.
Qed.

Lemma absent_run tok cs w :
  Forall (fun c => issues tok c = false) cs ->
  absent tok w -> absent tok (run cs w).
Proof.
  revert w. induction cs as [|c cs IH]; intros w Hcs Hw; simpl; [done|].
  inversion_clear Hcs. apply IH; [done|]. by apply absent_exec.
Qed.

Lemma redeem_absent f tok w : absent tok w -> redeem f tok w = Return None.
Proof.
  intros [Hr Hd]. apply redeem_no_entry; by apply tier_get_absent.
Qed.

(** A live entry with the numeral of a subject id is served. *)
Lemma tier_get_live t key v exp (m : gmap string Entry) :
  m !! key = Some (mkEntry v exp) -> t < exp -> tier_get t key m = Some v.
Proof.
  intros Hm Hlt. unfold tier_get, live. rewrite Hm. simpl.
  by rewrite bool_decide_eq_true_2.
Qed.

(** C1 (as amended).  A freshly generated token (one neither tier holds) that
    issue managed to write to a tier redeems exactly once: the first redeem
    of it, made less than 600 seconds after the issue and with the calls of
    the tier that holds it not raising, returns the numeral of the subject id
    and leaves the token in neither tier; and from then on every redeem of it
    returns [None], whatever the faults and whatever other calls come in
    between, as long as the same token is not issued again. *)
Theorem issued_token_redeems_once (fi fr : Faults) (token : string)
        (user_id : Z) (w : World) (tier : TierName) (between : list Call) :
  absent token w ->
  written_to fi w = Some tier ->
  Forall (fun c => mentions token c = false) between ->
  let w1 := run between (exec (Issue fi token user_id) w) in
  now w1 < now w + 600 ->
  tier_up fr tier = true ->
  let w2 := exec (Redeem fr token) w1 in
  issue fi token user_id w = Return token /\
  redeem fr token w1 = Return (Some (str user_id)) /\
  absent token w2 /\
  (forall later f,
     Forall (fun c => issues token c = false) later ->
     redeem f token (run later w2) = Return None).
Proof.
  intros [Hr Hd] Htier Hbetween. cbv zeta. intros Hfresh Hup.
  pose proof (redis_enabled_run between (exec (Issue fi token user_id) w))
    as Hen.
  rewrite redis_enabled_exec in Hen.
  destruct (lookup_run_other token between (exec (Issue fi token user_id) w)
              Hbetween) as [Hr1 Hd1].
  rewrite generate_redis_db in Hr1. rewrite generate_django_cache in Hd1.
  rewrite Htier in Hr1, Hd1.
  set (w1 := run between (exec (Issue fi token user_id) w)) in *.
  assert (redeem fr token w1 = Return (Some (str user_id)) /\
          absent token (exec (Redeem fr token) w1)) as [Hfirst Hgone].
  { unfold absent.
    rewrite validate_result, validate_redis_db, validate_django_cache.
    destruct tier.
    - unfold tier_set in Hr1. rewrite lookup_insert_eq in Hr1.
      assert (redis_enabled w = true) as Hon.
      { unfold written_to in Htier. destruct (redis_enabled w); [done|].
        simpl in Htier. by destruct (negb (cache_set_raises fi)). }
      assert (primary_hit fr token w1 = Some (str user_id)) as ->.
      { unfold primary_hit. rewrite Hen, Hon, Hup. simpl.
        rewrite (tier_get_live _ _ _ _ _ Hr1 Hfresh). by rewrite str_truthy. }
      rewrite lookup_delete_eq. split; [done|]. split; [done|].
      by rewrite Hd1.
    - unfold tier_set in Hd1. rewrite lookup_insert_eq in Hd1.
      assert (primary_hit fr token w1 = None) as ->.
      { unfold primary_hit. rewrite (tier_get_absent _ _ _ (eq_trans Hr1 Hr)).
        by destruct (_ && _). }
      assert (secondary_hit fr token w1 = Some (str user_id)) as ->.
      { unfold secondary_hit. rewrite Hup.
        rewrite (tier_get_live _ _ _ _ _ Hd1 Hfresh). by rewrite str_truthy. }
      rewrite lookup_delete_eq. split; [done|]. split; [|done].
      by rewrite Hr1. }
  split; [apply generate_result|]. split; [done|]. split; [done|].
  intros later f Hlater. apply redeem_absent. by apply absent_run.
Qed.

Lemma issued_token_redeems_once_witness :
  redeem no_faults "tok" (run [Elapse 599] Demo.w_issued) = Return (Some "7") /\
  redeem no_faults "tok"
    (run [Redeem no_faults "tok"; Elapse 1]
       (exec (Redeem no_faults "tok") (run [Elapse 599] Demo.w_issued)))
  = Return None.
Proof.
  assert (absent "tok" Demo.w_boot) as Habs by (split; reflexivity).
  destruct (issued_token_redeems_once no_faults no_faults "tok" 7 Demo.w_boot
              Primary [Elapse 599] Habs eq_refl
              ltac:(repeat constructor) ltac:(vm_compute; reflexivity) eq_refl)
    as (_ & Hfirst & _ & Hlater).
  split; [exact Hfirst|].
  apply (Hlater [Redeem no_faults "tok"; Elapse 1] no_faults).
  repeat constructor.
Defined.

(** C1 as stated fails: issue returns a token even when both writes raise,
    and the first redeem of that token returns [None], not the subject id. *)
Lemma unstored_token_does_not_redeem :
  issue Demo.f_writes_down "tok" 7 Demo.w_boot = Return "tok" /\
  redeem no_faults "tok" (exec (Issue Demo.f_writes_down "tok" 7) Demo.w_boot)
    = Return None /\
  redeem no_faults "tok" (exec (Issue Demo.f_writes_down "tok" 7) Demo.w_boot)
    <> Return (Some (str 7)).
Proof. split; [|split]; [reflexivity|reflexivity|vm_compute; discriminate]. Qed.

(** ** The confirm view *)

Lemma confirm_serializer_cases (CharField : Field) (request_data : Data) :
  let value := snd (run_fields (PasswordResetConfirmSerializer_fields CharField) request_data) in
  let errs := fst (run_fields (PasswordResetConfirmSerializer_fields CharField) request_data) in
  PasswordResetConfirmSerializer CharField request_data =
    if decide (errs = ∅) then PasswordResetConfirmSerializer_validate value else inl errs.
Proof.
  intros value errs. subst value errs.
  unfold PasswordResetConfirmSerializer, is_valid.
  by destruct (run_fields _ _).
Qed.

Lemma confirm_fields_ok (CharField : Field) (request_data : Data) :
  fst (run_fields (PasswordResetConfirmSerializer_fields CharField) request_data) = ∅ ->
  exists tok pw pwc,
    CharField (request_data !! "token") = inr tok /\
    CharField (request_data !! "new_password") = inr pw /\
    CharField (request_data !! "new_password_confirm") = inr pwc /\
    snd (run_fields (PasswordResetConfirmSerializer_fields CharField) request_data)
    = <["token" := tok]> (<["new_password" := pw]> (<["new_password_confirm" := pwc]> ∅)).
Proof.
  unfold PasswordResetConfirmSerializer_fields. simpl.
  destruct (CharField (request_data !! "new_password_confirm")) as [m3|pwc];
  destruct (CharField (request_data !! "new_password")) as [m2|pw];
  destruct (CharField (request_data !! "token")) as [m1|tok]; simpl; intros He.
  all: try (by apply insert_non_empty in He).
  eauto 10.
Qed.

Lemma confirm_serializer_inr (CharField : Field) (request_data validated : Data) :
  PasswordResetConfirmSerializer CharField request_data = inr validated ->
  exists tok pw,
    validated !! "token" = Some tok /\
    validated !! "new_password" = Some pw /\
    validated !! "new_password_confirm" = Some pw.
Proof.
  rewrite confirm_serializer_cases.
  destruct (decide (_ = ∅)) as [He|]; [|done].
  destruct (confirm_fields_ok CharField request_data He)
    as (tok & pw & pwc & _ & _ & _ & ->).
  unfold PasswordResetConfirmSerializer_validate.
  destruct (decide _) as [|Heq]; [done|]. intros [= <-].
  apply dec_stable in Heq.
  rewrite !lookup_insert_ne in Heq by done.
  rewrite !lookup_insert_eq in Heq.
  injection Heq as ->.
  exists tok, pwc. by simplify_map_eq.
Qed.

Lemma confirm_serializer_mismatch (CharField : Field) (request_data : Data) :
  let value := snd (run_fields (PasswordResetConfirmSerializer_fields CharField) request_data) in
  value !! "new_password" <> value !! "new_password_confirm" ->
  exists errors : Errors,
    errors <> ∅ /\
    PasswordResetConfirmSerializer CharField request_data = inl errors /\
    (fst (run_fields (PasswordResetConfirmSerializer_fields CharField) request_data) = ∅ ->
     errors = {["new_password_confirm" := ["Passwords do not match"]]}).
Proof.
  intros value Hne. rewrite confirm_serializer_cases. fold value.
  destruct (decide (_ = ∅)) as [He|Hne'].
  - unfold PasswordResetConfirmSerializer_validate.
    destruct (decide _) as [_|Heq]; [|done].
    eexists. split; [|split; [reflexivity|done]].
    apply insert_non_empty.
  - eexists. split; [exact Hne'|]. split; [reflexivity|done].
Qed.

Lemma redeem_some_truthy f tok w u :
  redeem f tok w = Return (Some u) -> truthy u = true.
Proof.
  rewrite validate_result. intros [= H].
  destruct (primary_hit f tok w) as [v|] eqn:Hp.
  - injection H as ->. by apply primary_hit_Some in Hp as (_ & _ & _ & _ & ?).
  - by apply secondary_hit_Some in H as (_ & _ & _ & ?).
Qed.

Lemma tier_get_Some t key (m : gmap string Entry) v :
  tier_get t key m = Some v -> is_Some (m !! key).
Proof. unfold tier_get. destruct (m !! key); [eauto|done]. Qed.

Lemma redeem_some_absent f tok w u :
  redeem f tok w = Return (Some u) ->
  redis_db w !! key_of tok = None \/ django_cache w !! key_of tok = None ->
  absent tok (exec (Redeem f tok) w).
Proof.
  rewrite validate_result. intros [= H] Hone. unfold absent.
  rewrite validate_redis_db, validate_django_cache.
  destruct (primary_hit f tok w) as [v|] eqn:Hp.
  - rewrite lookup_delete_eq. split; [done|].
    apply primary_hit_Some in Hp as (_ & _ & _ & Hget & _).
    apply tier_get_Some in Hget as [e He].
    destruct Hone as [Hone|Hone]; [congruence|].
    by destruct (secondary_hit f tok w).
  - rewrite H, lookup_delete_eq. split; [|done].
    apply secondary_hit_Some in H as (_ & _ & Hget & _).
    apply tier_get_Some in Hget as [e He].
    destruct Hone as [Hone|Hone]; [done|congruence].
Qed.

(** The lookup by id reads the user table and nothing else. *)
Lemma User_objects_get_id_users uid w :
  exists r, forall w', users w' = users w -> User_objects_get_id uid w' = (r, w').
Proof.
  unfold User_objects_get_id. destruct (int uid) as [e|n].
  - exists (Raise e). done.
  - unfold bind, get_world, objects_get.
    destruct (filter (fun u => id u = n) (users w)) as [|u [|u' l]] eqn:Hf.
    + exists (Raise DoesNotExist). intros w' ->. by rewrite Hf.
    + exists (Return u). intros w' ->. by rewrite Hf.
    + exists (Raise MultipleObjectsReturned). intros w' ->. by rewrite Hf.
Qed.

Ltac view_unfold :=
  unfold PasswordResetConfirmView_post, PasswordResetRequestView_post,
    subscript, and_then, try_except, bind, ret, raise, logger, modify,
    get_world, any_Exception.

Lemma confirm_post_absent (CharField : Field) f request_data validated tok w :
  PasswordResetConfirmSerializer CharField request_data = inr validated ->
  validated !! "token" = Some tok ->
  absent tok w ->
  PasswordResetConfirmView_post CharField f request_data w =
    (Return confirm_rejection, exec (Redeem f tok) w).
Proof.
  intros Hser Htok Habs.
  destruct (confirm_serializer_inr _ _ _ Hser) as (tok' & pw & Htok' & Hpw & _).
  apply redeem_absent with (f := f) in Habs.
  rewrite validate_result in Habs. injection Habs as Habs.
  view_unfold. rewrite Hser, Htok, Hpw, validate_run, Habs. done.
Qed.

Lemma confirm_post_missing_user (CharField : Field) f request_data validated tok uid w :
  PasswordResetConfirmSerializer CharField request_data = inr validated ->
  validated !! "token" = Some tok ->
  redeem f tok w = Return (Some uid) ->
  fst (User_objects_get_id uid w) = Raise DoesNotExist ->
  PasswordResetConfirmView_post CharField f request_data w =
    (Return confirm_rejection, exec (Redeem f tok) w).
Proof.
  intros Hser Htok Hred Hmiss.
  destruct (confirm_serializer_inr _ _ _ Hser) as (tok' & pw & Htok' & Hpw & _).
  pose proof (redeem_some_truthy _ _ _ _ Hred) as Htruthy.
  rewrite validate_result in Hred. injection Hred as Hred.
  destruct (User_objects_get_id_users uid w) as (r & Hr).
  rewrite (Hr w eq_refl) in Hmiss. simpl in Hmiss. subst r.
  view_unfold. rewrite Hser, Htok, Hpw, validate_run, Hred, Htruthy.
  rewrite (Hr (exec (Redeem f tok) w)); [done|].
  by destruct (exec_frame (Redeem f tok) w) as (_ & _ & -> & _).
Qed.

(** C7.  A confirm request whose [new_password] and [new_password_confirm],
    as the serializer's [validate] receives them, differ is answered with
    status 400 and the serializer's errors, keyed by field, and the world is
    left exactly as it was: [validate_password_reset_token] is not called, no
    store call is recorded, no tier is read or changed.  When the three
    fields themselves were accepted, the errors are the one message under
    [new_password_confirm]. *)
Theorem confirm_mismatch_rejected_before_store (CharField : Field)
        (f : Faults) (request_data : Data) (w : World) :
  let fields := PasswordResetConfirmSerializer_fields CharField in
  let value := snd (run_fields fields request_data) in
  value !! "new_password" <> value !! "new_password_confirm" ->
  exists errors : Errors,
    errors <> ∅ /\
    PasswordResetConfirmView_post CharField f request_data w =
      (Return (mkResponse (JList <$> errors) HTTP_400_BAD_REQUEST), w) /\
    new_ops w (snd (PasswordResetConfirmView_post CharField f request_data w))
      = [] /\
    (fst (run_fields fields request_data) = ∅ ->
     errors = {["new_password_confirm" := ["Passwords do not match"]]}).
Proof.
  intros fields value Hne.
  destruct (confirm_serializer_mismatch CharField request_data Hne)
    as (errors & Hnonempty & Hser & Hshape).
  exists errors. split; [done|].
  assert (PasswordResetConfirmView_post CharField f request_data w =
          (Return (mkResponse (JList <$> errors) HTTP_400_BAD_REQUEST), w))
    as Hpost.
  { unfold PasswordResetConfirmView_post. by rewrite Hser. }
  rewrite Hpost. split; [done|]. split; [|done].
  unfold new_ops. simpl. by rewrite drop_all.
Qed.

Lemma confirm_mismatch_rejected_before_store_witness :
  PasswordResetConfirmView_post required_field no_faults
    Demo.confirm_mismatch Demo.w_issued
  = (Return (mkResponse
               {["new_password_confirm" := JList ["Passwords do not match"]]}
               HTTP_400_BAD_REQUEST),
     Demo.w_issued).
Proof.
  destruct (confirm_mismatch_rejected_before_store required_field no_faults
              Demo.confirm_mismatch Demo.w_issued)
    as (errors & _ & Hpost & _ & Hshape).
  - vm_compute. discriminate.
  - rewrite Hpost, Hshape by reflexivity. reflexivity.
Defined.

(** C7 as stated fails: the serializer compares the two passwords as its
    fields deliver them, and the framework's [CharField] strips the blanks at
    both ends.  A request whose two passwords differ by a blank at the end is
    accepted: the token is read and deleted in Redis and the password is
    changed. *)
Lemma confirm_padded_mismatch_reaches_store :
  Demo.confirm_padded !! "new_password"
    <> Demo.confirm_padded !! "new_password_confirm" /\
  exists reply : Response,
    fst (PasswordResetConfirmView_post CharField_default no_faults
           Demo.confirm_padded Demo.w_issued) = Return reply /\
    status_code reply = 200 /\
    new_ops Demo.w_issued
      (snd (PasswordResetConfirmView_post CharField_default no_faults
              Demo.confirm_padded Demo.w_issued))
    = [RedisGet "password_reset:tok"; RedisDelete "password_reset:tok"] /\
    users (snd (PasswordResetConfirmView_post CharField_default no_faults
                  Demo.confirm_padded Demo.w_issued))
    = [mkUser 7 "alice@example.com" "newpass123" "Alice"].
Proof.
  split; [vm_compute; discriminate|].
  eexists. split; [vm_compute; reflexivity|].
  split; [reflexivity|]. split; vm_compute; reflexivity.
Qed.

(** C9.  When the token of a confirm request redeems to a subject id that no
    row of the user table has, the answer is the same 400 rejection a token
    in neither tier gets, no row is changed, and the redeem has already taken
    the token out of the stores: provided the token was in one tier only (as
    every token issued once is), it is then in neither, and a retry with the
    same request gets the same rejection whatever the stores do. *)
Theorem confirm_for_missing_user_consumes_token (CharField : Field)
        (f : Faults) (request_data validated : Data) (token uid : string)
        (w : World) :
  PasswordResetConfirmSerializer CharField request_data = inr validated ->
  validated !! "token" = Some token ->
  redeem f token w = Return (Some uid) ->
  fst (User_objects_get_id uid w) = Raise DoesNotExist ->
  redis_db w !! key_of token = None \/ django_cache w !! key_of token = None ->
  let w1 := snd (PasswordResetConfirmView_post CharField f request_data w) in
  fst (PasswordResetConfirmView_post CharField f request_data w)
    = Return confirm_rejection /\
  (forall f0 w0, absent token w0 ->
     fst (PasswordResetConfirmView_post CharField f0 request_data w0)
       = Return confirm_rejection) /\
  users w1 = users w /\
  absent token w1 /\
  (forall f', redeem f' token w1 = Return None) /\
  (forall f', fst (PasswordResetConfirmView_post CharField f' request_data w1)
              = Return confirm_rejection).
Proof.
  intros Hser Htok Hred Hmiss Hone w1. subst w1.
  rewrite (confirm_post_missing_user _ _ _ _ _ _ _ Hser Htok Hred Hmiss).
  cbn [fst snd].
  pose proof (redeem_some_absent _ _ _ _ Hred Hone) as Habs.
  split; [done|]. split; [|split; [|split; [done|split]]].
  - intros f0 w0 H0.
    by rewrite (confirm_post_absent _ f0 _ _ _ _ Hser Htok H0).
  - by destruct (exec_frame (Redeem f token) w) as (_ & _ & -> & _).
  - intros f'. by apply redeem_absent.
  - intros f'.
    by rewrite (confirm_post_absent _ f' _ _ _ _ Hser Htok Habs).
Qed.

Lemma confirm_for_missing_user_consumes_token_witness :
  fst (PasswordResetConfirmView_post required_field no_faults
         Demo.confirm_ghost Demo.w_issued_ghost) = Return confirm_rejection /\
  (forall f',
     fst (PasswordResetConfirmView_post required_field f' Demo.confirm_ghost
            (snd (PasswordResetConfirmView_post required_field no_faults
                    Demo.confirm_ghost Demo.w_issued_ghost)))
     = Return confirm_rejection).
Proof.
  destruct (confirm_for_missing_user_consumes_token required_field no_faults
              Demo.confirm_ghost Demo.confirm_ghost "tok9" "9"
              Demo.w_issued_ghost) as (Hfirst & _ & _ & _ & _ & Hretry).
  - vm_compute. reflexivity.
  - reflexivity.
  - vm_compute. reflexivity.
  - vm_compute. reflexivity.
  - right. reflexivity.
  - split; [exact Hfirst|exact Hretry].
Defined.

(** ** The request view *)

Lemma request_serializer_inr (EmailField : Field) (request_data validated : Data) :
  PasswordResetRequestSerializer EmailField request_data = inr validated ->
  exists e, EmailField (request_data !! "email") = inr e /\
            validated !! "email" = Some e.
Proof.
  unfold PasswordResetRequestSerializer, is_valid,
    PasswordResetRequestSerializer_fields. simpl.
  destruct (EmailField (request_data !! "email")) as [msgs|e].
  - destruct (decide _) as [He|]; [|done]. by apply insert_non_empty in He.
  - destruct (decide _); [|done]. intros [= <-].
    exists e. by rewrite lookup_insert_eq.
Qed.

Lemma request_post_existing (EmailField : Field) f fresh_token request_data
      validated e u w :
  PasswordResetRequestSerializer EmailField request_data = inr validated ->
  validated !! "email" = Some e ->
  filter (fun x => email x = e) (users w) = [u] ->
  PasswordResetRequestView_post EmailField f fresh_token request_data w =
    (Return (mkResponse (<["token" := JStr fresh_token]> (detail reset_generated_msg))
                        HTTP_200_OK),
     exec (Issue f fresh_token (id u)) w).
Proof.
  intros Hser He Hu. view_unfold.
  unfold User_objects_get_email, objects_get, bind, get_world.
  rewrite Hser, He, Hu. cbn [ret]. by rewrite generate_run.
Qed.

Lemma request_post_unknown (EmailField : Field) f fresh_token request_data
      validated e w :
  PasswordResetRequestSerializer EmailField request_data = inr validated ->
  validated !! "email" = Some e ->
  filter (fun x => email x = e) (users w) = [] ->
  PasswordResetRequestView_post EmailField f fresh_token request_data w =
    (Return (mkResponse (detail reset_generic_msg) HTTP_200_OK), w).
Proof.
  intros Hser He Hu. view_unfold.
  unfold User_objects_get_email, objects_get, bind, get_world.
  by rewrite Hser, He, Hu.
Qed.

(** C2 (as amended).  Of two reset requests that pass the email field, one
    for an email that exactly one user has and one for an email that no user
    has, both are answered with status 200 and a body that has a [detail]
    field; the first body has a [token] field as well, carrying the issued
    token, and the second has none.  The two [detail] texts are different. *)
Theorem reset_request_same_status_and_detail_key (EmailField : Field)
        (f : Faults) (fresh_token : string) (d1 d2 v1 v2 : Data)
        (e1 e2 : string) (u : User) (w : World) :
  PasswordResetRequestSerializer EmailField d1 = inr v1 ->
  v1 !! "email" = Some e1 ->
  PasswordResetRequestSerializer EmailField d2 = inr v2 ->
  v2 !! "email" = Some e2 ->
  filter (fun x => email x = e1) (users w) = [u] ->
  filter (fun x => email x = e2) (users w) = [] ->
  exists r1 r2 : Response,
    fst (PasswordResetRequestView_post EmailField f fresh_token d1 w) = Return r1 /\
    fst (PasswordResetRequestView_post EmailField f fresh_token d2 w) = Return r2 /\
    status_code r1 = HTTP_200_OK /\
    status_code r2 = HTTP_200_OK /\
    data r1 !! "detail" = Some (JStr reset_generated_msg) /\
    data r2 !! "detail" = Some (JStr reset_generic_msg) /\
    data r1 !! "detail" <> data r2 !! "detail" /\
    data r1 !! "token" = Some (JStr fresh_token) /\
    data r2 !! "token" = None /\
    dom (data r1) = {["detail"; "token"]} /\
    dom (data r2) = {["detail"]}.
Proof.
  intros Hs1 He1 Hs2 He2 Hu1 Hu2.
  rewrite (request_post_existing _ f fresh_token _ _ _ _ _ Hs1 He1 Hu1).
  rewrite (request_post_unknown _ f fresh_token _ _ _ _ Hs2 He2 Hu2).
  eexists _, _. split; [reflexivity|]. split; [reflexivity|].
  cbn [status_code data]. unfold detail.
  split; [done|]. split; [done|].
  rewrite lookup_insert_ne by done. rewrite !lookup_singleton_eq.
  rewrite lookup_insert_eq. rewrite lookup_singleton_ne by done.
  rewrite dom_insert_L, !dom_singleton_L.
  repeat (split; [done|]). set_solver.
Qed.

Lemma reset_request_same_status_and_detail_key_witness :
  exists r1 r2 : Response,
    fst (PasswordResetRequestView_post required_field no_faults "tok"
           Demo.request_alice Demo.w_boot) = Return r1 /\
    fst (PasswordResetRequestView_post required_field no_faults "tok"
           Demo.request_nobody Demo.w_boot) = Return r2 /\
    status_code r1 = status_code r2 /\
    data r1 !! "token" = Some (JStr "tok") /\
    data r2 !! "token" = None.
Proof.
  destruct (reset_request_same_status_and_detail_key required_field no_faults
              "tok" Demo.request_alice Demo.request_nobody
              Demo.request_alice Demo.request_nobody
              "alice@example.com" "nobody@example.com" Demo.alice Demo.w_boot)
    as (r1 & r2 & H1 & H2 & Hs1 & Hs2 & _ & _ & _ & Ht1 & Ht2 & _).
  - vm_compute. reflexivity.
  - reflexivity.
  - vm_compute. reflexivity.
  - reflexivity.
  - vm_compute. reflexivity.
  - vm_compute. reflexivity.
  - exists r1, r2. rewrite Hs1, Hs2. auto.
Defined.

(** C2 as stated fails: the [detail] text for an existing email is not the
    text for an unknown one. *)
Lemma reset_request_detail_differs :
  exists r1 r2 : Response,
    fst (PasswordResetRequestView_post required_field no_faults "tok"
           Demo.request_alice Demo.w_boot) = Return r1 /\
    fst (PasswordResetRequestView_post required_field no_faults "tok"
           Demo.request_nobody Demo.w_boot) = Return r2 /\
    data r1 !! "detail" =
      Some (JStr "Password reset token generated successfully.") /\
    data r2 !! "detail" =
      Some (JStr "If the email exists in our system, a password reset link will be sent.") /\
    data r1 !! "detail" <> data r2 !! "detail".
Proof.
  eexists _, _. split; [vm_compute; reflexivity|].
  split; [vm_compute; reflexivity|].
  split; [vm_compute; reflexivity|].
  split; [vm_compute; reflexivity|].
  vm_compute. discriminate.
Qed.

(** ** Two workers redeeming the same token *)

(** A worker's step never raises. *)
Lemma step_returns f tok p w : exists p', fst (step f tok p w) = Return p'.
Proof.
  destruct p as [|u| |u|r]; unfold step; py_unfold; cbn.
  - destruct (redis_enabled w), (redis_get_raises f); cbn; eauto.
    destruct (tier_get _ _ _) as [b|]; cbn; eauto.
    destruct (truthy b); cbn; eauto.
  - destruct (redis_delete_raises f); cbn; eauto.
  - destruct (cache_get_raises f); cbn; eauto.
    destruct (tier_get _ _ _) as [b|]; cbn; eauto.
    destruct (truthy b); cbn; eauto.
  - destruct (cache_delete_raises f); cbn; eauto.
  - eauto.
Qed.

(** A worker that runs alone through its four points does exactly what
    [validate_password_reset_token] does. *)
Lemma steps_validate f tok w :
  steps 4 f tok Start w =
  (Return (Finished (match primary_hit f tok w with
                     | Some v => Some v
                     | None => secondary_hit f tok w
                     end)),
   exec (Redeem f tok) w).
Proof.
  unfold steps, step, exec, primary_hit, secondary_hit, tier_up.
  destruct (tier_get (now w) (key_of tok) (redis_db w)) as [?|] eqn:Hr;
  destruct (tier_get (now w) (key_of tok) (django_cache w)) as [?|] eqn:Hc;
  py_unfold;
  destruct (redis_enabled w), f as [? [] [] ? [] []];
  repeat py_step; reflexivity.
Qed.

(** Run one after the other, two redeems of a token held by one tier cannot
    both return a subject id. *)
Lemma sequential_redeems_at_most_one fA fB tok w uA uB :
  redis_db w !! key_of tok = None \/ django_cache w !! key_of tok = None ->
  redeem fA tok w = Return (Some uA) ->
  redeem fB tok (exec (Redeem fA tok) w) = Return (Some uB) ->
  False.
Proof.
  intros Hone HA HB.
  pose proof (redeem_some_absent _ _ _ _ HA Hone) as Habs.
  rewrite (redeem_absent fB _ _ Habs) in HB. discriminate.
Qed.

(** C8 (the code does not have the property).  With the token for subject 7
    in Redis and no faults at all, the order read by A, read by B, delete by
    A, delete by B lets both workers return the subject id: the read and the
    delete of a redeem are separate store calls, and nothing keeps another
    worker's read from running between them.  The same happens on the cache
    tier. *)
Theorem concurrent_redeems_both_succeed :
  (let s := interleave no_faults no_faults "tok" "tok" [A; B; A; B]
              (mkPair Start Start Demo.w_issued) in
   at_A s = Finished (Some "7") /\ at_B s = Finished (Some "7") /\
   new_ops Demo.w_issued (shared s) =
     [RedisGet "password_reset:tok"; RedisGet "password_reset:tok";
      RedisDelete "password_reset:tok"; RedisDelete "password_reset:tok"]) /\
  (let s := interleave no_faults no_faults "tok" "tok" [A; B; A; B; A; B]
              (mkPair Start Start Demo.w_issued_fallback) in
   at_A s = Finished (Some "7") /\ at_B s = Finished (Some "7")).
Proof. split; vm_compute; repeat split; reflexivity. Qed.

(** ** Tokens are issued once *)

Lemma issues_issued_tokens tok c cs :
  tok ∉ issued_tokens (c :: cs) -> issues tok c = false.
Proof.
  destruct c as [f tok' uid|f tok'|s]; simpl; [|done..].
  intros Hnot. apply bool_decide_eq_false. intros ->. apply Hnot. by left.
Qed.

Lemma single_tier_exec c w :
  single_tier w ->
  (forall tok, issues tok c = true -> absent tok w) ->
  single_tier (exec c w).
Proof.
  intros Hw Hfresh tok.
  destruct c as [f tok' uid|f tok'|s]; [| |apply Hw].
  - rewrite generate_redis_db, generate_django_cache.
    destruct (decide (tok' = tok)) as [->|Hne].
    + destruct (Hfresh tok) as [Hr Hd];
        [simpl; by rewrite bool_decide_eq_true_2|].
      destruct (written_to f w) as [[]|]; auto.
    + apply key_of_ne in Hne.
      destruct (written_to f w) as [[]|]; unfold tier_set;
        rewrite ?lookup_insert_ne by done; apply Hw.
  - rewrite validate_redis_db, validate_django_cache.
    destruct (Hw tok) as [Hr|Hd];
      destruct (primary_hit f tok' w), (secondary_hit f tok' w);
      rewrite ?lookup_delete_None; auto.
Qed.

(** As long as no token is issued twice (and [secrets.token_urlsafe] draws
    256 random bits for each), no token is ever in both tiers. *)
Lemma fresh_issues_single_tier cs w :
  single_tier w ->
  (forall tok, tok ∈ issued_tokens cs -> absent tok w) ->
  NoDup (issued_tokens cs) ->
  single_tier (run cs w).
Proof.
  revert w. induction cs as [|c cs IH]; intros w Hw Hfresh Hnodup; [done|].
  simpl run. apply IH.
  - apply single_tier_exec; [done|].
    intros tok Htok. apply Hfresh.
    destruct c as [f tok' uid|f tok'|s]; simpl in Htok; try done.
    apply bool_decide_eq_true in Htok as ->. by left.
  - intros tok Htok.
    destruct c as [f tok' uid|f tok'|s]; simpl in Hnodup, Hfresh.
    + apply NoDup_cons in Hnodup as [Hnot _].
      apply absent_exec.
      * simpl. apply bool_decide_eq_false. by intros ->.
      * apply Hfresh. by right.
    + apply absent_exec; [done|by apply Hfresh].
    + apply absent_exec; [done|by apply Hfresh].
  - destruct c as [f tok' uid|f tok'|s]; simpl in Hnodup; [|done..].
    by apply NoDup_cons in Hnodup as [_ ?].
Qed.

Lemma boot_single_tier url ce us t0 cs :
  NoDup (issued_tokens cs) -> single_tier (run cs (boot url ce us t0)).
Proof.
  intros Hnodup. apply fresh_issues_single_tier; [| |done].
  - intros tok. left. unfold boot, import_module. by destruct ce.
  - intros tok _. unfold boot, import_module. by destruct ce.
Qed.

(** ** The whole flow on an example

    Alice asks for a reset and gets the token; the confirm with that token
    sets her password; a second confirm with the same token is rejected. *)
Example reset_scenario :
  let request := PasswordResetRequestView_post required_field no_faults "tok"
                   Demo.request_alice Demo.w_boot in
  let body : gmap string string :=
    {["token" := "tok"; "new_password" := "newpass123";
      "new_password_confirm" := "newpass123"]} in
  let confirm := PasswordResetConfirmView_post required_field no_faults body
                   (snd request) in
  let again := PasswordResetConfirmView_post required_field no_faults body
                 (snd confirm) in
  fst request = Return (mkResponse
                          {["detail" := JStr reset_generated_msg;
                            "token" := JStr "tok"]} 200) /\
  fst confirm = Return (mkResponse (detail confirm_ok_msg) 200) /\
  users (snd confirm) = [mkUser 7 "alice@example.com" "newpass123" "Alice"] /\
  fst again = Return confirm_rejection /\
  users (snd again) = users (snd confirm).
Proof. vm_compute. repeat split; reflexivity. Qed.

(** * Further properties of the code *)

Import Footprint.

(** ** The numeral of a subject id parses back *)

Lemma digit_of_pretty_N_char (d : N) :
  (d < 10)%N -> digit_of (pretty_N_char d) = Some (Z.of_N d).
Proof.
  intros Hd.
  assert (d = 0 \/ d = 1 \/ d = 2 \/ d = 3 \/ d = 4 \/ d = 5 \/ d = 6 \/
          d = 7 \/ d = 8 \/ d = 9)%N as Hc by lia.
  repeat (destruct Hc as [->|Hc]; [reflexivity|]). by subst.
Qed.

Lemma digits_pretty_N_go (x : N) (s : string) :
  digits (pretty_N_go x s) 0 = digits s (Z.of_N x).
Proof.
  revert s. induction (N.lt_wf_0 x) as [x _ IH]; intros s.
  destruct (decide (0 < x)%N) as [Hpos|Hz].
  - rewrite pretty_N_go_step by done.
    rewrite IH by (by apply N.div_lt).
    cbn [digits]. rewrite digit_of_pretty_N_char by (by apply N.mod_lt).
    f_equal. pose proof (N.div_mod x 10 ltac:(done)) as Hdm. lia.
  - assert (x = 0%N) as -> by lia. by rewrite pretty_N_go_0.
Qed.

Lemma pretty_N_go_head (x : N) (s : string) :
  (0 < x)%N ->
  exists d r, (d < 10)%N /\ pretty_N_go x s = String (pretty_N_char d) r.
Proof.
  revert s. induction (N.lt_wf_0 x) as [x _ IH]; intros s Hpos.
  rewrite pretty_N_go_step by done.
  destruct (decide (x `div` 10 = 0)%N) as [Hq|Hq].
  - rewrite Hq, pretty_N_go_0.
    eexists _, _. split; [|reflexivity]. by apply N.mod_lt.
  - apply IH; [by apply N.div_lt|]. by apply N.neq_0_lt_0.
Qed.

Lemma int_digit_led (d : N) (r : string) :
  (d < 10)%N ->
  int (String (pretty_N_char d) r) =
  match digits (String (pretty_N_char d) r) 0 with
  | Some n => inr n
  | None => inl (ValueError ("invalid literal for int() with base 10: " +:+
                             String (pretty_N_char d) r))
  end.
Proof.
  intros Hd.
  assert (d = 0 \/ d = 1 \/ d = 2 \/ d = 3 \/ d = 4 \/ d = 5 \/ d = 6 \/
          d = 7 \/ d = 8 \/ d = 9)%N as Hc by lia.
  repeat (destruct Hc as [->|Hc]; [reflexivity|]). by subst.
Qed.

Lemma int_pretty_positive (p : positive) : int (pretty p) = inr (Z.pos p).
Proof.
  unfold pretty, pretty_positive, pretty, pretty_N.
  destruct (decide (N.pos p = 0%N)) as [?|_]; [done|].
  destruct (pretty_N_go_head (N.pos p) "") as (d & r & Hd & Hhead); [lia|].
  rewrite Hhead, int_digit_led by done. rewrite <- Hhead.
  by rewrite digits_pretty_N_go.
Qed.

(** What [str] writes, [int] reads back. *)
Lemma int_str (n : Z) : int (str n) = inr n.
Proof.
  destruct n as [|p|p]; unfold str, pretty, pretty_Z.
  - reflexivity.
  - apply int_pretty_positive.
  - pose proof (int_pretty_positive p) as Hp.
    unfold pretty, pretty_positive, pretty, pretty_N in *.
    destruct (decide (N.pos p = 0%N)) as [?|_]; [done|].
    destruct (pretty_N_go_head (N.pos p) "") as (d & r & Hd & Hhead); [lia|].
    rewrite Hhead in *. rewrite int_digit_led in Hp by done.
    change ("-" +:+ String (pretty_N_char d) r)
      with (String "-"%char (String (pretty_N_char d) r)).
    cbn [int].
    destruct (digits (String (pretty_N_char d) r) 0) as [m|]; [|done].
    by injection Hp as ->.
Qed.

(** ** The adapter's footprint in the stores *)

(** X1.  One issue makes one or two store calls, both writes of the token's
    key with the subject id's numeral and 600 seconds, the Redis one first.
    One redeem makes between one and four store calls, all on the token's own
    key and none of them a write; the Redis calls come before the cache
    calls, and a delete only ever directly follows the read of the same
    tier. *)
Theorem adapter_call_shapes (f : Faults) (token : string) (user_id : Z)
        (w : World) :
  new_ops w (exec (Issue f token user_id) w)
    ∈ issue_call_shapes (key_of token) (str user_id) /\
  new_ops w (exec (Redeem f token) w) ∈ redeem_call_shapes (key_of token).
Proof.
  rewrite !new_ops_exec. simpl call_ops. split.
  - unfold issue_ops, issue_call_shapes.
    destruct (redis_enabled w), (setex_raises f); simpl; by repeat constructor.
  - unfold redeem_ops, lookup_ops, primary_hit, tier_up, redeem_call_shapes.
    destruct (redis_enabled w), (redis_get_raises f), (redis_delete_raises f),
      (cache_get_raises f),
      (tier_get (now w) (key_of token) (redis_db w)) as [b|],
      (tier_get (now w) (key_of token) (django_cache w)) as [u|];
      simpl; try destruct (truthy b); try destruct (truthy u); simpl;
      by repeat constructor.
Qed.

Lemma store_inv_boot url ce us t0 : store_inv (boot url ce us t0).
Proof.
  unfold store_inv, boot, import_module.
  destruct ce; simpl; split; intros key e; rewrite lookup_empty; discriminate.
Qed.

Lemma trace_exec_mono c w t op :
  (t, op) ∈ trace w -> (t, op) ∈ trace (exec c w).
Proof. rewrite exec_trace, elem_of_app. by left. Qed.

Lemma trace_exec_new c w op :
  op ∈ call_ops c w -> (now w, op) ∈ trace (exec c w).
Proof.
  intros Hop. rewrite exec_trace, elem_of_app. right.
  apply list_elem_of_fmap. by exists op.
Qed.

Lemma issue_ops_primary f tok uid w :
  written_to f w = Some Primary ->
  RedisSetex (key_of tok) 600 (str uid) ∈ issue_ops f tok uid w.
Proof.
  unfold written_to, issue_ops.
  destruct (redis_enabled w); simpl.
  - intros _. by left.
  - by destruct (negb (cache_set_raises f)).
Qed.

Lemma issue_ops_secondary f tok uid w :
  written_to f w = Some Secondary ->
  CacheSet (key_of tok) (str uid) 600 ∈ issue_ops f tok uid w.
Proof.
  unfold written_to, issue_ops.
  destruct (redis_enabled w && negb (setex_raises f)); [done|].
  intros _. apply elem_of_app. right. by left.
Qed.

Lemma store_inv_exec c w : store_inv w -> store_inv (exec c w).
Proof.
  intros [Hr Hc]. split; intros key e He.
  - assert (redis_db w !! key = Some e \/
            exists f tok uid, c = Issue f tok uid /\
              written_to f w = Some Primary /\ key = key_of tok /\
              e = mkEntry (str uid) (now w + 600)) as [Hold|Hnew].
    { destruct c as [f tok' uid|f tok'|s].
      - rewrite generate_redis_db in He.
        destruct (written_to f w) as [[]|] eqn:Hwt; [|by left..].
        unfold tier_set in He.
        destruct (decide (key_of tok' = key)) as [<-|Hne].
        + rewrite lookup_insert_eq in He. injection He as <-.
          right. by exists f, tok', uid.
        + rewrite lookup_insert_ne in He by done. by left.
      - rewrite validate_redis_db in He. left.
        destruct (primary_hit f tok' w); [|done].
        by apply lookup_delete_Some in He as [_ He].
      - by left. }
    + destruct (Hr key e Hold) as (tok & uid & t & -> & -> & Ht).
      exists tok, uid, t. repeat split; try done. by apply trace_exec_mono.
    + destruct Hnew as (f & tok & uid & -> & Hwt & -> & ->).
      exists tok, uid, (now w). repeat split; try done.
      apply trace_exec_new. simpl. by apply issue_ops_primary.
  - assert (django_cache w !! key = Some e \/
            exists f tok uid, c = Issue f tok uid /\
              written_to f w = Some Secondary /\ key = key_of tok /\
              e = mkEntry (str uid) (now w + 600)) as [Hold|Hnew].
    { destruct c as [f tok' uid|f tok'|s].
      - rewrite generate_django_cache in He.
        destruct (written_to f w) as [[]|] eqn:Hwt; [by left| |by left].
        unfold tier_set in He.
        destruct (decide (key_of tok' = key)) as [<-|Hne].
        + rewrite lookup_insert_eq in He. injection He as <-.
          right. by exists f, tok', uid.
        + rewrite lookup_insert_ne in He by done. by left.
      - rewrite validate_django_cache in He. left.
        destruct (primary_hit f tok' w), (secondary_hit f tok' w); try done.
        by apply lookup_delete_Some in He as [_ He].
      - by left. }
    + destruct (Hc key e Hold) as (tok & uid & t & -> & -> & Ht).
      exists tok, uid, t. repeat split; try done. by apply trace_exec_mono.
    + destruct Hnew as (f & tok & uid & -> & Hwt & -> & ->).
      exists tok, uid, (now w). repeat split; try done.
      apply trace_exec_new. simpl. by apply issue_ops_secondary.
Qed.

Lemma store_inv_reachable w : reachable w -> store_inv w.
Proof. induction 1; [apply store_inv_boot|by apply store_inv_exec]. Qed.

Lemma trace_past_reachable w : reachable w -> trace_past w.
Proof.
  induction 1 as [url ce us t0|c w Hw IH]; intros t op Hin.
  - unfold boot, import_module in Hin. destruct ce; simpl in Hin;
      by apply elem_of_nil in Hin.
  - pose proof (now_exec_le c w) as Hle.
    rewrite exec_trace, elem_of_app in Hin. destruct Hin as [Hin|Hin].
    + specialize (IH t op Hin). lia.
    + apply list_elem_of_fmap in Hin as (op' & [= -> ->] & _). done.
Qed.

Lemma tier_get_Some_inv t key (m : gmap string Entry) v :
  tier_get t key m = Some v ->
  exists e, m !! key = Some e /\ value e = v /\ t < expires_at e.
Proof.
  unfold tier_get, live. destruct (m !! key) as [e|]; [|done].
  destruct (bool_decide (t < expires_at e)) eqn:Hlive; [|done].
  intros [= <-]. apply bool_decide_eq_true in Hlive. eauto.
Qed.

(** X2.  In a running process a redeem only ever returns a subject id that
    an issue wrote for that very token less than 600 seconds earlier: the
    value returned is the numeral of an id for which a write call under the
    token's key is on record, and the write is at most 600 seconds old. *)
Theorem redeem_returns_issued_id (f : Faults) (token u : string) (w : World) :
  reachable w ->
  redeem f token w = Return (Some u) ->
  exists user_id t,
    u = str user_id /\ t <= now w < t + 600 /\
    ((t, RedisSetex (key_of token) 600 (str user_id)) ∈ trace w \/
     (t, CacheSet (key_of token) (str user_id) 600) ∈ trace w).
Proof.
  intros Hw Hred.
  destruct (store_inv_reachable w Hw) as [Hr Hc].
  pose proof (trace_past_reachable w Hw) as Hpast.
  rewrite validate_result in Hred. injection Hred as Hred.
  destruct (primary_hit f token w) as [v|] eqn:Hp.
  - injection Hred as ->.
    apply primary_hit_Some in Hp as (_ & _ & _ & Hget & _).
    apply tier_get_Some_inv in Hget as (e & He & Hv & Hlive).
    destruct (Hr _ _ He) as (tok & uid & t & _ & -> & Ht).
    simpl in Hv, Hlive. exists uid, t. split; [done|].
    split; [|by left]. specialize (Hpast _ _ Ht). lia.
  - apply secondary_hit_Some in Hred as (_ & _ & Hget & _).
    apply tier_get_Some_inv in Hget as (e & He & Hv & Hlive).
    destruct (Hc _ _ He) as (tok & uid & t & _ & -> & Ht).
    simpl in Hv, Hlive. exists uid, t. split; [done|].
    split; [|by right]. specialize (Hpast _ _ Ht). lia.
Qed.

Lemma redeem_returns_issued_id_witness :
  exists user_id t,
    "7" = str user_id /\ t <= now Demo.w_issued < t + 600 /\
    ((t, RedisSetex (key_of "tok") 600 (str user_id)) ∈ trace Demo.w_issued \/
     (t, CacheSet (key_of "tok") (str user_id) 600) ∈ trace Demo.w_issued).
Proof.
  apply (redeem_returns_issued_id no_faults "tok" "7" Demo.w_issued).
  - unfold Demo.w_issued, Demo.w_boot. repeat constructor.
  - vm_compute. reflexivity.
Defined.

(** ** Tokens do not interfere *)

Lemma now_run_timeless cs w :
  Forall (fun c => timeless c = true) cs -> now (run cs w) = now w.
Proof.
  revert w. induction cs as [|c cs IH]; intros w Hcs; simpl; [done|].
  inversion_clear Hcs as [|? ? Hc Hrest]. rewrite IH by done.
  destruct (exec_frame c w) as (_ & _ & _ & ->).
  destruct c; simpl in Hc; [lia|lia|done].
Qed.

(** What a redeem returns depends on the world only through the module
    globals, the clock and the token's two entries. *)
Lemma redeem_ext f tok w w' :
  redis_enabled w' = redis_enabled w ->
  now w' = now w ->
  redis_db w' !! key_of tok = redis_db w !! key_of tok ->
  django_cache w' !! key_of tok = django_cache w !! key_of tok ->
  redeem f tok w' = redeem f tok w.
Proof.
  intros Hen Hnow Hr Hc. rewrite !validate_result.
  unfold primary_hit, secondary_hit, tier_get. by rewrite Hen, Hnow, Hr, Hc.
Qed.

(** X3.  Issues and redeems of other tokens, whatever their faults and
    whoever their subject, do not change what a redeem of this token returns
    at the same instant: a further reset request does not invalidate a token
    handed out earlier, and redeeming one token leaves the others
    redeemable. *)
Theorem redeem_ignores_other_tokens (cs : list Call) (f : Faults)
        (token : string) (w : World) :
  Forall (fun c => mentions token c = false) cs ->
  Forall (fun c => timeless c = true) cs ->
  redeem f token (run cs w) = redeem f token w.
Proof.
  intros Hother Htimeless.
  destruct (lookup_run_other token cs w Hother) as [Hr Hc].
  apply redeem_ext; [apply redis_enabled_run|by apply now_run_timeless|done..].
Qed.

Lemma redeem_ignores_other_tokens_witness :
  redeem no_faults "tok"
    (run [Issue Demo.f_setex_down "tok2" 7; Redeem no_faults "tok2";
          Issue no_faults "tok3" 9] Demo.w_issued)
  = Return (Some "7").
Proof.
  rewrite (redeem_ignores_other_tokens
             [Issue Demo.f_setex_down "tok2" 7; Redeem no_faults "tok2";
              Issue no_faults "tok3" 9] no_faults "tok" Demo.w_issued).
  - vm_compute. reflexivity.
  - repeat constructor.
  - repeat constructor.
Defined.

(** ** A delete that raises *)

(** X4.  A redeem whose read found the token but whose delete raised does not
    consume it: the tier still holds the entry, this redeem returns what the
    remaining lookup gives ([None] when the token is in that tier only), and
    a later redeem at which the tier is up returns the subject id.  This
    holds for the Redis tier and for the cache tier alike. *)
Theorem failed_delete_keeps_token (f f' : Faults) (token u : string)
        (w : World) :
  let w' := exec (Redeem f token) w in
  (redis_enabled w = true ->
   redis_get_raises f = false -> redis_delete_raises f = true ->
   tier_get (now w) (key_of token) (redis_db w) = Some u -> truthy u = true ->
   django_cache w !! key_of token = None ->
   tier_up f' Primary = true ->
   redeem f token w = Return None /\
   redis_db w' = redis_db w /\
   redeem f' token w' = Return (Some u)) /\
  (redis_db w !! key_of token = None ->
   cache_get_raises f = false -> cache_delete_raises f = true ->
   tier_get (now w) (key_of token) (django_cache w) = Some u -> truthy u = true ->
   tier_up f' Secondary = true ->
   redeem f token w = Return None /\
   django_cache w' = django_cache w /\
   redeem f' token w' = Return (Some u)).
Proof.
  intros w'. subst w'. split.
  - intros Hon Hget Hdel Hfound Htruthy Hcache Hup.
    assert (primary_hit f token w = None) as Hp.
    { unfold primary_hit, tier_up. by rewrite Hdel, andb_false_r, andb_false_r. }
    assert (secondary_hit f token w = None) as Hs.
    { unfold secondary_hit. rewrite (tier_get_absent _ _ _ Hcache).
      by destruct (tier_up f Secondary). }
    assert (redis_db (exec (Redeem f token) w) = redis_db w) as Hdb
      by by rewrite validate_redis_db, Hp.
    split; [by rewrite validate_result, Hp, Hs|]. split; [done|].
    rewrite validate_result.
    assert (primary_hit f' token (exec (Redeem f token) w) = Some u) as ->;
      [|done].
    apply primary_hit_Some. unfold tier_up in Hup.
    apply andb_true_iff in Hup as [Hg Hd].
    apply negb_true_iff in Hg, Hd.
    rewrite redis_enabled_exec, Hdb.
    destruct (exec_frame (Redeem f token) w) as (_ & _ & _ & ->).
    by rewrite Z.add_0_r.
  - intros Hredis Hget Hdel Hfound Htruthy Hup.
    assert (forall g w0, redis_db w0 !! key_of token = None ->
              primary_hit g token w0 = None) as Hmiss.
    { intros g w0 H0. unfold primary_hit.
      rewrite (tier_get_absent _ _ _ H0). by destruct (_ && _). }
    assert (secondary_hit f token w = None) as Hs.
    { unfold secondary_hit, tier_up. by rewrite Hdel, andb_false_r. }
    assert (django_cache (exec (Redeem f token) w) = django_cache w) as Hdb
      by by rewrite validate_django_cache, (Hmiss f w Hredis), Hs.
    assert (redis_db (exec (Redeem f token) w) = redis_db w) as Hrdb
      by by rewrite validate_redis_db, (Hmiss f w Hredis).
    split; [by rewrite validate_result, (Hmiss f w Hredis), Hs|].
    split; [done|].
    rewrite validate_result, Hmiss by by rewrite Hrdb.
    f_equal. apply secondary_hit_Some. unfold tier_up in Hup.
    apply andb_true_iff in Hup as [Hg Hd].
    apply negb_true_iff in Hg, Hd.
    rewrite Hdb.
    destruct (exec_frame (Redeem f token) w) as (_ & _ & _ & ->).
    by rewrite Z.add_0_r.
Qed.

Lemma failed_delete_keeps_token_witness :
  redeem (mkFaults false false true false false false) "tok" Demo.w_issued
    = Return None /\
  redeem no_faults "tok"
    (exec (Redeem (mkFaults false false true false false false) "tok")
          Demo.w_issued)
    = Return (Some "7").
Proof.
  destruct (failed_delete_keeps_token
              (mkFaults false false true false false false) no_faults
              "tok" "7" Demo.w_issued) as [Hprimary _].
  destruct Hprimary as (Hnone & _ & Hlater);
    [reflexivity|reflexivity|reflexivity|vm_compute; reflexivity|reflexivity|
     reflexivity|reflexivity|].
  split; [exact Hnone|exact Hlater].
Defined.

(** ** The request view, case by case *)

Import ResetFlow.

Lemma request_serializer_cases (EmailField : Field) (request_data : Data) :
  PasswordResetRequestSerializer EmailField request_data =
  match EmailField (request_data !! "email") with
  | inl msgs => inl {["email" := msgs]}
  | inr e => inr {["email" := e]}
  end.
Proof.
  unfold PasswordResetRequestSerializer, is_valid,
    PasswordResetRequestSerializer_fields. simpl.
  destruct (EmailField (request_data !! "email")) as [msgs|e].
  - destruct (decide _) as [He|]; [|done]. by apply insert_non_empty in He.
  - by destruct (decide _).
Qed.

Lemma request_post_cases (EmailField : Field) f fresh_token request_data w :
  PasswordResetRequestView_post EmailField f fresh_token request_data w =
  match EmailField (request_data !! "email") with
  | inl msgs =>
      (Return (mkResponse {["email" := JList msgs]} HTTP_400_BAD_REQUEST), w)
  | inr e =>
      match filter (fun x => email x = e) (users w) with
      | [] => (Return reset_generic, w)
      | [u] => (Return (reset_generated fresh_token),
                exec (Issue f fresh_token (id u)) w)
      | _ :: _ :: _ => (Raise MultipleObjectsReturned, w)
      end
  end.
Proof.
  pose proof (request_serializer_cases EmailField request_data) as Hser.
  destruct (EmailField (request_data !! "email")) as [msgs|e].
  - unfold PasswordResetRequestView_post. rewrite Hser. unfold ret.
    by rewrite map_fmap_singleton.
  - destruct (filter (fun x => email x = e) (users w)) as [|u [|u' l]] eqn:Hf.
    + apply (request_post_unknown _ _ _ _ _ e _ Hser); [|done].
      by rewrite lookup_singleton_eq.
    + apply (request_post_existing _ _ _ _ _ e _ _ Hser); [|done].
      by rewrite lookup_singleton_eq.
    + view_unfold.
      unfold User_objects_get_email, objects_get, bind, get_world.
      rewrite Hser, lookup_singleton_eq, Hf. reflexivity.
Qed.

(** X5.  The request view answers by the number of rows that have the
    validated email.  With exactly one such row the token is issued for that
    row's id: the world afterwards is the one the issue leaves, at least one
    store write of the token's key with the id's numeral was attempted, and
    the reply is 200 and carries the token.  In every other case (a malformed
    email, no such row, several rows) the world is left exactly as it was and
    no reply carries a [token].  The view never answers 500: a reply has
    status 200 or 400, and the only exception that leaves the view is the
    lookup's [MultipleObjectsReturned]. *)
Theorem reset_request_outcomes (EmailField : Field) (f : Faults)
        (fresh_token : string) (request_data : Data) (w : World) :
  let post := PasswordResetRequestView_post EmailField f fresh_token
                request_data w in
  (forall u,
     EmailField (request_data !! "email") = inr (email u) ->
     filter (fun x => email x = email u) (users w) = [u] ->
     post = (Return (reset_generated fresh_token),
             exec (Issue f fresh_token (id u)) w) /\
     new_ops w (snd post)
       ∈ issue_call_shapes (key_of fresh_token) (str (id u))) /\
  ((forall e u,
      EmailField (request_data !! "email") = inr e ->
      filter (fun x => email x = e) (users w) <> [u]) ->
   snd post = w /\
   forall reply, fst post = Return reply -> data reply !! "token" = None) /\
  (forall reply, fst post = Return reply ->
     status_code reply = 200 \/ status_code reply = 400) /\
  (forall e, fst post = Raise e -> e = MultipleObjectsReturned).
Proof.
  intros post. subst post. rewrite request_post_cases.
  split; [|split; [|split]].
  - intros u He Hf. rewrite He, Hf. split; [done|].
    cbn [snd]. rewrite new_ops_exec. cbn [call_ops].
    unfold issue_ops, issue_call_shapes.
    destruct (redis_enabled w), (setex_raises f); simpl; by repeat constructor.
  - intros Hnone.
    destruct (EmailField (request_data !! "email")) as [msgs|e].
    + split; [done|]. intros reply [= <-]. cbn [data].
      by rewrite lookup_singleton_ne.
    + destruct (filter (fun x => email x = e) (users w)) as [|u [|u' l]] eqn:Hf.
      * split; [done|]. intros reply [= <-]. reflexivity.
      * by destruct (Hnone e u eq_refl).
      * split; [done|]. intros reply [=].
  - destruct (EmailField (request_data !! "email")) as [msgs|e].
    + intros reply [= <-]. by right.
    + destruct (filter (fun x => email x = e) (users w)) as [|u [|u' l]];
        intros reply [= <-]; by left.
  - destruct (EmailField (request_data !! "email")) as [msgs|e]; [done|].
    destruct (filter (fun x => email x = e) (users w)) as [|u [|u' l]];
      [done|done|]. by intros e' [= <-].
Qed.

Lemma reset_request_outcomes_witness :
  PasswordResetRequestView_post required_field no_faults "tok"
    Demo.request_alice Demo.w_boot
  = (Return (reset_generated "tok"), Demo.w_issued).
Proof.
  destruct (reset_request_outcomes required_field no_faults "tok"
              Demo.request_alice Demo.w_boot) as (Hissued & _).
  destruct (Hissued Demo.alice) as [Hpost _];
    [reflexivity|reflexivity|exact Hpost].
Defined.

(** ** The confirm view, case by case *)

Lemma confirm_post_invalid (CharField : Field) f request_data errors w :
  PasswordResetConfirmSerializer CharField request_data = inl errors ->
  PasswordResetConfirmView_post CharField f request_data w =
    (Return (mkResponse (JList <$> errors) HTTP_400_BAD_REQUEST), w).
Proof. intros Hser. unfold PasswordResetConfirmView_post. by rewrite Hser. Qed.

Lemma confirm_post_none (CharField : Field) f request_data validated tok w :
  PasswordResetConfirmSerializer CharField request_data = inr validated ->
  validated !! "token" = Some tok ->
  redeem f tok w = Return None ->
  PasswordResetConfirmView_post CharField f request_data w =
    (Return confirm_rejection, exec (Redeem f tok) w).
Proof.
  intros Hser Htok Hred.
  destruct (confirm_serializer_inr _ _ _ Hser) as (tok' & pw & Htok' & Hpw & _).
  rewrite validate_result in Hred. injection Hred as Hred.
  view_unfold. by rewrite Hser, Htok, Hpw, validate_run, Hred.
Qed.

Lemma int_error (s : string) (e : Exception) :
  int s = inl e ->
  e = ValueError ("invalid literal for int() with base 10: " +:+ s).
Proof. unfold int. repeat case_match; congruence. Qed.

Lemma confirm_post_some (CharField : Field) f request_data validated tok pw
      uid w :
  PasswordResetConfirmSerializer CharField request_data = inr validated ->
  validated !! "token" = Some tok ->
  validated !! "new_password" = Some pw ->
  redeem f tok w = Return (Some uid) ->
  let w1 := exec (Redeem f tok) w in
  PasswordResetConfirmView_post CharField f request_data w =
  match int uid with
  | inl e =>
      (Return confirm_error,
       add_log ERROR ("Password reset confirmation failed: " +:+ str_exc e) w1)
  | inr n =>
      match filter (fun x => id x = n) (users w) with
      | [] => (Return confirm_rejection, w1)
      | [u] => (Return confirm_ok, set_users (with_password u pw (users w)) w1)
      | _ :: _ :: _ =>
          (Return confirm_error,
           add_log ERROR ("Password reset confirmation failed: " +:+
                          str_exc MultipleObjectsReturned) w1)
      end
  end.
Proof.
  intros Hser Htok Hpw Hred w1. subst w1.
  pose proof (redeem_some_truthy _ _ _ _ Hred) as Htruthy.
  rewrite validate_result in Hred. injection Hred as Hred.
  assert (users (exec (Redeem f tok) w) = users w) as Hus
    by by destruct (exec_frame (Redeem f tok) w) as (_ & _ & -> & _).
  view_unfold. rewrite Hser, Htok, Hpw, validate_run, Hred, Htruthy.
  unfold User_objects_get_id, set_password_and_save, objects_get, bind,
    get_world, raise, ret, modify, with_password.
  destruct (int uid) as [e|n] eqn:Hint.
  { apply int_error in Hint as ->. reflexivity. }
  rewrite Hus.
  destruct (filter (fun x => id x = n) (users w)) as [|u [|u' l]];
    cbn beta; rewrite ?Hus; reflexivity.
Qed.

(** The confirm view leaves the stores, the clock and the module globals as
    one redeem of the validated token leaves them, or untouched when the
    request is rejected by the serializer. *)
Lemma confirm_post_world (CharField : Field) f request_data w :
  exists w1,
    (w1 = w \/
     exists validated tok,
       PasswordResetConfirmSerializer CharField request_data = inr validated /\
       validated !! "token" = Some tok /\ w1 = exec (Redeem f tok) w) /\
    let w' := snd (PasswordResetConfirmView_post CharField f request_data w) in
    redis_client w' = redis_client w1 /\
    redis_available w' = redis_available w1 /\
    redis_db w' = redis_db w1 /\
    django_cache w' = django_cache w1 /\
    now w' = now w1 /\
    trace w' = trace w1.
Proof.
  destruct (PasswordResetConfirmSerializer CharField request_data)
    as [errors|validated] eqn:Hser.
  - exists w. split; [by left|].
    by rewrite (confirm_post_invalid _ _ _ _ _ Hser).
  - destruct (confirm_serializer_inr _ _ _ Hser) as (tok & pw & Htok & Hpw & _).
    exists (exec (Redeem f tok) w). split; [right; eauto|].
    destruct (redeem f tok w) as [[uid|]|e] eqn:Hred.
    + rewrite (confirm_post_some _ _ _ _ _ _ _ _ Hser Htok Hpw Hred).
      destruct (int uid) as [e|n]; [done|].
      by destruct (filter _ _) as [|u [|u' l]].
    + by rewrite (confirm_post_none _ _ _ _ _ _ Hser Htok Hred).
    + rewrite validate_result in Hred. discriminate.
Qed.

Lemma NoDup_fmap_elem {A B} (g : A -> B) (l : list A) (x y : A) :
  NoDup (g <$> l) -> x ∈ l -> y ∈ l -> g x = g y -> x = y.
Proof.
  induction l as [|a l IH]; intros Hnd Hx Hy Heq.
  - by apply elem_of_nil in Hx.
  - rewrite fmap_cons in Hnd. apply NoDup_cons in Hnd as [Hfresh Hnd].
    apply elem_of_cons in Hx as [->|Hx]; apply elem_of_cons in Hy as [->|Hy].
    + done.
    + exfalso. apply Hfresh. rewrite Heq. by apply list_elem_of_fmap_2.
    + exfalso. apply Hfresh. rewrite <- Heq. by apply list_elem_of_fmap_2.
    + by apply IH.
Qed.

Lemma filter_key_NoDup {A} (g : A -> Z) (l : list A) (n : Z) :
  NoDup (g <$> l) ->
  filter (fun x => g x = n) l = [] \/
  exists u, filter (fun x => g x = n) l = [u].
Proof.
  induction l as [|a l IH]; intros Hnd; [by left|].
  rewrite fmap_cons in Hnd. apply NoDup_cons in Hnd as [Hfresh Hnd].
  destruct (decide (g a = n)) as [Ha|Ha].
  - right. exists a. rewrite filter_cons_True by done. f_equal.
    destruct (filter (fun x => g x = n) l) as [|b l'] eqn:Hf; [done|].
    exfalso. apply Hfresh.
    assert (b ∈ filter (fun x => g x = n) l) as Hb by (rewrite Hf; by left).
    apply list_elem_of_filter in Hb as [Hgb Hb]. rewrite Ha, <- Hgb.
    by apply list_elem_of_fmap_2.
  - rewrite filter_cons_False by done. by apply IH.
Qed.

Lemma filter_str_NoDup (l : list User) (e : string) :
  NoDup (email <$> l) ->
  filter (fun x => email x = e) l = [] \/
  exists u, filter (fun x => email x = e) l = [u].
Proof.
  induction l as [|a l IH]; intros Hnd; [by left|].
  rewrite fmap_cons in Hnd. apply NoDup_cons in Hnd as [Hfresh Hnd].
  destruct (decide (email a = e)) as [Ha|Ha].
  - right. exists a. rewrite filter_cons_True by done. f_equal.
    destruct (filter (fun x => email x = e) l) as [|b l'] eqn:Hf; [done|].
    exfalso. apply Hfresh.
    assert (b ∈ filter (fun x => email x = e) l) as Hb by (rewrite Hf; by left).
    apply list_elem_of_filter in Hb as [Hgb Hb]. rewrite Ha, <- Hgb.
    by apply list_elem_of_fmap_2.
  - rewrite filter_cons_False by done. by apply IH.
Qed.

(** Setting the password of the one row with a given id changes no id, no
    email and no name. *)
Lemma with_password_fields (u : User) (raw : string) (us : list User) :
  filter (fun x => id x = id u) us = [u] ->
  id <$> with_password u raw us = id <$> us /\
  email <$> with_password u raw us = email <$> us /\
  full_name <$> with_password u raw us = full_name <$> us.
Proof.
  intros Hone. unfold with_password. rewrite <- !list_fmap_compose.
  assert (forall r, r ∈ us -> id r = id u -> r = u) as Huniq.
  { intros r Hr Hid.
    assert (r ∈ filter (fun x => id x = id u) us) as Hin
      by by apply list_elem_of_filter.
    rewrite Hone in Hin. by apply list_elem_of_singleton in Hin. }
  repeat split; apply Forall_fmap_ext_1, Forall_forall; intros r Hr; simpl;
    case_bool_decide as Hid; try done;
    by rewrite (Huniq r Hr Hid).
Qed.

(** X6.  The confirm view never raises: it always returns a reply, with
    status 200, 400 or 500.  The user table changes only together with the
    200 reply, and then only because the token redeemed to the id of exactly
    one row: that row's password becomes the new password, and no id, email
    or name in the table changes. *)
Theorem confirm_outcomes (CharField : Field) (f : Faults)
        (request_data : Data) (w : World) :
  let post := PasswordResetConfirmView_post CharField f request_data w in
  (exists reply, fst post = Return reply /\
     (status_code reply = 200 \/ status_code reply = 400 \/
      status_code reply = 500)) /\
  (fst post <> Return confirm_ok -> users (snd post) = users w) /\
  (fst post = Return confirm_ok ->
   exists validated token pw uid n u,
     PasswordResetConfirmSerializer CharField request_data = inr validated /\
     validated !! "token" = Some token /\
     validated !! "new_password" = Some pw /\
     redeem f token w = Return (Some uid) /\
     int uid = inr n /\
     filter (fun x => id x = n) (users w) = [u] /\
     users (snd post) = with_password u pw (users w) /\
     id <$> users (snd post) = id <$> users w /\
     email <$> users (snd post) = email <$> users w /\
     full_name <$> users (snd post) = full_name <$> users w).
Proof.
  intros post. subst post.
  destruct (PasswordResetConfirmSerializer CharField request_data)
    as [errors|validated] eqn:Hser.
  { rewrite (confirm_post_invalid _ _ _ _ _ Hser).
    split; [eexists; split; [reflexivity|auto]|]. split; [done|].
    intros [=]. }
  destruct (confirm_serializer_inr _ _ _ Hser) as (tok & pw & Htok & Hpw & _).
  assert (users (exec (Redeem f tok) w) = users w) as Hus
    by by destruct (exec_frame (Redeem f tok) w) as (_ & _ & -> & _).
  destruct (redeem f tok w) as [[uid|]|e] eqn:Hred.
  - rewrite (confirm_post_some _ _ _ _ _ _ _ _ Hser Htok Hpw Hred).
    destruct (int uid) as [e|n] eqn:Hint.
    { split; [eexists; split; [reflexivity|auto]|]. by split. }
    destruct (filter (fun x => id x = n) (users w)) as [|u [|u' l]] eqn:Hf.
    + split; [eexists; split; [reflexivity|auto]|]. by split.
    + split; [eexists; split; [reflexivity|auto]|]. split; [done|].
      intros _. exists validated, tok, pw, uid, n, u.
      assert (id u = n) as Hn.
      { assert (u ∈ filter (fun x => id x = n) (users w)) as Hin
          by (rewrite Hf; by left).
        by apply list_elem_of_filter in Hin as [? _]. }
      subst n.
      destruct (with_password_fields u pw (users w) Hf) as (? & ? & ?).
      by repeat split.
    + split; [eexists; split; [reflexivity|auto]|]. by split.
  - rewrite (confirm_post_none _ _ _ _ _ _ Hser Htok Hred).
    split; [eexists; split; [reflexivity|auto]|]. by split.
  - rewrite validate_result in Hred. discriminate.
Qed.

Lemma confirm_outcomes_witness :
  users (snd (PasswordResetConfirmView_post required_field no_faults
                Demo.confirm_mismatch Demo.w_issued)) = users Demo.w_issued.
Proof.
  destruct (confirm_outcomes required_field no_faults Demo.confirm_mismatch
              Demo.w_issued) as (_ & Hkeep & _).
  apply Hkeep. vm_compute. discriminate.
Defined.

(** ** The service as a whole *)

Lemma store_inv_ext w w' :
  redis_db w' = redis_db w -> django_cache w' = django_cache w ->
  trace w' = trace w -> store_inv w -> store_inv w'.
Proof. unfold store_inv. by intros -> -> ->. Qed.

Lemma redeem_numeral f tok w u :
  store_inv w -> redeem f tok w = Return (Some u) -> exists uid, u = str uid.
Proof.
  intros [Hr Hc] Hred. rewrite validate_result in Hred. injection Hred as Hred.
  destruct (primary_hit f tok w) as [v|] eqn:Hp.
  - injection Hred as ->.
    apply primary_hit_Some in Hp as (_ & _ & _ & Hget & _).
    apply tier_get_Some_inv in Hget as (e & He & Hv & _).
    destruct (Hr _ _ He) as (tok' & uid & t & _ & -> & _). by exists uid.
  - apply secondary_hit_Some in Hred as (_ & _ & Hget & _).
    apply tier_get_Some_inv in Hget as (e & He & Hv & _).
    destruct (Hc _ _ He) as (tok' & uid & t & _ & -> & _). by exists uid.
Qed.

(** The confirm view either leaves the user table alone or sets the password
    of the one row that has the redeemed id. *)
Lemma confirm_post_users (CharField : Field) f request_data w :
  let w' := snd (PasswordResetConfirmView_post CharField f request_data w) in
  users w' = users w \/
  exists u pw,
    filter (fun x => id x = id u) (users w) = [u] /\
    users w' = with_password u pw (users w).
Proof.
  destruct (PasswordResetConfirmSerializer CharField request_data)
    as [errors|validated] eqn:Hser.
  { left. by rewrite (confirm_post_invalid _ _ _ _ _ Hser). }
  destruct (confirm_serializer_inr _ _ _ Hser) as (tok & pw & Htok & Hpw & _).
  assert (users (exec (Redeem f tok) w) = users w) as Hus
    by by destruct (exec_frame (Redeem f tok) w) as (_ & _ & -> & _).
  destruct (redeem f tok w) as [[uid|]|e] eqn:Hred.
  - rewrite (confirm_post_some _ _ _ _ _ _ _ _ Hser Htok Hpw Hred).
    destruct (int uid) as [e|n]; [by left|].
    destruct (filter (fun x => id x = n) (users w)) as [|u [|u' l]] eqn:Hf;
      [by left| |by left].
    right. exists u, pw. split; [|done].
    assert (u ∈ filter (fun x => id x = n) (users w)) as Hin
      by (rewrite Hf; by left).
    apply list_elem_of_filter in Hin as [<- _]. done.
  - left. by rewrite (confirm_post_none _ _ _ _ _ _ Hser Htok Hred).
  - rewrite validate_result in Hred. discriminate.
Qed.

(** What the service keeps true of its world. *)
Lemma served_inv (EmailField CharField : Field) (w : World) :
  served EmailField CharField w ->
  store_inv w /\ NoDup (id <$> users w) /\ NoDup (email <$> users w).
Proof.
  induction 1 as [url ce us t0 Hid Hem|r w Hw (Hst & Hid & Hem)].
  - split; [apply store_inv_boot|].
    unfold boot, import_module. by destruct ce.
  - destruct r as [f tok request_data|f request_data|s]; cbn [serve].
    + rewrite request_post_cases.
      destruct (EmailField (request_data !! "email")) as [msgs|e]; [done|].
      destruct (filter (fun x => email x = e) (users w)) as [|u [|u' l]];
        [done| |done].
      cbn [snd]. split; [by apply store_inv_exec|].
      by destruct (exec_frame (Issue f tok (id u)) w) as (_ & _ & -> & _).
    + destruct (confirm_post_world CharField f request_data w)
        as (w1 & Hw1 & _ & _ & Hr & Hc & _ & Ht).
      split.
      * apply (store_inv_ext w1); [done..|].
        destruct Hw1 as [->|(validated & tok & _ & _ & ->)];
          [done|by apply store_inv_exec].
      * destruct (confirm_post_users CharField f request_data w)
          as [->|(u & pw & Hone & ->)]; [done|].
        destruct (with_password_fields u pw (users w) Hone) as (-> & -> & _).
        done.
    + done.
Qed.

(** X7.  Under the user table's key constraints (unique ids, unique emails)
    neither reset view ever fails: in every world the service can reach, the
    request view returns a reply with status 200 or 400 and the confirm view
    does too — the 500 replies and the lookup's
    [MultipleObjectsReturned] cannot occur, because every value in the
    stores is the numeral [str] wrote and so converts back to an id. *)
Theorem reset_views_never_fail (EmailField CharField : Field) (w : World) :
  served EmailField CharField w ->
  (forall f fresh_token request_data,
     exists reply,
       fst (PasswordResetRequestView_post EmailField f fresh_token
              request_data w) = Return reply /\
       (status_code reply = 200 \/ status_code reply = 400)) /\
  (forall f request_data,
     exists reply,
       fst (PasswordResetConfirmView_post CharField f request_data w)
         = Return reply /\
       (status_code reply = 200 \/ status_code reply = 400)).
Proof.
  intros Hw. destruct (served_inv _ _ _ Hw) as (Hst & Hid & Hem). split.
  - intros f fresh_token request_data. rewrite request_post_cases.
    destruct (EmailField (request_data !! "email")) as [msgs|e].
    { eexists. split; [reflexivity|by right]. }
    destruct (filter_str_NoDup (users w) e Hem) as [->|(u & ->)];
      eexists; (split; [reflexivity|by left]).
  - intros f request_data.
    destruct (PasswordResetConfirmSerializer CharField request_data)
      as [errors|validated] eqn:Hser.
    { rewrite (confirm_post_invalid _ _ _ _ _ Hser).
      eexists. split; [reflexivity|by right]. }
    destruct (confirm_serializer_inr _ _ _ Hser) as (tok & pw & Htok & Hpw & _).
    destruct (redeem f tok w) as [[uid|]|e] eqn:Hred.
    + rewrite (confirm_post_some _ _ _ _ _ _ _ _ Hser Htok Hpw Hred).
      destruct (redeem_numeral _ _ _ _ Hst Hred) as (n & ->).
      rewrite int_str.
      destruct (filter_key_NoDup id (users w) n Hid) as [->|(u & ->)];
        eexists; (split; [reflexivity|auto]).
    + rewrite (confirm_post_none _ _ _ _ _ _ Hser Htok Hred).
      eexists. split; [reflexivity|by right].
    + rewrite validate_result in Hred. discriminate.
Qed.

Lemma reset_views_never_fail_witness :
  exists reply,
    fst (PasswordResetConfirmView_post required_field no_faults
           Demo.confirm_ghost
           (serve required_field required_field
              (ResetRequest no_faults "tok" Demo.request_alice) Demo.w_boot))
      = Return reply /\
    (status_code reply = 200 \/ status_code reply = 400).
Proof.
  destruct (reset_views_never_fail required_field required_field
              (serve required_field required_field
                 (ResetRequest no_faults "tok" Demo.request_alice)
                 Demo.w_boot)) as [_ Hconfirm].
  - apply served_step. unfold Demo.w_boot.
    apply served_boot; apply NoDup_singleton.
  - apply Hconfirm.
Defined.

(** ** From the request to the new password *)

(** The first redeem after an issue that reached a tier. *)
Lemma redeem_after_issue fi fr tok uid w tier between :
  absent tok w ->
  written_to fi w = Some tier ->
  Forall (fun c => mentions tok c = false) between ->
  now (run between (exec (Issue fi tok uid) w)) < now w + 600 ->
  tier_up fr tier = true ->
  redeem fr tok (run between (exec (Issue fi tok uid) w))
    = Return (Some (str uid)) /\
  absent tok (exec (Redeem fr tok) (run between (exec (Issue fi tok uid) w))).
Proof.
  intros [Hr Hd] Htier Hbetween Hfresh Hup.
  pose proof (redis_enabled_run between (exec (Issue fi tok uid) w)) as Hen.
  rewrite redis_enabled_exec in Hen.
  destruct (lookup_run_other tok between (exec (Issue fi tok uid) w) Hbetween)
    as [Hr1 Hd1].
  rewrite generate_redis_db in Hr1. rewrite generate_django_cache in Hd1.
  rewrite Htier in Hr1, Hd1.
  set (w1 := run between (exec (Issue fi tok uid) w)) in *.
  unfold absent.
  rewrite validate_result, validate_redis_db, validate_django_cache.
  destruct tier.
  - unfold tier_set in Hr1. rewrite lookup_insert_eq in Hr1.
    assert (redis_enabled w = true) as Hon.
    { unfold written_to in Htier. destruct (redis_enabled w); [done|].
      simpl in Htier. by destruct (negb (cache_set_raises fi)). }
    assert (primary_hit fr tok w1 = Some (str uid)) as ->.
    { unfold primary_hit. rewrite Hen, Hon, Hup. simpl.
      rewrite (tier_get_live _ _ _ _ _ Hr1 Hfresh). by rewrite str_truthy. }
    rewrite lookup_delete_eq. split; [done|]. split; [done|].
    by rewrite Hd1.
  - unfold tier_set in Hd1. rewrite lookup_insert_eq in Hd1.
    assert (primary_hit fr tok w1 = None) as ->.
    { unfold primary_hit. rewrite (tier_get_absent _ _ _ (eq_trans Hr1 Hr)).
      by destruct (_ && _). }
    assert (secondary_hit fr tok w1 = Some (str uid)) as ->.
    { unfold secondary_hit. rewrite Hup.
      rewrite (tier_get_live _ _ _ _ _ Hd1 Hfresh). by rewrite str_truthy. }
    rewrite lookup_delete_eq. split; [done|]. split; [|done].
    by rewrite Hr1.
Qed.

(** X8.  The reset flow end to end.  A request for the email of exactly one
    user, answered with a fresh token that reached a tier, followed less than
    600 seconds later by a confirm with that token (the tier that holds it
    being up, and nothing else having touched the token in between), sets
    that user's password to the new one and nobody else's: the subject id
    goes into the store as a numeral and comes back as the same id.  The
    token is spent: every later confirm with it is rejected and changes
    nothing. *)
Theorem reset_flow_sets_password (EmailField CharField : Field)
        (fi fc : Faults) (fresh_token : string)
        (request_data confirm_data validated : Data) (pw : string) (u : User)
        (tier : TierName) (between : list Call) (w : World) :
  EmailField (request_data !! "email") = inr (email u) ->
  filter (fun x => email x = email u) (users w) = [u] ->
  filter (fun x => id x = id u) (users w) = [u] ->
  absent fresh_token w ->
  written_to fi w = Some tier ->
  PasswordResetConfirmSerializer CharField confirm_data = inr validated ->
  validated !! "token" = Some fresh_token ->
  validated !! "new_password" = Some pw ->
  Forall (fun c => mentions fresh_token c = false) between ->
  let requested :=
    PasswordResetRequestView_post EmailField fi fresh_token request_data w in
  let w1 := run between (snd requested) in
  now w1 < now w + 600 ->
  tier_up fc tier = true ->
  let confirmed := PasswordResetConfirmView_post CharField fc confirm_data w1 in
  fst requested = Return (reset_generated fresh_token) /\
  fst confirmed = Return confirm_ok /\
  users (snd confirmed) = with_password u pw (users w) /\
  absent fresh_token (snd confirmed) /\
  (forall f',
     let again := PasswordResetConfirmView_post CharField f' confirm_data
                    (snd confirmed) in
     fst again = Return confirm_rejection /\
     users (snd again) = users (snd confirmed)).
Proof.
  intros Hfield Hemail Hid Habs Htier Hser Htok Hpw Hbetween.
  cbv zeta. rewrite request_post_cases, Hfield, Hemail. cbn [fst snd].
  intros Hfresh Hup.
  destruct (redeem_after_issue fi fc fresh_token (id u) w tier between
              Habs Htier Hbetween Hfresh Hup) as [Hred Hgone].
  set (w1 := run between (exec (Issue fi fresh_token (id u)) w)) in *.
  assert (users w1 = users w) as Hus.
  { subst w1. rewrite run_users.
    by destruct (exec_frame (Issue fi fresh_token (id u)) w)
      as (_ & _ & -> & _). }
  rewrite (confirm_post_some _ _ _ _ _ _ _ _ Hser Htok Hpw Hred).
  rewrite int_str, Hus, Hid. cbn [fst snd].
  split; [done|]. split; [done|]. split; [done|]. split; [exact Hgone|].
  intros f'.
  assert (absent fresh_token
            (set_users (with_password u pw (users w))
                       (exec (Redeem fc fresh_token) w1))) as Hgone'
    by exact Hgone.
  rewrite (confirm_post_absent _ f' _ _ _ _ Hser Htok Hgone').
  cbn [fst snd]. split; [done|].
  by destruct (exec_frame (Redeem f' fresh_token)
                 (set_users (with_password u pw (users w))
                            (exec (Redeem fc fresh_token) w1)))
    as (_ & _ & -> & _).
Qed.

Lemma reset_flow_sets_password_witness :
  users (snd (PasswordResetConfirmView_post required_field no_faults
                {["token" := "tok"; "new_password" := "newpass123";
                  "new_password_confirm" := "newpass123"]}
                (run [Elapse 599]
                   (snd (PasswordResetRequestView_post required_field
                           Demo.f_setex_down "tok" Demo.request_alice
                           Demo.w_boot)))))
  = [mkUser 7 "alice@example.com" "newpass123" "Alice"].
Proof.
  destruct (reset_flow_sets_password required_field required_field
              Demo.f_setex_down no_faults "tok" Demo.request_alice
              {["token" := "tok"; "new_password" := "newpass123";
                "new_password_confirm" := "newpass123"]}
              {["token" := "tok"; "new_password" := "newpass123";
                "new_password_confirm" := "newpass123"]}
              "newpass123" Demo.alice Secondary [Elapse 599] Demo.w_boot)
    as (_ & _ & Husers & _).
  - reflexivity.
  - reflexivity.
  - reflexivity.
  - split; reflexivity.
  - reflexivity.
  - vm_compute. reflexivity.
  - reflexivity.
  - reflexivity.
  - repeat constructor.
  - vm_compute. reflexivity.
  - reflexivity.
  - rewrite Husers. reflexivity.
Defined.

(** X9.  A confirm touches no token but the one it was given: whatever its
    outcome, a redeem of any other token returns afterwards what it would
    have returned before.  In particular a completed password reset does not
    revoke the other reset tokens still outstanding for the same user. *)
Theorem confirm_keeps_other_tokens (CharField : Field) (f f2 : Faults)
        (request_data : Data) (token2 : string) (w : World) :
  (forall validated,
     PasswordResetConfirmSerializer CharField request_data = inr validated ->
     validated !! "token" <> Some token2) ->
  redeem f2 token2
    (snd (PasswordResetConfirmView_post CharField f request_data w))
  = redeem f2 token2 w.
Proof.
  intros Hother.
  destruct (confirm_post_world CharField f request_data w)
    as (w1 & Hw1 & Hcl & Hav & Hr & Hc & Hnow & _).
  assert (redis_enabled w1 = redis_enabled w /\ now w1 = now w /\
          redis_db w1 !! key_of token2 = redis_db w !! key_of token2 /\
          django_cache w1 !! key_of token2 = django_cache w !! key_of token2)
    as (Hen1 & Hnow1 & Hr1 & Hc1).
  { destruct Hw1 as [->|(validated & tok & Hser & Htok & ->)]; [done|].
    assert (mentions token2 (Redeem f tok) = false) as Hm.
    { simpl. apply bool_decide_eq_false. intros ->. by apply (Hother _ Hser). }
    destruct (lookup_exec_other token2 (Redeem f tok) w Hm) as [-> ->].
    rewrite redis_enabled_exec.
    destruct (exec_frame (Redeem f tok) w) as (_ & _ & _ & ->).
    by rewrite Z.add_0_r. }
  apply redeem_ext.
  - unfold redis_enabled in *. by rewrite Hcl, Hav.
  - by rewrite Hnow.
  - by rewrite Hr.
  - by rewrite Hc.
Qed.

Lemma confirm_keeps_other_tokens_witness :
  redeem no_faults "tok2"
    (snd (PasswordResetConfirmView_post required_field no_faults
            {["token" := "tok"; "new_password" := "newpass123";
              "new_password_confirm" := "newpass123"]}
            (exec (Issue no_faults "tok2" 7) Demo.w_issued)))
  = Return (Some "7").
Proof.
  rewrite (confirm_keeps_other_tokens required_field no_faults no_faults
             {["token" := "tok"; "new_password" := "newpass123";
               "new_password_confirm" := "newpass123"]}
             "tok2" (exec (Issue no_faults "tok2" 7) Demo.w_issued)).
  - vm_compute. reflexivity.
  - intros validated Hser. vm_compute in Hser. injection Hser as <-.
    vm_compute. discriminate.
Defined.

(** ** Registration *)

Import Accounts.

Lemma registration_serializer_cases (EmailField CharField : Field)
      (request_data : Data) :
  let fields := UserRegistrationSerializer_fields EmailField CharField in
  UserRegistrationSerializer EmailField CharField request_data =
    if decide (fst (run_fields fields request_data) = ∅)
    then UserRegistrationSerializer_validate (snd (run_fields fields request_data))
    else inl (fst (run_fields fields request_data)).
Proof.
  intros fields. subst fields. unfold UserRegistrationSerializer, is_valid.
  by destruct (run_fields _ _).
Qed.

Lemma registration_fields_ok (EmailField CharField : Field)
      (request_data : Data) :
  fst (run_fields (UserRegistrationSerializer_fields EmailField CharField)
                  request_data) = ∅ ->
  exists e n p pc,
    EmailField (request_data !! "email") = inr e /\
    CharField (request_data !! "full_name") = inr n /\
    CharField (request_data !! "password") = inr p /\
    CharField (request_data !! "password_confirm") = inr pc /\
    snd (run_fields (UserRegistrationSerializer_fields EmailField CharField)
                    request_data)
    = <["email" := e]> (<["full_name" := n]> (<["password" := p]>
        (<["password_confirm" := pc]> ∅))).
Proof.
  unfold UserRegistrationSerializer_fields. simpl.
  destruct (CharField (request_data !! "password_confirm")) as [m4|pc];
  destruct (CharField (request_data !! "password")) as [m3|p];
  destruct (CharField (request_data !! "full_name")) as [m2|n];
  destruct (EmailField (request_data !! "email")) as [m1|e]; simpl; intros He.
  all: try (by apply insert_non_empty in He).
  eauto 10.
Qed.

(** X10.  A registration whose [password] and [password_confirm], as the
    serializer's [validate] receives them, differ is answered with status 400
    and the field-keyed errors, and nothing else happens: the world is as it
    was, whatever [create_user] and the token issuer would do — no account is
    created and no JWT is issued. *)
Theorem registration_mismatch_creates_nothing (EmailField CharField : Field)
        (create_user : Data -> M User)
        (RefreshToken_for_user : User -> M (string * string))
        (request_data : Data) (w : World) :
  let fields := UserRegistrationSerializer_fields EmailField CharField in
  let value := snd (run_fields fields request_data) in
  value !! "password" <> value !! "password_confirm" ->
  exists errors : Errors,
    errors <> ∅ /\
    UserRegistrationView_post EmailField CharField create_user
      RefreshToken_for_user request_data w
    = (Return (mkReply (JStrings <$> errors) 400), w) /\
    (fst (run_fields fields request_data) = ∅ ->
     errors = {["password_confirm" := ["Passwords do not match"]]}).
Proof.
  intros fields value Hne.
  assert (exists errors : Errors,
            errors <> ∅ /\
            UserRegistrationSerializer EmailField CharField request_data
              = inl errors /\
            (fst (run_fields fields request_data) = ∅ ->
             errors = {["password_confirm" := ["Passwords do not match"]]}))
    as (errors & Hnonempty & Hser & Hshape).
  { rewrite registration_serializer_cases. fold fields. fold value.
    destruct (decide (_ = ∅)) as [He|Hne'].
    - unfold UserRegistrationSerializer_validate.
      destruct (decide _) as [_|Heq]; [|done].
      eexists. split; [|split; [reflexivity|done]]. apply insert_non_empty.
    - eexists. split; [exact Hne'|]. split; [reflexivity|done]. }
  exists errors. split; [done|]. split; [|done].
  unfold UserRegistrationView_post. by rewrite Hser.
Qed.

Lemma registration_mismatch_creates_nothing_witness :
  UserRegistrationView_post required_field required_field
    (fun _ => raise MultipleObjectsReturned)
    (fun _ => raise MultipleObjectsReturned)
    {["email" := "new@example.com"; "full_name" := "New";
      "password" := "securepass123"; "password_confirm" := "different123"]}
    Demo.w_boot
  = (Return (mkReply {["password_confirm" := JStrings ["Passwords do not match"]]}
                     400),
     Demo.w_boot).
Proof.
  destruct (registration_mismatch_creates_nothing required_field required_field
              (fun _ => raise MultipleObjectsReturned)
              (fun _ => raise MultipleObjectsReturned)
              {["email" := "new@example.com"; "full_name" := "New";
                "password" := "securepass123";
                "password_confirm" := "different123"]} Demo.w_boot)
    as (errors & _ & Hpost & Hshape).
  - vm_compute. discriminate.
  - rewrite Hpost, Hshape by reflexivity. reflexivity.
Defined.

(** X11.  A registration that passes validation hands [create_user] exactly
    the email, the full name and the password — [password_confirm] never
    reaches it.  If [create_user] or the token issuer raises, the exception
    leaves the view as it is (the view catches nothing).  Otherwise the reply
    is 201 with the keys [user], [refresh] and [access], and its [user] object
    has the keys [id], [email] and [full_name] only: the password is not
    sent back. *)
Theorem registration_success (EmailField CharField : Field)
        (create_user : Data -> M User)
        (RefreshToken_for_user : User -> M (string * string))
        (request_data validated : Data) (w : World) :
  UserRegistrationSerializer EmailField CharField request_data
    = inr validated ->
  exists e n p,
    let kwargs : Data := {["email" := e; "full_name" := n; "password" := p]} in
    let post := UserRegistrationView_post EmailField CharField create_user
                  RefreshToken_for_user request_data w in
    EmailField (request_data !! "email") = inr e /\
    CharField (request_data !! "full_name") = inr n /\
    CharField (request_data !! "password") = inr p /\
    match create_user kwargs w with
    | (Raise exc, w1) => post = (Raise exc, w1)
    | (Return u, w1) =>
        match RefreshToken_for_user u w1 with
        | (Raise exc, w2) => post = (Raise exc, w2)
        | (Return tokens, w2) =>
            exists reply,
              post = (Return reply, w2) /\
              status reply = 201 /\
              dom (body reply) = {["user"; "refresh"; "access"]} /\
              body reply !! "user" = Some (JObject (UserSerializer_data u)) /\
              dom (UserSerializer_data u) = {["id"; "email"; "full_name"]} /\
              body reply !! "refresh" = Some (JString (fst tokens)) /\
              body reply !! "access" = Some (JString (snd tokens))
        end
    end.
Proof.
  intros Hser. pose proof Hser as Hser'.
  rewrite registration_serializer_cases in Hser'.
  destruct (decide (_ = ∅)) as [He|]; [|done].
  destruct (registration_fields_ok EmailField CharField request_data He)
    as (e & n & p & pc & He1 & He2 & He3 & He4 & Hvalue).
  rewrite Hvalue in Hser'. unfold UserRegistrationSerializer_validate in Hser'.
  destruct (decide _) as [|_]; [done|]. injection Hser' as <-.
  exists e, n, p. cbv zeta. split; [done|]. split; [done|]. split; [done|].
  unfold UserRegistrationView_post, UserRegistrationSerializer_create.
  rewrite Hser.
  assert ((<["email" := e]> (<["full_name" := n]> (<["password" := p]>
             (<["password_confirm" := pc]> ∅))) : Data) !! "password_confirm"
          = Some pc) as -> by by simplify_map_eq.
  assert (delete "password_confirm"
            (<["email" := e]> (<["full_name" := n]> (<["password" := p]>
               (<["password_confirm" := pc]> ∅))) : Data)
          = {["email" := e; "full_name" := n; "password" := p]}) as ->.
  { apply map_eq. intros k.
    destruct (decide (k = "password_confirm")) as [->|Hk].
    - rewrite lookup_delete_eq. by simplify_map_eq.
    - rewrite lookup_delete_ne by done.
      destruct (decide (k = "email")) as [->|?]; [by simplify_map_eq|].
      destruct (decide (k = "full_name")) as [->|?]; [by simplify_map_eq|].
      destruct (decide (k = "password")) as [->|?]; by simplify_map_eq. }
  unfold bind, ret.
  destruct (create_user _ w) as [[u|exc] w1]; [|done].
  destruct (RefreshToken_for_user u w1) as [[tokens|exc] w2]; [|done].
  eexists. split; [reflexivity|]. unfold token_reply. cbn [status body].
  split; [done|]. split; [|split; [by simplify_map_eq|split]].
  - rewrite !dom_insert_L, dom_singleton_L. set_solver.
  - unfold UserSerializer_data. rewrite !dom_insert_L, dom_singleton_L.
    set_solver.
  - split; by simplify_map_eq.
Qed.

Lemma registration_success_witness :
  exists reply w',
    UserRegistrationView_post required_field required_field
      Samples.sample_create_user Samples.sample_tokens Samples.register_new
      Demo.w_boot = (Return reply, w') /\
    status reply = 201 /\
    body reply !! "user"
      = Some (JObject {["id" := JNumber 8; "email" := JString "new@example.com";
                        "full_name" := JString "New User"]}).
Proof.
  destruct (registration_success required_field required_field
              Samples.sample_create_user Samples.sample_tokens
              Samples.register_new
              {["email" := "new@example.com"; "full_name" := "New User";
                "password" := "securepass123";
                "password_confirm" := "securepass123"]}
              Demo.w_boot) as (e & n & p & He & Hn & Hp & Hpost).
  - vm_compute. reflexivity.
  - injection He as <-. injection Hn as <-. injection Hp as <-.
    cbv zeta in Hpost.
    destruct (Samples.sample_create_user _ Demo.w_boot) as [[u|exc] w1] eqn:Hc;
      [|vm_compute in Hc; discriminate].
    destruct (Samples.sample_tokens u w1) as [[tokens|exc] w2] eqn:Ht;
      [|vm_compute in Ht; discriminate].
    destruct Hpost as (reply & Hpost & Hst & _ & Huser & _).
    exists reply, w2. split; [exact Hpost|]. split; [exact Hst|].
    rewrite Huser. vm_compute in Hc. injection Hc as <- _. reflexivity.
Defined.

(** ** Login *)

(** X12.  The login view reads the email and the password from the body as
    they are (a missing one is passed on as [None]; no serializer runs) and
    answers according to the verdict of [authenticate] alone.  Every refusal
    gets the same reply — status 401 with the one text "Invalid
    credentials" — so a wrong password, an unknown email and a missing field
    cannot be told apart from the reply, and the view itself changes nothing
    and never answers 400.  An accepted login gets 200 with [user], [refresh]
    and [access], where [user] has [id], [email] and [full_name] only. *)
Theorem login_outcomes (RefreshToken_for_user : User -> M (string * string))
        (authenticate : option string -> option string -> M (option User))
        (request_data : Data) (w : World) :
  let post := UserLoginView_post RefreshToken_for_user authenticate
                request_data w in
  match authenticate (request_data !! "email") (request_data !! "password") w
  with
  | (Raise exc, w1) => post = (Raise exc, w1)
  | (Return None, w1) => post = (Return invalid_credentials, w1)
  | (Return (Some u), w1) =>
      match RefreshToken_for_user u w1 with
      | (Raise exc, w2) => post = (Raise exc, w2)
      | (Return tokens, w2) =>
          exists reply,
            post = (Return reply, w2) /\
            status reply = 200 /\
            dom (body reply) = {["user"; "refresh"; "access"]} /\
            body reply !! "user" = Some (JObject (UserSerializer_data u)) /\
            dom (UserSerializer_data u) = {["id"; "email"; "full_name"]}
      end
  end /\
  (forall reply, fst post = Return reply ->
     status reply = 200 \/ reply = invalid_credentials).
Proof.
  intros post. subst post. unfold UserLoginView_post, bind, ret.
  destruct (authenticate _ _ w) as [[[u|]|exc] w1]; [|by split; [|intros ? [= <-]; right]|by split].
  destruct (RefreshToken_for_user u w1) as [[tokens|exc] w2]; [|by split].
  split.
  - eexists. split; [reflexivity|]. unfold token_reply. cbn [status body].
    split; [done|]. split; [|split; [by simplify_map_eq|]].
    + rewrite !dom_insert_L, dom_singleton_L. set_solver.
    + unfold UserSerializer_data. rewrite !dom_insert_L, dom_singleton_L.
      set_solver.
  - intros reply [= <-]. by left.
Qed.

Lemma login_outcomes_witness :
  fst (UserLoginView_post Samples.sample_tokens Samples.sample_authenticate
         Samples.login_wrong_password Demo.w_boot)
  = fst (UserLoginView_post Samples.sample_tokens Samples.sample_authenticate
           Samples.login_unknown Demo.w_boot).
Proof.
  destruct (login_outcomes Samples.sample_tokens Samples.sample_authenticate
              Samples.login_wrong_password Demo.w_boot) as [Hwrong _].
  destruct (login_outcomes Samples.sample_tokens Samples.sample_authenticate
              Samples.login_unknown Demo.w_boot) as [Hunknown _].
  assert (Samples.sample_authenticate
            (Samples.login_wrong_password !! "email")
            (Samples.login_wrong_password !! "password") Demo.w_boot
          = (Return None, Demo.w_boot)) as Hs1 by (vm_compute; reflexivity).
  assert (Samples.sample_authenticate
            (Samples.login_unknown !! "email")
            (Samples.login_unknown !! "password") Demo.w_boot
          = (Return None, Demo.w_boot)) as Hs2 by (vm_compute; reflexivity).
  rewrite Hs1 in Hwrong. rewrite Hs2 in Hunknown.
  by rewrite Hwrong, Hunknown.
Defined.

(** ** The Authorization header middleware *)

(** X13.  The middleware hands [get_response] a request that differs from
    the one it received in at most the [HTTP_AUTHORIZATION] entry of [META]:
    an entry that is already there is never overwritten, a missing one is
    filled in from the [Authorization] header when there is one, every other
    entry and the rest of the request are left alone, and the response is
    passed back unchanged.  Running the middleware twice is the same as
    running it once. *)
Theorem middleware_fills_missing_entry_only {R : Type}
        (get_response : HttpRequest -> R) (request : HttpRequest) :
  let seen := AuthorizationHeaderMiddleware_call (fun r => r) request in
  AuthorizationHeaderMiddleware_call get_response request = get_response seen /\
  headers seen = headers request /\
  user seen = user request /\
  query_params seen = query_params request /\
  (forall k, k <> "HTTP_AUTHORIZATION" -> META seen !! k = META request !! k) /\
  META seen !! "HTTP_AUTHORIZATION" =
    match META request !! "HTTP_AUTHORIZATION" with
    | Some v => Some v
    | None => headers request !! "Authorization"
    end /\
  AuthorizationHeaderMiddleware_call
    (AuthorizationHeaderMiddleware_call get_response) request
  = AuthorizationHeaderMiddleware_call get_response request.
Proof.
  intros seen. subst seen. unfold AuthorizationHeaderMiddleware_call.
  destruct (headers request !! "Authorization") as [v|] eqn:Hh.
  - destruct (META request !! "HTTP_AUTHORIZATION") as [m|] eqn:Hm.
    + rewrite ?bool_decide_eq_false_2 by done. rewrite ?Hh, ?Hm.
      rewrite ?bool_decide_eq_false_2 by done. by repeat split.
    + rewrite ?bool_decide_eq_true_2 by done. cbn [headers META set_META].
      rewrite ?Hh, ?lookup_insert_eq.
      rewrite ?bool_decide_eq_false_2 by done.
      repeat split; try done.
      intros k Hk. by rewrite lookup_insert_ne.
  - rewrite ?Hh. repeat split; try done. by destruct (META request !! _).
Qed.

Lemma middleware_fills_missing_entry_only_witness :
  META (AuthorizationHeaderMiddleware_call (fun r => r)
          Samples.anonymous_with_header) !! "PATH_INFO" = Some "/profile/".
Proof.
  destruct (middleware_fills_missing_entry_only (fun r => r)
              Samples.anonymous_with_header) as (_ & _ & _ & _ & Hframe & _).
  rewrite Hframe by discriminate. reflexivity.
Defined.

(** ** The profile view *)

(** X14.  Behind the middleware and the permission check of its class, the
    profile view's [get] runs for authenticated requests only.  Authentication
    sees the request as the middleware leaves it, with the [Authorization]
    header filled in.  A request it leaves anonymous is refused by
    [IsAuthenticated] before [get] is called: the reply is the framework's,
    the same whatever the handler is, so the 401 reply that [get] builds
    itself, with [received_header] and [hint], is never sent.  An
    authenticated request gets 200 with that user's [id], [email] and
    [full_name] and nothing else, whatever the headers are. *)
Theorem profile_behind_middleware (authenticators : HttpRequest -> option User)
        (permission_denied : HttpRequest -> Reply) (request : HttpRequest) :
  let seen := AuthorizationHeaderMiddleware_call (fun r => r) request in
  let reply := AuthorizationHeaderMiddleware_call
                 (UserProfileView authenticators permission_denied) request in
  META seen !! "HTTP_AUTHORIZATION" =
    match META request !! "HTTP_AUTHORIZATION" with
    | Some v => Some v
    | None => headers request !! "Authorization"
    end /\
  match authenticators seen with
  | None =>
      reply = permission_denied (set_user None seen) /\
      forall handler,
        AuthorizationHeaderMiddleware_call
          (APIView_dispatch authenticators permission_denied
                            [IsAuthenticated] handler) request
        = reply
  | Some u =>
      reply = mkReply (UserSerializer_data u) 200 /\
      dom (body reply) = {["id"; "email"; "full_name"]}
  end.
Proof.
  intros seen reply. subst seen reply.
  unfold AuthorizationHeaderMiddleware_call, UserProfileView, APIView_dispatch.
  destruct (headers request !! "Authorization") as [v|];
    destruct (META request !! "HTTP_AUTHORIZATION") as [m|] eqn:Hm;
    rewrite ?bool_decide_eq_false_2 by done;
    rewrite ?bool_decide_eq_true_2 by done;
    cbn [META set_META]; rewrite ?Hm, ?lookup_insert_eq; (split; [done|]);
    destruct (authenticators _) as [u|];
    cbn [forallb IsAuthenticated set_user user andb UserProfileView_get];
    try (split; [reflexivity|intros handler; reflexivity]);
    (split; [reflexivity|]); cbn [body]; unfold UserSerializer_data;
    rewrite !dom_insert_L, dom_singleton_L; set_solver.
Qed.

Lemma profile_behind_middleware_witness :
  AuthorizationHeaderMiddleware_call
    (UserProfileView Samples.sample_authenticators
                     Samples.sample_permission_denied)
    Samples.alice_with_header
  = mkReply (UserSerializer_data Demo.alice) 200.
Proof.
  pose proof (profile_behind_middleware Samples.sample_authenticators
                Samples.sample_permission_denied Samples.alice_with_header)
    as [_ Hreply].
  cbv zeta in Hreply.
  assert (Samples.sample_authenticators
            (AuthorizationHeaderMiddleware_call (fun r => r)
               Samples.alice_with_header) = Some Demo.alice) as Hauth
    by reflexivity.
  rewrite Hauth in Hreply. exact (proj1 Hreply).
Defined.

(** ** The debug view *)

(** X15.  The class body of the debug view defines [get] twice, and the
    second definition is the one a GET request reaches: the first, which
    would send back every [HTTP_] entry of [META] and the user's email and
    id, is never run.  The reply therefore depends on nothing but the
    [token] query parameter: without one, or with an empty one, it is 400;
    with one it is 200 and spells out the header value, the word Bearer, a
    blank and the token; and in no case does it have a [headers],
    [auth_header] or [user] field. *)
Theorem auth_debug_second_get_wins (request : HttpRequest) :
  exists handler,
    AuthDebugView_handler "get" = Some handler /\
    handler request = AuthDebugView_get_2 request /\
    (forall other : HttpRequest,
       query_params other !! "token" = query_params request !! "token" ->
       handler other = handler request) /\
    (query_params request !! "token" = None \/
     query_params request !! "token" = Some "" ->
     status (handler request) = 400) /\
    (forall t, query_params request !! "token" = Some t -> t <> "" ->
       status (handler request) = 200 /\
       body (handler request) !! "proper_header_value"
         = Some (JString ("Bearer " +:+ t))) /\
    body (handler request) !! "headers" = None /\
    body (handler request) !! "auth_header" = None /\
    body (handler request) !! "user" = None.
Proof.
  exists AuthDebugView_get_2. split; [reflexivity|]. split; [reflexivity|].
  unfold AuthDebugView_get_2.
  split; [by intros other ->|]. split; [|split].
  - by intros [->| ->].
  - intros t -> Ht. destruct t as [|c t]; [done|]. cbn [default truthy negb].
    cbn [status body]. split; [done|]. by simplify_map_eq.
  - destruct (negb _); cbn [body]; by simplify_map_eq.
Qed.

Lemma auth_debug_second_get_wins_witness :
  exists handler,
    AuthDebugView_handler "get" = Some handler /\
    status (handler Samples.anonymous_with_header) = 400.
Proof.
  destruct (auth_debug_second_get_wins Samples.anonymous_with_header)
    as (handler & Hh & _ & _ & Hmissing & _).
  exists handler. split; [exact Hh|]. apply Hmissing. left. reflexivity.
Defined.

(** ** The superuser scripts *)

Import Admin.

(** X16.  When exactly one row has the email, [create_admin] creates
    nothing — the manager is not consulted — and ends normally: the row with
    that email becomes a staff superuser with the given password, whatever it
    was before, keeping its id, email and name; every row with another
    primary key is left as it is, and the table keeps its length. *)
Theorem create_admin_promotes_existing
        (create_superuser : string -> string -> list Account
                            -> Exception + list Account)
        (options : gmap string string) (db : Db) (a : Account) :
  let email_ := or_else (options !! "email") "davididuate11@gmail.com" in
  let password_ := or_else (options !! "password") "admin123" in
  filter (fun r => email (account r) = email_) (accounts db) = [a] ->
  let ending := handle create_superuser options db in
  fst ending = None /\
  (forall other_manager, handle other_manager options db = ending) /\
  length (accounts (snd ending)) = length (accounts db) /\
  mkAccount (mkUser (id (account a)) email_ password_ (full_name (account a)))
            true true ∈ accounts (snd ending) /\
  (forall r, r ∈ accounts db -> id (account r) <> id (account a) ->
     r ∈ accounts (snd ending)) /\
  stdout (snd ending) =
    stdout db ++ [Plain ("User with email " +:+ email_ +:+ " already exists");
                  Success ("Updated superuser " +:+ email_)].
Proof.
  intros email_ password_ Hone ending. subst ending. unfold handle.
  fold email_. fold password_. rewrite Hone. cbn [fst snd accounts stdout write set_accounts].
  assert (a ∈ accounts db /\ email (account a) = email_) as [Ha Hemail].
  { assert (a ∈ filter (fun r => email (account r) = email_) (accounts db))
      as Hin by (rewrite Hone; by left).
    by apply list_elem_of_filter in Hin as [? ?]. }
  split; [done|]. split; [done|]. split; [|split; [|split]].
  - unfold promote. by rewrite length_fmap.
  - unfold promote. apply list_elem_of_fmap. exists a. split; [|done].
    rewrite bool_decide_eq_true_2 by done. by rewrite Hemail.
  - intros r Hr Hne. unfold promote. apply list_elem_of_fmap. exists r.
    split; [|done]. by rewrite bool_decide_eq_false_2.
  - by rewrite <- app_assoc.
Qed.

Lemma create_admin_promotes_existing_witness :
  mkAccount (mkUser 2 "alice@example.com" "s3cret" "Alice") true true
    ∈ accounts (snd (handle sample_create_superuser
                       {["email" := "alice@example.com"; "password" := "s3cret"]}
                       sample_db)).
Proof.
  destruct (create_admin_promotes_existing sample_create_superuser
              {["email" := "alice@example.com"; "password" := "s3cret"]}
              sample_db
              (mkAccount (mkUser 2 "alice@example.com" "oldpass123" "Alice")
                         false false))
    as (_ & _ & _ & Hin & _).
  - reflexivity.
  - exact Hin.
Defined.

(** X17.  [create_admin] treats an option that is missing and an option that
    is the empty string alike: either way the built-in default is used.  So
    an empty [--email] means the default address, and an empty [--password]
    does not give an empty password but the default one. *)
Theorem create_admin_empty_option_is_default
        (create_superuser : string -> string -> list Account
                            -> Exception + list Account)
        (options : gmap string string) (db : Db) :
  (options !! "email" = None \/ options !! "email" = Some "" ->
   handle create_superuser options db =
   handle create_superuser (<["email" := "davididuate11@gmail.com"]> options) db) /\
  (options !! "password" = None \/ options !! "password" = Some "" ->
   handle create_superuser options db =
   handle create_superuser (<["password" := "admin123"]> options) db).
Proof.
  split; intros Hopt; unfold handle.
  - rewrite lookup_insert_eq, lookup_insert_ne by done.
    by destruct Hopt as [-> | ->].
  - rewrite lookup_insert_eq, lookup_insert_ne by done.
    by destruct Hopt as [-> | ->].
Qed.

Lemma create_admin_empty_option_is_default_witness :
  handle sample_create_superuser {["password" := ""]} sample_db =
  handle sample_create_superuser
    {["password" := "admin123"; "email" := "davididuate11@gmail.com"]}
    sample_db.
Proof.
  destruct (create_admin_empty_option_is_default sample_create_superuser
              {["password" := ""]} sample_db) as [Hemail _].
  destruct (create_admin_empty_option_is_default sample_create_superuser
              (<["email" := "davididuate11@gmail.com"]> {["password" := ""]})
              sample_db) as [_ Hpassword].
  rewrite Hemail by (left; reflexivity).
  rewrite Hpassword by (right; reflexivity).
  reflexivity.
Defined.

Lemma filter_ext_elem {A} (P Q : A -> Prop) `{!forall x, Decision (P x)}
      `{!forall x, Decision (Q x)} (l : list A) :
  (forall x, x ∈ l -> P x <-> Q x) -> filter P l = filter Q l.
Proof.
  induction l as [|a l IH]; intros Hall; [done|].
  assert (filter P l = filter Q l) as Hl
    by (apply IH; intros x Hx; apply Hall; by right).
  destruct (decide (P a)) as [Hp|Hp].
  - rewrite !filter_cons_True; [by f_equal|by apply Hall; [left|]|done].
  - rewrite !filter_cons_False; [done| |done].
    intros Hq. apply Hp. apply Hall; [by left|done].
Qed.

(** Deleting the superusers by primary key removes exactly the superusers
    when primary keys are unique. *)
Lemma delete_all_superusers (t : list Account) :
  NoDup ((id ∘ account) <$> t) ->
  delete_all (filter (fun r => is_superuser r = true) t) t
  = filter (fun r => is_superuser r = false) t.
Proof.
  intros Hnd. unfold delete_all. apply filter_ext_elem. intros r Hr. split.
  - intros Hnot. destruct (is_superuser r) eqn:Hs; [|done].
    exfalso. apply Hnot. apply list_elem_of_fmap. exists r. split; [done|].
    by apply list_elem_of_filter.
  - intros Hs Hin. apply list_elem_of_fmap in Hin as (s & Hid & Hin).
    apply list_elem_of_filter in Hin as [Hsup Hin].
    assert (r = s) as -> by by apply (NoDup_fmap_elem (id ∘ account) t).
    congruence.
Qed.

Lemma no_superuser_all_ordinary (t : list Account) :
  filter (fun r => is_superuser r = true) t = [] ->
  filter (fun r => is_superuser r = false) t = t.
Proof.
  induction t as [|a t IH]; [done|].
  destruct (is_superuser a) eqn:Ha.
  - by rewrite filter_cons_True.
  - rewrite filter_cons_False by congruence. intros Ht.
    rewrite filter_cons_True by done. f_equal. by apply IH.
Qed.

(** X18.  [reset_superuser] removes every superuser and nothing else before
    it creates the new one: with unique primary keys, the table it hands to
    the manager is the ordinary accounts, in their order and unchanged, and
    the manager gets the email and password of the environment as they are
    (the defaults only when a variable is unset).  The removal is not undone
    when the creation fails: the script then ends with the manager's
    exception and a table that has no superuser at all. *)
Theorem reset_superuser_spares_ordinary_accounts
        (create_superuser : string -> string -> list Account
                            -> Exception + list Account)
        (environ : gmap string string) (db : Db) :
  NoDup ((id ∘ account) <$> accounts db) ->
  let ordinary := filter (fun r => is_superuser r = false) (accounts db) in
  let email_ := default "admin@example.com" (environ !! "SUPERUSER_EMAIL") in
  let password_ := default "admin123" (environ !! "SUPERUSER_PASSWORD") in
  let ending := reset_superuser_main create_superuser environ db in
  match create_superuser email_ password_ ordinary with
  | inr t => fst ending = None /\ accounts (snd ending) = t
  | inl exc =>
      fst ending = Some exc /\ accounts (snd ending) = ordinary /\
      Forall (fun r => is_superuser r = false) (accounts (snd ending))
  end.
Proof.
  intros Hnd ordinary email_ password_ ending. subst ending.
  unfold reset_superuser_main. fold email_. fold password_.
  assert (accounts
            match filter (fun r => is_superuser r = true) (accounts db) with
            | [] => db
            | _ :: _ =>
                write (Plain "All existing superusers deleted!")
                  (set_accounts
                     (delete_all
                        (filter (fun r => is_superuser r = true) (accounts db))
                        (accounts db))
                     (mkDb (accounts db)
                        (stdout db ++
                         ((fun r => Plain ("Deleting existing superuser: " +:+
                                           email (account r)))
                            <$> filter (fun r => is_superuser r = true)
                                       (accounts db)))))
            end = ordinary) as Hacc.
  { pose proof (delete_all_superusers (accounts db) Hnd) as Hdel.
    destruct (filter (fun r => is_superuser r = true) (accounts db))
      as [|s l] eqn:Hf.
    - subst ordinary. symmetry. by apply no_superuser_all_ordinary.
    - cbn [accounts write set_accounts]. exact Hdel. }
  rewrite Hacc.
  destruct (create_superuser email_ password_ ordinary) as [exc|t].
  - cbn [fst snd]. rewrite Hacc. split; [done|]. split; [done|].
    apply Forall_forall. intros r Hr. by apply list_elem_of_filter in Hr as [? _].
  - done.
Qed.

Lemma reset_superuser_spares_ordinary_accounts_witness :
  accounts (snd (reset_superuser_main sample_create_superuser
                   {["SUPERUSER_EMAIL" := "new@example.com"]} sample_db))
  = [mkAccount (mkUser 2 "alice@example.com" "oldpass123" "Alice") false false;
     mkAccount (mkUser 3 "new@example.com" "admin123" "") true true].
Proof.
  pose proof (reset_superuser_spares_ordinary_accounts sample_create_superuser
                {["SUPERUSER_EMAIL" := "new@example.com"]} sample_db) as H.
  cbv zeta in H.
  assert (NoDup ((id ∘ account) <$> accounts sample_db)) as Hnd.
  { apply (bool_decide_unpack _). vm_compute. exact I. }
  specialize (H Hnd).
  destruct (sample_create_superuser _ _ _) as [exc|t] eqn:Hc;
    [vm_compute in Hc; discriminate|].
  destruct H as [_ ->]. vm_compute in Hc. by injection Hc as <-.
Defined.

(** ** The code-block scanner of the exporter *)

Import Exporter.

Lemma collect_code_spec (rest : list string) (i : nat) (acc : list string) :
  exists n,
    (n <= length rest)%nat /\
    collect_code rest i acc = ((i + n)%nat, acc ++ take n rest) /\
    Forall (fun l => String.prefix fence l = false) (take n rest) /\
    (n = length rest \/
     exists l, rest !! n = Some l /\ String.prefix fence l = true).
Proof.
  revert i acc. induction rest as [|l rest IH]; intros i acc.
  - exists 0%nat. simpl. rewrite Nat.add_0_r, app_nil_r.
    repeat split; [lia|constructor|by left].
  - simpl. destruct (String.prefix fence l) eqn:Hl.
    + exists 0%nat. simpl. rewrite Nat.add_0_r, app_nil_r.
      repeat split; [lia|constructor|]. right. by exists l.
    + destruct (IH (S i) (acc ++ [l])) as (n & Hn & -> & Hall & Hend).
      exists (S n). simpl. repeat split.
      * lia.
      * f_equal; [lia|]. by rewrite <- app_assoc.
      * by constructor.
      * destruct Hend as [->|Hend]; [by left|by right].
Qed.

(** X19.  Called on line [start_index] of a file, [process_code_block]
    returns an index strictly beyond it and at most the number of lines, so
    the caller's loop always moves on.  The index is that of the first later
    line that starts with the fence, or the number of lines when there is
    none — a block that is never closed runs to the end of the file.  The
    lines in between are the code: when there is at least one, exactly one
    paragraph in the code-block style is appended, holding them joined by
    line feeds; when there is none, the document is left as it was. *)
Theorem process_code_block_scans_to_fence (shading_ok : bool)
        (lines : list string) (start_index : nat) (doc : list Paragraph) :
  (start_index < length lines)%nat ->
  let result := process_code_block shading_ok lines start_index doc in
  let i := fst result in
  (start_index < i <= length lines)%nat /\
  (i = length lines \/
   exists l, lines !! i = Some l /\ String.prefix fence l = true) /\
  Forall (fun l => String.prefix fence l = false)
         (slice (start_index + 1) i lines) /\
  snd result =
    match slice (start_index + 1) i lines with
    | [] => doc
    | code_lines =>
        doc ++ [mkParagraph (join newline code_lines) "CodeBlock"
                            (if shading_ok then Some "F5F5F5" else None)]
    end.
Proof.
  intros Hstart result i. subst i result. unfold process_code_block, slice.
  destruct (collect_code_spec (drop (start_index + 1) lines)
              (start_index + 1) []) as (n & Hn & -> & Hall & Hend).
  rewrite length_drop in Hn. cbn [fst snd app].
  replace (start_index + 1 + n - (start_index + 1))%nat with n by lia.
  split; [lia|]. split; [|split; [done|]].
  - destruct Hend as [->|(l & Hl & Hfence)].
    + left. rewrite length_drop. lia.
    + right. exists l. split; [|done]. by rewrite lookup_drop in Hl.
  - by destruct (take n (drop (start_index + 1) lines)).
Qed.

Lemma process_code_block_scans_to_fence_witness :
  process_code_block true ["```python"; "x = 1"; "y = 2"; "```"; "text"] 0 []
  = (3%nat, [mkParagraph ("x = 1" +:+ newline +:+ "y = 2") "CodeBlock"
                         (Some "F5F5F5")]).
Proof.
  pose proof (process_code_block_scans_to_fence true
                ["```python"; "x = 1"; "y = 2"; "```"; "text"] 0 []) as H.
  cbv zeta in H. destruct H as (_ & _ & _ & Hdoc); [simpl; lia|].
  destruct (process_code_block true _ 0 []) as [i d] eqn:Hp.
  cbn [fst snd] in Hdoc.
  assert (i = 3%nat) as -> by (vm_compute in Hp; by injection Hp as <- _).
  by rewrite Hdoc.
Defined.
